(** * InstaSlice controller: the pod reconciler

    A shallow embedding of [internal/controller/instaslice_controller.go].
    The reconciler talks to the Kubernetes API server through a client
    ([r.List], [r.Get], [r.Update]); the embedding passes the API server's
    content explicitly as a [World], lets a script decide which API calls
    fail, and records in a trace every write that the reconciler sends,
    every query of the health oracle and every placement search.

    Layout: Go values ([GoLang]), the Kubernetes and InstaSlice objects
    ([K8s], [Inference]), the client and the monad of a pass ([Client]),
    the controller (section [Controller]), a concrete cluster ([Scenario]),
    then the theorems: [checkIfPodGatedByInstaSlice], the reserved
    policies, the branches of [Reconcile] (section [Pass]) and the runs on
    the concrete cluster. *)

From Stdlib Require Import String Ascii List ZArith Lia Bool.
Import ListNotations.
Local Open Scope string_scope.
Local Open Scope Z_scope.

(* ===================================================================== *)
(** ** Go values *)
(* ===================================================================== *)

Module GoLang.

(** The outcome of a Go function call: a value, or a run-time panic. *)
Inductive Go (A : Type) : Type :=
| Returns (a : A)
| Panics (msg : string).
Arguments Returns {A} a.
Arguments Panics {A} msg.

(** [strings.HasPrefix s prefix]. *)
Definition HasPrefix (s prefix : string) : bool := String.prefix prefix s.

(** [strings.Contains s substr]. *)
Fixpoint Contains (s substr : string) : bool :=
  if String.prefix substr s then true
  else match s with
       | EmptyString => false
       | String _ s' => Contains s' substr
       end.

(** A Go [map[string]V].  The order in which [range] visits a map is not
    fixed by the language, so a map is an association list and [range]
    visits it in list order: a statement about every list is a statement
    about every iteration order.  The nil map and the empty map are both
    [[]]: they differ only under assignment, and a map that was decoded from
    an object without entries is nil. *)
Definition GoMap (V : Type) : Type := list (string * V).

(** [v, ok := m[k]]. *)
Fixpoint map_get {V} (m : GoMap V) (k : string) : option V :=
  match m with
  | [] => None
  | (k', v) :: m' => if String.eqb k' k then Some v else map_get m' k
  end.

(** [m[k] = v] on a map that is not nil. *)
Fixpoint map_set {V} (m : GoMap V) (k : string) (v : V) : GoMap V :=
  match m with
  | [] => [(k, v)]
  | (k', v') :: m' =>
      if String.eqb k' k then (k', v) :: m' else (k', v') :: map_set m' k v
  end.

(** [delete(m, k)]; a no-op on the nil map. *)
Definition map_delete {V} (m : GoMap V) (k : string) : GoMap V :=
  filter (fun kv => negb (String.eqb (fst kv) k)) m.

(** [time.Duration]: a signed 64-bit count of nanoseconds. *)
Definition Duration : Type := Z.
Definition Second : Duration := 1000000000.

Definition minInt64 : Z := - 2 ^ 63.
Definition maxInt64 : Z := 2 ^ 63 - 1.

(** Two's complement wrap-around of 64-bit arithmetic. *)
Definition wrap64 (z : Z) : Z := (z + 2 ^ 63) mod 2 ^ 64 - 2 ^ 63.

(** [time.Time] as the nanoseconds elapsed since Go's zero instant. *)
Definition Time : Type := Z.

(** [t.Sub(u)] saturates at the ends of [Duration]. *)
Definition Time_Sub (t u : Time) : Duration :=
  Z.max minInt64 (Z.min maxInt64 (t - u)).

End GoLang.
Import GoLang.

(* ===================================================================== *)
(** ** Kubernetes objects *)
(* ===================================================================== *)

Module K8s.

(** [v1.PodPhase]. *)
Inductive PodPhase : Type :=
| PodPending | PodRunning | PodSucceeded | PodFailed | PodUnknown
| PodPhaseOther (s : string).

Definition PodPhase_eqb (a b : PodPhase) : bool :=
  match a, b with
  | PodPending, PodPending | PodRunning, PodRunning
  | PodSucceeded, PodSucceeded | PodFailed, PodFailed
  | PodUnknown, PodUnknown => true
  | PodPhaseOther s, PodPhaseOther t => String.eqb s t
  | _, _ => false
  end.

(** [v1.PodCondition]; [v1.PodReady] and [v1.ConditionTrue]. *)
Record PodCondition : Type := {
  Type_ : string;
  Status : string;
  Message : string
}.
Definition PodReady : string := "Ready".
Definition ConditionTrue : string := "True".

(** A container with [Resources.Limits], a [v1.ResourceList]: resource name
    to quantity. *)
Record Container : Type := {
  Limits : GoMap Z
}.

(** [types.NamespacedName]. *)
Record NamespacedName : Type := {
  nnNamespace : string;
  nnName : string
}.

(** The fields of [v1.Pod] that the controller reads or writes. *)
Record Pod : Type := {
  Name : string;
  Namespace : string;
  UID : string;
  Finalizers : list string;
  DeletionTimestamp : option Time;
  SchedulingGates : list string;       (* the gates' names *)
  NodeSelector : GoMap string;
  Containers : list Container;
  Phase : PodPhase;
  Conditions : list PodCondition
}.

(** [&v1.Pod{}]. *)
Definition zeroPod : Pod := {|
  Name := ""; Namespace := ""; UID := ""; Finalizers := [];
  DeletionTimestamp := None; SchedulingGates := []; NodeSelector := [];
  Containers := []; Phase := PodPhaseOther ""; Conditions := []
|}.

Definition setFinalizers (p : Pod) (f : list string) : Pod := {|
  Name := Name p; Namespace := Namespace p; UID := UID p; Finalizers := f;
  DeletionTimestamp := DeletionTimestamp p;
  SchedulingGates := SchedulingGates p; NodeSelector := NodeSelector p;
  Containers := Containers p; Phase := Phase p; Conditions := Conditions p
|}.

Definition setSchedulingGates (p : Pod) (g : list string) : Pod := {|
  Name := Name p; Namespace := Namespace p; UID := UID p;
  Finalizers := Finalizers p; DeletionTimestamp := DeletionTimestamp p;
  SchedulingGates := g; NodeSelector := NodeSelector p;
  Containers := Containers p; Phase := Phase p; Conditions := Conditions p
|}.

Definition setNodeSelector (p : Pod) (s : GoMap string) : Pod := {|
  Name := Name p; Namespace := Namespace p; UID := UID p;
  Finalizers := Finalizers p; DeletionTimestamp := DeletionTimestamp p;
  SchedulingGates := SchedulingGates p; NodeSelector := s;
  Containers := Containers p; Phase := Phase p; Conditions := Conditions p
|}.

(** [IsZero] of a [metav1.Time] pointer: true on nil and on the zero
    instant. *)
Definition Time_IsZero (t : option Time) : bool :=
  match t with
  | None => true
  | Some t => t =? 0
  end.

(** [controllerutil.ContainsFinalizer]. *)
Definition ContainsFinalizer (p : Pod) (finalizer : string) : bool :=
  existsb (String.eqb finalizer) (Finalizers p).

(** [controllerutil.RemoveFinalizer]: drops every occurrence and tells
    whether the list became shorter. *)
Definition RemoveFinalizer (p : Pod) (finalizer : string) : Pod * bool :=
  let f := filter (fun x => negb (String.eqb x finalizer)) (Finalizers p) in
  (setFinalizers p f, negb (length f =? length (Finalizers p))%nat).

(** [ctrl.Result]. *)
Record Result : Type := {
  Requeue : bool;
  RequeueAfter : Duration
}.

(** [ctrl.Result{}], [ctrl.Result{Requeue: true}] and
    [ctrl.Result{RequeueAfter: d}]. *)
Definition done : Result := {| Requeue := false; RequeueAfter := 0 |}.
Definition retryNow : Result := {| Requeue := true; RequeueAfter := 0 |}.
Definition retryAfter (d : Duration) : Result :=
  {| Requeue := false; RequeueAfter := d |}.

(** Go [error] values that the controller sees. *)
Inductive error : Type :=
| ErrNotFound                 (* errors.IsNotFound holds *)
| ErrApi                      (* any other failure of an API call *)
| Errorf (msg : string).      (* fmt.Errorf *)

End K8s.
Import K8s.

(* ===================================================================== *)
(** ** InstaSlice objects ([inferencev1alpha1]) *)
(* ===================================================================== *)

Module Inference.

(** [AllocationStatus] is a string type with five named values; any other
    string, the empty one included, is [AllocationStatusOther]. *)
Inductive AllocationStatus : Type :=
| AllocationStatusCreating
| AllocationStatusCreated
| AllocationStatusUngated
| AllocationStatusDeleting
| AllocationStatusDeleted
| AllocationStatusOther (s : string).

Definition AllocationStatus_eqb (a b : AllocationStatus) : bool :=
  match a, b with
  | AllocationStatusCreating, AllocationStatusCreating
  | AllocationStatusCreated, AllocationStatusCreated
  | AllocationStatusUngated, AllocationStatusUngated
  | AllocationStatusDeleting, AllocationStatusDeleting
  | AllocationStatusDeleted, AllocationStatusDeleted => true
  | AllocationStatusOther s, AllocationStatusOther t => String.eqb s t
  | _, _ => false
  end.

Record AllocationDetails : Type := {
  Profile : string;
  Start : Z;
  Size : Z;
  PodUUID : string;
  GPUUUID : string;
  Nodename : string;
  Allocationstatus : AllocationStatus;
  Resourceidentifier : string;
  AllocNamespace : string;
  PodName : string;
  Cpu : Z;
  Memory : Z
}.

(** [inferencev1alpha1.AllocationDetails{}]. *)
Definition zeroAllocationDetails : AllocationDetails := {|
  Profile := ""; Start := 0; Size := 0; PodUUID := ""; GPUUUID := "";
  Nodename := ""; Allocationstatus := AllocationStatusOther "";
  Resourceidentifier := ""; AllocNamespace := ""; PodName := "";
  Cpu := 0; Memory := 0
|}.

Definition setAllocationstatus (a : AllocationDetails)
    (s : AllocationStatus) : AllocationDetails := {|
  Profile := Profile a; Start := Start a; Size := Size a;
  PodUUID := PodUUID a; GPUUUID := GPUUUID a; Nodename := Nodename a;
  Allocationstatus := s; Resourceidentifier := Resourceidentifier a;
  AllocNamespace := AllocNamespace a; PodName := PodName a;
  Cpu := Cpu a; Memory := Memory a
|}.

Record PreparedDetails : Type := {
  Parent : string;
  PreparedStart : Z;
  PreparedSize : Z;
  PreparedPodUUID : string
}.

(** An [Instaslice] object: its name and namespace and, of its [Spec], the
    allocations and the prepared slices. *)
Record Instaslice : Type := {
  InstasliceName : string;
  InstasliceNamespace : string;
  Allocations : GoMap AllocationDetails;
  Prepared : GoMap PreparedDetails
}.

Definition setAllocations (i : Instaslice)
    (m : GoMap AllocationDetails) : Instaslice := {|
  InstasliceName := InstasliceName i;
  InstasliceNamespace := InstasliceNamespace i;
  Allocations := m;
  Prepared := Prepared i
|}.

(** One placement of a profile and one entry of [Spec.Migplacement]: the
    fields that [extractGpuProfile] reads. *)
Record Placement : Type := {
  PlacementSize : Z;
  PlacementStart : Z
}.

Record Mig : Type := {
  MigProfile : string;
  Giprofileid : Z;
  CIProfileID : Z;
  CIEngProfileID : Z;
  Placements : list Placement
}.

End Inference.
Import Inference.

(* ===================================================================== *)
(** ** The client and the world behind it *)
(* ===================================================================== *)

Module Client.

(** What a pass does to its surroundings: the writes it sends to the API
    server (with their outcome), the queries to the health oracle and the
    calls to the placement search. Reads are not recorded. *)
Inductive Effect : Type :=
| UpdatePod (p : Pod) (ok : bool)
| UpdateInstaslice (i : Instaslice) (ok : bool)
| HealthQuery (pattern namespace : string)
| FindNode (instasliceName profileName : string).

(** The API server's objects, the clock, the random source, and the fate of
    the coming API calls: the n-th call fails with a transient error when
    the n-th entry of [faults] is [true]; calls beyond the list succeed. *)
Record World : Type := {
  pods : list Pod;
  instaslices : list Instaslice;
  clock : Time;
  dice : Z;
  faults : list bool;
  trace : list Effect
}.

Definition setPods (w : World) (l : list Pod) : World := {|
  pods := l; instaslices := instaslices w; clock := clock w;
  dice := dice w; faults := faults w; trace := trace w |}.

Definition setInstaslices (w : World) (l : list Instaslice) : World := {|
  pods := pods w; instaslices := l; clock := clock w;
  dice := dice w; faults := faults w; trace := trace w |}.

Definition setFaults (w : World) (f : list bool) : World := {|
  pods := pods w; instaslices := instaslices w; clock := clock w;
  dice := dice w; faults := f; trace := trace w |}.

Definition record (w : World) (e : Effect) : World := {|
  pods := pods w; instaslices := instaslices w; clock := clock w;
  dice := dice w; faults := faults w; trace := trace w ++ [e] |}.

(** Control flow of a statement inside [Reconcile]: it completes and control
    falls through, or it returns from [Reconcile], or it panics. *)
Inductive Flow (A : Type) : Type :=
| Next (a : A)
| Ret (res : Result) (err : option error)
| Panic (msg : string).
Arguments Next {A} a.
Arguments Ret {A} res err.
Arguments Panic {A} msg.

Definition M (A : Type) : Type := World -> Flow A * World.

Definition ret {A} (a : A) : M A := fun w => (Next a, w).

Definition bind {A B} (c : M A) (k : A -> M B) : M B :=
  fun w =>
    match c w with
    | (Next a, w') => k a w'
    | (Ret res err, w') => (Ret res err, w')
    | (Panic msg, w') => (Panic msg, w')
    end.

(** [return res, err]. *)
Definition Return {A} (res : Result) (err : option error) : M A :=
  fun w => (Ret res err, w).

Definition panic {A} (msg : string) : M A := fun w => (Panic msg, w).

Definition liftGo {A} (g : Go A) : M A :=
  match g with
  | Returns a => ret a
  | Panics msg => panic msg
  end.

Declare Scope go_scope.
Delimit Scope go_scope with go.
Notation "'let*' x ':=' c 'in' k" := (bind c (fun x => k))
  (at level 10, x pattern, c at level 100, k at level 200) : go_scope.
Local Open Scope go_scope.

(** [for _, x := range xs { body }] with the variables that the body
    assigns threaded as [s]. *)
Fixpoint forRange {X S} (xs : list X) (body : X -> S -> M S) (s : S) : M S :=
  match xs with
  | [] => ret s
  | x :: xs' => let* s' := body x s in forRange xs' body s'
  end.

(** The fate of the next API call. *)
Definition nextFault : M bool :=
  fun w =>
    match faults w with
    | [] => (Next false, w)
    | b :: f => (Next b, setFaults w f)
    end.

Definition effect (e : Effect) : M unit := fun w => (Next tt, record w e).

Definition samePod (key : NamespacedName) (p : Pod) : bool :=
  String.eqb (Namespace p) (nnNamespace key) && String.eqb (Name p) (nnName key).

Definition sameInstaslice (key : NamespacedName) (i : Instaslice) : bool :=
  String.eqb (InstasliceNamespace i) (nnNamespace key)
  && String.eqb (InstasliceName i) (nnName key).

Definition keyOfPod (p : Pod) : NamespacedName :=
  {| nnNamespace := Namespace p; nnName := Name p |}.

Definition keyOfInstaslice (i : Instaslice) : NamespacedName :=
  {| nnNamespace := InstasliceNamespace i; nnName := InstasliceName i |}.

(** [r.List(ctx, &instasliceList, &client.ListOptions{})]: every
    [Instaslice] of every namespace. *)
Definition List_Instaslice : M (list Instaslice * option error) :=
  let* failed := nextFault in
  if failed then ret ([], Some ErrApi)
  else fun w => (Next (instaslices w, None), w).

(** [r.List(ctx, podList, client.InNamespace(namespace))]. *)
Definition List_Pods (namespace : string) : M (list Pod * option error) :=
  let* failed := nextFault in
  if failed then ret ([], Some ErrApi)
  else fun w =>
    (Next (filter (fun p => String.eqb (Namespace p) namespace) (pods w), None), w).

(** [r.Get(ctx, key, pod)] into a zero-valued [pod], which an error leaves
    as it is. *)
Definition Get_Pod (key : NamespacedName) : M (Pod * option error) :=
  let* failed := nextFault in
  if failed then ret (zeroPod, Some ErrApi)
  else fun w =>
    match find (samePod key) (pods w) with
    | Some p => (Next (p, None), w)
    | None => (Next (zeroPod, Some ErrNotFound), w)
    end.

Definition zeroInstaslice : Instaslice := {|
  InstasliceName := ""; InstasliceNamespace := "";
  Allocations := []; Prepared := [] |}.

(** [r.Get(ctx, key, &updateInstasliceObject)]. *)
Definition Get_Instaslice (key : NamespacedName)
  : M (Instaslice * option error) :=
  let* failed := nextFault in
  if failed then ret (zeroInstaslice, Some ErrApi)
  else fun w =>
    match find (sameInstaslice key) (instaslices w) with
    | Some i => (Next (i, None), w)
    | None => (Next (zeroInstaslice, Some ErrNotFound), w)
    end.

(** [r.Update(ctx, pod)]: replaces the stored object of the same key; fails
    when the call is fated to fail or no such object is stored. What the
    API server does with an object after the write, such as removing a pod
    whose deletion is requested once its last finalizer is gone, is outside
    the controller's code and is not modelled. *)
Definition Update_Pod (p : Pod) : M (option error) :=
  let* failed := nextFault in
  if failed then
    let* _ := effect (UpdatePod p false) in ret (Some ErrApi)
  else fun w =>
    if existsb (samePod (keyOfPod p)) (pods w) then
      (Next None,
       record
         (setPods w (map (fun q => if samePod (keyOfPod p) q then p else q)
                         (pods w)))
         (UpdatePod p true))
    else (Next (Some ErrNotFound), record w (UpdatePod p false)).

(** [r.Update(ctx, &updateInstasliceObject)]. *)
Definition Update_Instaslice (i : Instaslice) : M (option error) :=
  let* failed := nextFault in
  if failed then
    let* _ := effect (UpdateInstaslice i false) in ret (Some ErrApi)
  else fun w =>
    if existsb (sameInstaslice (keyOfInstaslice i)) (instaslices w) then
      (Next None,
       record
         (setInstaslices w
            (map (fun j => if sameInstaslice (keyOfInstaslice i) j then i else j)
                 (instaslices w)))
         (UpdateInstaslice i true))
    else (Next (Some ErrNotFound), record w (UpdateInstaslice i false)).

(** [time.Since(t)]. *)
Definition Since (t : Time) : M Duration :=
  fun w => (Next (Time_Sub (clock w) t), w).

(** [rand.Intn(n)] for a positive [n]. *)
Definition Intn (n : Z) : M Z := fun w => (Next (dice w mod n), w).

(** [m[k] = v] on the map of a freshly fetched object: a map without
    entries is nil there, and assigning into it panics. *)
Definition assignEntry {V} (m : GoMap V) (k : string) (v : V) : Go (GoMap V) :=
  match m with
  | [] => Panics "assignment to entry in nil map"
  | _ => Returns (map_set m k v)
  end.

End Client.
Import Client.
Local Open Scope go_scope.

(* ===================================================================== *)
(** ** The controller *)
(* ===================================================================== *)

Section Controller.

(** Constants of the package that are declared outside this file. *)
Variable gateName : string.
Variable finalizerName : string.
Variable NodeLabel : string.
Variable instaSliceOperatorNamespace : string.

(** [r.findNodeAndDeviceForASlice(ctx, &instaslice, profileName, policy,
    pod)], the placement search, is declared outside this file as well: it
    yields the allocation it found, or [None] for a non-nil error. *)
Variable findNodeAndDeviceForASlice :
  Instaslice -> string -> Pod -> option AllocationDetails.

(** *** Small functions *)

Definition isDigit (c : ascii) : bool :=
  ((48 <=? nat_of_ascii c) && (nat_of_ascii c <=? 57))%nat.

(** The longest run of digits at the head of [s], and what follows it. *)
Fixpoint spanDigits (s : string) : string * string :=
  match s with
  | String c s' =>
      if isDigit c then
        let (d, r) := spanDigits s' in (String c d, r)
      else (EmptyString, s)
  | EmptyString => (EmptyString, EmptyString)
  end.

(** A match of [\d+g\.\d+gb] that starts at the head of [s]. After a run of
    digits the pattern asks for a letter, so only the longest run can
    match. *)
Definition matchProfileHere (s : string) : option string :=
  match spanDigits s with
  | (EmptyString, _) => None
  | (d1, String "g" (String "." r1)) =>
      match spanDigits r1 with
      | (EmptyString, _) => None
      | (d2, String "g" (String "b" _)) => Some (d1 ++ "g." ++ d2 ++ "gb")
      | _ => None
      end
  | _ => None
  end.

(** [re.FindStringSubmatch(s)[1]] for [(\d+g\.\d+gb)]: the leftmost
    match. *)
Fixpoint findProfile (s : string) : option string :=
  match matchProfileHere s with
  | Some m => Some m
  | None =>
      match s with
      | EmptyString => None
      | String _ s' => findProfile s'
      end
  end.

(** Extract profile name from the container limits spec. *)
Definition extractProfileName (limits : GoMap Z) : string :=
  fold_left
    (fun profileName kv =>
       if Contains (fst kv) "mig-" then
         match findProfile (fst kv) with
         | Some m => m
         | None => profileName
         end
       else profileName)
    limits "".

(** [checkIfPodGatedByInstaSlice]. [&&] evaluates [Conditions[0]] only for a
    pending pod; the index panics on an empty list. *)
Fixpoint checkGates (pod : Pod) (gates : list string) : Go bool :=
  match gates with
  | [] => Returns false
  | gate :: gates' =>
      if String.eqb gate gateName then
        if PodPhase_eqb (Phase pod) PodPending then
          match Conditions pod with
          | [] => Panics "index out of range [0] with length 0"
          | c :: _ =>
              if Contains (Message c) "blocked" then Returns true
              else checkGates pod gates'
          end
        else checkGates pod gates'
      else checkGates pod gates'
  end.

Definition checkIfPodGatedByInstaSlice (pod : Pod) : Go bool :=
  checkGates pod (SchedulingGates pod).

(** [isPodGatedByOthers] looks for scheduling gates distinct from the
    InstaSlice gate. *)
Definition isPodGatedByOthers (pod : Pod) : bool :=
  existsb (fun gate => negb (String.eqb gate gateName)) (SchedulingGates pod).

(** The loop of [unGatePod]. [range] fixes the rounds [idx] and
    reads round [i]'s gate from the backing array [arr], which the
    [append] of an earlier round has shifted in place; [len] is the current
    length of [SchedulingGates]. [s[i+1:]] panics when [i+1] exceeds it. *)
Fixpoint unGateRange (idx : list nat) (arr : list string) (len : nat)
  : Go (list string * nat) :=
  match idx with
  | [] => Returns (arr, len)
  | i :: idx' =>
      if String.eqb (nth i arr "") gateName then
        if (i + 1 <=? len)%nat then
          unGateRange idx'
            (firstn i arr ++ firstn (len - (i + 1)) (skipn (i + 1) arr)
               ++ skipn (len - 1) arr)
            (len - 1)%nat
        else Panics "slice bounds out of range"
      else unGateRange idx' arr len
  end.

Definition unGatePod (podUpdate : Pod) : Go Pod :=
  let gates := SchedulingGates podUpdate in
  match unGateRange (seq 0 (length gates)) gates (length gates) with
  | Returns (arr, len) => Returns (setSchedulingGates podUpdate (firstn len arr))
  | Panics msg => Panics msg
  end.

(** Policy based allocation: [LeftToRightPolicy.SetAllocationDetails] and
    [RightToLeftPolicy.SetAllocationDetails]. *)
Definition LeftToRightPolicy_SetAllocationDetails
    (profileName : string) (newStart size : Z) (podUUID nodename : string)
    (processed : string) (discoveredGiprofile Ciprofileid Ciengprofileid : Z)
    (namespace podName gpuUuid : string) : Go AllocationDetails :=
  Returns zeroAllocationDetails.

Definition RightToLeftPolicy_SetAllocationDetails
    (profileName : string) (newStart size : Z) (podUUID nodename : string)
    (processed : string) (discoveredGiprofile Ciprofileid Ciengprofileid : Z)
    (namespace podName gpuUuid : string) : Go AllocationDetails :=
  Returns zeroAllocationDetails.

(** *** Helpers that call the API server *)

Definition defaultKey (instasliceName : string) : NamespacedName :=
  {| nnNamespace := "default"; nnName := instasliceName |}.

Definition operatorKey (instasliceName : string) : NamespacedName :=
  {| nnNamespace := instaSliceOperatorNamespace; nnName := instasliceName |}.

Definition deleteInstasliceAllocation (instasliceName : string)
    (allocation : AllocationDetails) : M (Result * option error) :=
  let* (updateInstasliceObject, err) :=
    Get_Instaslice (defaultKey instasliceName) in
  match err with
  | Some e => ret (retryAfter (2 * Second), Some e)
  | None =>
      let* errUpdatingAllocation :=
        Update_Instaslice
          (setAllocations updateInstasliceObject
             (map_delete (Allocations updateInstasliceObject)
                (PodUUID allocation))) in
      match errUpdatingAllocation with
      | Some e => ret (retryNow, Some e)
      | None => ret (done, None)
      end
  end.

Definition removeInstaSliceFinalizer (req : NamespacedName)
  : M (Result * option error) :=
  let* (latestPod, errGettingPod) := Get_Pod req in
  match errGettingPod with
  | Some e => ret (retryNow, Some e)
  | None =>
      let* err := Update_Pod (fst (RemoveFinalizer latestPod finalizerName)) in
      match err with
      | Some e => ret (retryNow, Some e)
      | None => ret (done, None)
      end
  end.

Definition removeInstasliceAllocation (instasliceName : string)
    (allocation : AllocationDetails) : M (Result * option error) :=
  if AllocationStatus_eqb (Allocationstatus allocation) AllocationStatusDeleted
  then
    let* (deleteResult, errDeletingAllocation) :=
      deleteInstasliceAllocation instasliceName allocation in
    match errDeletingAllocation with
    | Some e => ret (deleteResult, Some e)
    | None => ret (done, None)
    end
  else ret (done, None).

Definition setInstasliceAllocationToDeleting (instasliceName podUUID : string)
    (allocation : AllocationDetails) : M (Result * option error) :=
  let allocation := setAllocationstatus allocation AllocationStatusDeleting in
  let* (updateInstasliceObject, errRetrievingInstaSlice) :=
    Get_Instaslice (operatorKey instasliceName) in
  match errRetrievingInstaSlice with
  | Some e => ret (retryNow, Some e)
  | None =>
      let* m :=
        liftGo (assignEntry (Allocations updateInstasliceObject) podUUID
                  allocation) in
      let* errUpdatingInstaslice :=
        Update_Instaslice (setAllocations updateInstasliceObject m) in
      match errUpdatingInstaslice with
      | Some e => ret (retryNow, Some e)
      | None => ret (done, None)
      end
  end.

(** The first pod whose name starts with [pattern] decides. *)
Fixpoint patternPodHealthy (pattern : string) (items : list Pod) : bool :=
  match items with
  | [] => false
  | pod :: items' =>
      if HasPrefix (Name pod) pattern then
        if negb (PodPhase_eqb (Phase pod) PodRunning) then false
        else
          negb (existsb
                  (fun condition =>
                     String.eqb (Type_ condition) PodReady
                     && negb (String.eqb (Status condition) ConditionTrue))
                  (Conditions pod))
      else patternPodHealthy pattern items'
  end.

Definition isPatternPodRunningAndHealthy (pattern namespace : string)
  : M (bool * option error) :=
  let* _ := effect (HealthQuery pattern namespace) in
  let* (podList, err) := List_Pods namespace in
  match err with
  | Some e => ret (false, Some e)
  | None => ret (patternPodHealthy pattern podList, None)
  end.

(** *** Reconcile, branch by branch *)

(** The pod is gone: the request's pod was not found, [pod] is still the
    zero value that [Get] was given. *)
Definition reconcileNotFound (items : list Instaslice) (pod : Pod)
  : M Empty_set :=
  let* _ :=
    forRange items (fun instaslice _ =>
      forRange (Allocations instaslice) (fun entry _ =>
        let allocation := snd entry in
        if String.eqb (PodName allocation) (Name pod) then
          let* (result, err) :=
            deleteInstasliceAllocation (InstasliceName instaslice) allocation in
          match err with
          | Some e => Return result (Some e)
          | None => ret tt
          end
        else ret tt) tt) tt in
  Return done None.

(** Add finalizer to the pod gated by InstaSlice. *)
Definition addFinalizer (pod : Pod) : M Pod :=
  let pod := setFinalizers pod (Finalizers pod ++ [finalizerName]) in
  let* errAddingFinalizer := Update_Pod pod in
  match errAddingFinalizer with
  | Some _ => Return retryNow None
  | None => ret pod
  end.

(** The end of the two terminal-phase branches: pod can be terminated
    without any allocation. *)
Definition releaseFinalizer (allocationNotFound : bool) (pod : Pod)
  : M Empty_set :=
  if allocationNotFound && snd (RemoveFinalizer pod finalizerName) then
    let* err := Update_Pod (fst (RemoveFinalizer pod finalizerName)) in
    match err with
    | Some _ => Return retryNow None
    | None => Return done None
    end
  else Return done None.

(** [pod.Status.Phase == v1.PodFailed]: one allocation of the scan; the
    variable threaded is [allocationNotFound]. *)
Definition failedAllocation (pod : Pod) (instaslice : Instaslice)
    (entry : string * AllocationDetails) (allocationNotFound : bool) : M bool :=
  let allocation := snd entry in
  if String.eqb (UID pod) (PodUUID allocation) then
    if AllocationStatus_eqb (Allocationstatus allocation)
         AllocationStatusCreating
    then Return (retryAfter (2 * Second)) None
    else if AllocationStatus_eqb (Allocationstatus allocation)
              AllocationStatusCreated
            || AllocationStatus_eqb (Allocationstatus allocation)
                 AllocationStatusUngated
    then
      let* (resultDeleting, errInDeleting) :=
        setInstasliceAllocationToDeleting (InstasliceName instaslice)
          (UID pod) allocation in
      match errInDeleting with
      | Some _ => Return resultDeleting None
      | None => Return done None
      end
    else if AllocationStatus_eqb (Allocationstatus allocation)
              AllocationStatusDeleted
    then
      let* (resultRemove, errInRemove) :=
        removeInstasliceAllocation (InstasliceName instaslice) allocation in
      match errInRemove with
      | Some _ => Return resultRemove None
      | None => Return (retryAfter (2 * Second)) None
      end
    else ret false
  else ret allocationNotFound.

Definition reconcileFailed (items : list Instaslice) (pod : Pod)
  : M Empty_set :=
  let* allocationNotFound :=
    forRange items (fun instaslice =>
      forRange (Allocations instaslice) (failedAllocation pod instaslice))
      true in
  releaseFinalizer allocationNotFound pod.

(** [pod.Status.Phase == v1.PodSucceeded]: pod is completed, move
    allocation to deleting state and return. *)
Definition succeededAllocation (pod : Pod) (instaslice : Instaslice)
    (entry : string * AllocationDetails) (allocationNotFound : bool) : M bool :=
  let allocation := snd entry in
  if String.eqb (PodUUID allocation) (UID pod) then
    if negb (AllocationStatus_eqb (Allocationstatus allocation)
               AllocationStatusDeleted)
    then
      let* (result, err) :=
        setInstasliceAllocationToDeleting (InstasliceName instaslice)
          (UID pod) allocation in
      match err with
      | Some e => Return result (Some e)
      | None => Return done None
      end
    else
      let* (result, err) :=
        removeInstasliceAllocation (InstasliceName instaslice) allocation in
      match err with
      | Some _ => Return result None
      | None => Return (retryAfter (2 * Second)) None
      end
  else ret allocationNotFound.

Definition reconcileSucceeded (items : list Instaslice) (pod : Pod)
  : M Empty_set :=
  let* allocationNotFound :=
    forRange items (fun instaslice =>
      forRange (Allocations instaslice) (succeededAllocation pod instaslice))
      true in
  releaseFinalizer allocationNotFound pod.

(** Handle deleted pod that never gets ungated: one allocation of the scan;
    the variable threaded is the pod, which [RemoveFinalizer] changes. *)
Definition deletedGatedAllocation (instaslice : Instaslice)
    (entry : string * AllocationDetails) (pod : Pod) : M Pod :=
  let podUuid := fst entry in
  let* allocation :=
    if String.eqb podUuid (UID pod)
       && AllocationStatus_eqb (Allocationstatus (snd entry))
            AllocationStatusCreated
    then
      let allocation :=
        setAllocationstatus (snd entry) AllocationStatusDeleting in
      let* (updateInstasliceObject, err) :=
        Get_Instaslice (operatorKey (InstasliceName instaslice)) in
      match err with
      | Some _ => Return (retryAfter (1 * Second)) None
      | None =>
          let* m :=
            liftGo (assignEntry (Allocations updateInstasliceObject) podUuid
                      allocation) in
          let* errUpdatingInstaslice :=
            Update_Instaslice (setAllocations updateInstasliceObject m) in
          match errUpdatingInstaslice with
          | Some _ => Return (retryAfter (1 * Second)) None
          | None => ret allocation
          end
      end
    else ret (snd entry) in
  if String.eqb podUuid (UID pod)
     && AllocationStatus_eqb (Allocationstatus allocation)
          AllocationStatusDeleted
  then
    let* (result, err) :=
      removeInstasliceAllocation (InstasliceName instaslice) allocation in
    match err with
    | Some _ => Return result None
    | None =>
        if snd (RemoveFinalizer pod finalizerName) then
          let* err := Update_Pod (fst (RemoveFinalizer pod finalizerName)) in
          match err with
          | Some _ => Return retryNow None
          | None => ret (fst (RemoveFinalizer pod finalizerName))
          end
        else ret (fst (RemoveFinalizer pod finalizerName))
    end
  else ret pod.

Definition reconcileDeletedGated (items : list Instaslice) (pod : Pod)
  : M Empty_set :=
  let* _ :=
    forRange items (fun instaslice =>
      forRange (Allocations instaslice) (deletedGatedAllocation instaslice))
      pod in
  Return done None.

(** Handle graceful termination of pods, wait for about 30 seconds from the
    time the deletion timestamp is set on the pod: one allocation of the
    scan. *)
Definition deletedRunningAllocation (req : NamespacedName) (pod : Pod)
    (instaslice : Instaslice) (entry : string * AllocationDetails) (_ : unit)
  : M unit :=
  let podUuid := fst entry in
  let allocation := snd entry in
  if String.eqb podUuid (UID pod) then
    let* _ :=
      if AllocationStatus_eqb (Allocationstatus allocation)
           AllocationStatusDeleted
      then
        let* (resultDelete, errDeletingAllocation) :=
          deleteInstasliceAllocation (InstasliceName instaslice) allocation in
        match errDeletingAllocation with
        | Some e => Return resultDelete (Some e)
        | None =>
            (* the result of removing the finalizer is tested against
               errDeletingAllocation, which is nil here *)
            let* _ := removeInstaSliceFinalizer req in
            ret tt
        end
      else ret tt in
    match DeletionTimestamp pod with
    | None => panic "nil pointer dereference"
    | Some deletionTimestamp =>
        let* elapsed := Since deletionTimestamp in
        if 30 * Second <? elapsed then
          let allocation :=
            setAllocationstatus allocation AllocationStatusDeleting in
          let* (updateInstasliceObject, err) :=
            Get_Instaslice (operatorKey (InstasliceName instaslice)) in
          match err with
          | Some _ => Return retryNow None
          | None =>
              let* m :=
                liftGo (assignEntry (Allocations updateInstasliceObject)
                          podUuid allocation) in
              let* errUpdatingInstaslice :=
                Update_Instaslice (setAllocations updateInstasliceObject m) in
              match errUpdatingInstaslice with
              | Some _ => Return (retryAfter (1 * Second)) None
              | None => ret tt
              end
          end
        else
          let remainingTime := wrap64 (30 * Second - elapsed) in
          Return (retryAfter remainingTime) None
    end
  else ret tt.

Definition reconcileDeletedRunning (req : NamespacedName)
    (items : list Instaslice) (pod : Pod) : M Empty_set :=
  let* _ :=
    if ContainsFinalizer pod finalizerName then
      forRange items (fun instaslice =>
        forRange (Allocations instaslice)
          (deletedRunningAllocation req pod instaslice)) tt
    else ret tt in
  (* exit after handling deletion event for a pod. *)
  Return done None.

(** Add nodeSelector to the pod, ungate it and send it; the same statements
    stand in the [Created] and in the [Ungated] case. *)
Definition ungate (pod : Pod) (allocations : AllocationDetails) : M Pod :=
  let pod :=
    setNodeSelector pod
      (map_set (NodeSelector pod) NodeLabel (Nodename allocations)) in
  let* pod := liftGo (unGatePod pod) in
  let* errForUngating := Update_Pod pod in
  match errForUngating with
  | Some _ => Return retryNow None
  | None => ret pod
  end.

(** One allocation of the scan that moves a gated pod forward; the
    variables threaded are [gpuOperatorPodOk] and the pod. The assignment
    [instaslice.Spec.Allocations[podUuid] = allocations] into the listed
    object is left out: [range] has handed out that entry already, and the
    list is read again only when no allocation carries the pod's UID. *)
Definition progressAllocation (instaslice : Instaslice)
    (entry : string * AllocationDetails) (st : bool * Pod) : M (bool * Pod) :=
  let podUuid := fst entry in
  let* st' :=
    (let '(gpuOperatorPodOk, pod) := st in
     let allocations := snd entry in
     if AllocationStatus_eqb (Allocationstatus allocations)
          AllocationStatusCreated
        && String.eqb (PodUUID allocations) (UID pod)
     then
       let* (gpuOperatorPodOk, err) :=
         isPatternPodRunningAndHealthy "nvidia-device-plugin-daemonset"
           "gpu-operator" in
       match err with
       | Some _ => Return (retryAfter (2 * Second)) None
       | None =>
           let* (updateInstasliceObject, errRetrievingInstaSlice) :=
             Get_Instaslice (defaultKey (InstasliceName instaslice)) in
           match errRetrievingInstaSlice with
           | Some _ => Return retryNow None
           | None =>
               let allocations :=
                 setAllocationstatus allocations AllocationStatusUngated in
               let* err :=
                 Update_Instaslice
                   (setAllocations updateInstasliceObject
                      (map_set (Allocations updateInstasliceObject) podUuid
                         allocations)) in
               match err with
               | Some _ => Return retryNow None
               | None =>
                   if gpuOperatorPodOk then
                     let* pod := ungate pod allocations in
                     ret (gpuOperatorPodOk, pod, allocations)
                   else Return (retryAfter (2 * Second)) None
               end
           end
       end
     else ret (gpuOperatorPodOk, pod, allocations)) in
  (* InstaSlice object got updated with ungated status but the controller
     failed ungating the pod. *)
  let '(gpuOperatorPodOk, pod, allocations) := st' in
  if AllocationStatus_eqb (Allocationstatus allocations)
       AllocationStatusUngated
     && String.eqb (PodUUID allocations) (UID pod)
  then
    if gpuOperatorPodOk then
      let* pod := ungate pod allocations in
      ret (gpuOperatorPodOk, pod)
    else Return (retryAfter (2 * Second)) None
  else ret (gpuOperatorPodOk, pod).

(** Pod does not have an allocation yet: one [Instaslice] of the search;
    the variable threaded is [podHasNodeAllocation]. *)
Definition allocateOn (profileName : string) (pod : Pod)
    (instaslice : Instaslice) (podHasNodeAllocation : bool) : M bool :=
  let* _ := effect (FindNode (InstasliceName instaslice) profileName) in
  match findNodeAndDeviceForASlice instaslice profileName pod with
  | None => ret podHasNodeAllocation
  | Some allocDetails =>
      let* _ :=
        forRange (Prepared instaslice) (fun item _ =>
          if String.eqb (Parent (snd item)) (GPUUUID allocDetails)
             && (PreparedSize (snd item) =? Size allocDetails)
             && (PreparedStart (snd item) =? Start allocDetails)
          then Return (retryAfter (1 * Second)) None
          else ret tt) tt in
      let* (updateInstasliceObject, err) :=
        Get_Instaslice (defaultKey (InstasliceName instaslice)) in
      match err with
      | Some _ => Return retryNow None
      | None =>
          let* err :=
            Update_Instaslice
              (setAllocations updateInstasliceObject
                 (map_set (Allocations updateInstasliceObject) (UID pod)
                    allocDetails)) in
          match err with
          | Some _ => Return retryNow None
          | None => Return done None (* allocation was successful *)
          end
      end
  end.

(** [if isPodGated { ... }]: find allocation in the cluster for the pod. *)
Definition reconcileGated (items : list Instaslice) (pod : Pod) : M unit :=
  (* Assume pod only has one container with one GPU requests *)
  match Containers pod with
  | [container] =>
      let limits := Limits container in
      let profileName := extractProfileName limits in
      let podHasNodeAllocation :=
        existsb (fun instaslice =>
          existsb (fun entry => String.eqb (PodUUID (snd entry)) (UID pod))
            (Allocations instaslice)) items in
      let* st :=
        forRange items (fun instaslice =>
          forRange (Allocations instaslice) (progressAllocation instaslice))
          (false, pod) in
      let pod := snd st in
      let* podHasNodeAllocation :=
        if negb podHasNodeAllocation then
          forRange items (allocateOn profileName pod) podHasNodeAllocation
        else ret podHasNodeAllocation in
      (* if the cluster does not have suitable node, requeue request *)
      if negb podHasNodeAllocation then
        let* n := Intn 10 in
        Return (retryAfter ((n + 1) * Second)) None
      else ret tt
  | _ => Return done (Some (Errorf "multiple containers per pod not supported"))
  end.

(** The branches that follow the finalizer step. *)
Definition reconcileBranches (req : NamespacedName) (items : list Instaslice)
    (isPodGated : bool) (pod : Pod) : M Empty_set :=
  if PodPhase_eqb (Phase pod) PodFailed
     && ContainsFinalizer pod finalizerName
  then reconcileFailed items pod
  else if PodPhase_eqb (Phase pod) PodSucceeded
          && ContainsFinalizer pod finalizerName
  then reconcileSucceeded items pod
  else if negb (Time_IsZero (DeletionTimestamp pod)) && isPodGated
  then reconcileDeletedGated items pod
  else if negb (Time_IsZero (DeletionTimestamp pod))
  then reconcileDeletedRunning req items pod
  else
    let* _ := if isPodGated then reconcileGated items pod else ret tt in
    Return done None.

Definition reconcileFound (req : NamespacedName) (items : list Instaslice)
    (pod : Pod) : M Empty_set :=
  (* Pods with scheduling gates other than the InstaSlice gate are not ready
     to be scheduled and should be ignored *)
  if isPodGatedByOthers pod then Return done None
  else
    let* isPodGated := liftGo (checkIfPodGatedByInstaSlice pod) in
    if negb isPodGated && negb (ContainsFinalizer pod finalizerName)
    then Return done None
    else
      let* pod :=
        if isPodGated && negb (ContainsFinalizer pod finalizerName)
        then addFinalizer pod
        else ret pod in
      reconcileBranches req items isPodGated pod.

Definition Reconcile (req : NamespacedName) : M Empty_set :=
  (* a failed List is logged; the list stays empty *)
  let* (instasliceList, _) := List_Instaslice in
  let* (pod, err) := Get_Pod req in
  match err with
  | Some ErrNotFound => reconcileNotFound instasliceList pod
  | Some _ => Return done None
  | None => reconcileFound req instasliceList pod
  end.

(** *** Functions beside Reconcile *)

(** [extractGpuProfile]: extract NVML specific attributes for GPUs. The
    [Instaslice] record above keeps the fields that [Reconcile] reads, so
    the function takes [instaslice.Spec.Migplacement] itself. [break] leaves
    the loop over the placements only: the scan of the items goes on, and a
    later item of the same profile assigns the four variables again. *)
Definition extractGpuProfile (migplacement : list Mig) (profileName : string)
  : Z * Z * Z * Z :=
  fold_left
    (fun vars item =>
       if String.eqb (MigProfile item) profileName then
         match Placements item with
         | aPlacement :: _ =>
             (PlacementSize aPlacement, Giprofileid item, CIProfileID item,
              CIEngProfileID item)
         | [] => vars
         end
       else vars)
    migplacement (0, 0, 0, 0).

(** [podMapFunc] maps pods to instaslice created allocations: the requests
    that an event on [instaslice] enqueues. *)
Definition podMapFunc (instaslice : Instaslice) : list NamespacedName :=
  fold_left
    (fun requests entry =>
       let allocation := snd entry in
       if AllocationStatus_eqb (Allocationstatus allocation)
            AllocationStatusCreated
          || AllocationStatus_eqb (Allocationstatus allocation)
               AllocationStatusDeleted
       then
         (requests
            ++ [{| nnNamespace := AllocNamespace allocation;
                   nnName := PodName allocation |}])%list
       else requests)
    (Allocations instaslice) [].

End Controller.

(* ===================================================================== *)
(** ** Vocabulary of the statements *)
(* ===================================================================== *)

(** No mutation: the objects and the trace are as they were, so the pass
    has sent no write, asked no oracle and searched no placement. Only the
    list of coming faults may be shorter. *)
Definition quiet (w w' : World) : Prop :=
  pods w' = pods w /\ instaslices w' = instaslices w
  /\ clock w' = clock w /\ dice w' = dice w /\ trace w' = trace w.

(** The effects that concern the inventory: a write of an [Instaslice] and
    a placement search. *)
Definition inventoryEffect (e : Effect) : bool :=
  match e with
  | UpdateInstaslice _ _ | FindNode _ _ => true
  | UpdatePod _ _ | HealthQuery _ _ => false
  end.

(** Every character of [s] is a decimal digit; no character is. *)
Fixpoint allDigits (s : string) : bool :=
  match s with
  | EmptyString => true
  | String c s' => isDigit c && allDigits s'
  end.

Fixpoint noDigit (s : string) : bool :=
  match s with
  | EmptyString => true
  | String c s' => negb (isDigit c) && noDigit s'
  end.

(** The pod that decides the health oracle's answer is fit: running, and
    every [Ready] condition it reports is [True]. *)
Definition fitPod (p : Pod) : Prop :=
  Phase p = PodRunning
  /\ forall c, In c (Conditions p) -> Type_ c = PodReady ->
                Status c = ConditionTrue.

(** The allocations that make [podMapFunc] enqueue their pod. *)
Definition wakesPod (a : AllocationDetails) : Prop :=
  Allocationstatus a = AllocationStatusCreated
  \/ Allocationstatus a = AllocationStatusDeleted.

(** The world after the placement search was called on [items], one after
    the other, each call recorded. *)
Definition searched (profileName : string) (items : list Instaslice)
    (w : World) : World :=
  fold_left
    (fun v instaslice =>
       record v (FindNode (InstasliceName instaslice) profileName))
    items w.

(* ===================================================================== *)
(** ** A concrete cluster *)
(* ===================================================================== *)

(** One node [node-1], one workload [default/w1] with UID [u1], and the
    device plugin's pod. The package constants get concrete values here;
    every general theorem below holds for all values. *)
Module Scenario.

Definition gate : string := "org.instaslice/accelarator".
Definition finalizer : string := "org.instaslice/accelarator".
Definition nodeLabel : string := "kubernetes.io/hostname".
Definition operatorNamespace : string := "default".

(** A placement search that finds nothing. *)
Definition noCapacity (_ : Instaslice) (_ : string) (_ : Pod)
  : option AllocationDetails := None.

Definition blocked : PodCondition := {|
  Type_ := "PodScheduled"; Status := "False";
  Message := "Scheduling is blocked due to non-empty scheduling gates" |}.

Definition oneUnit : Container :=
  {| Limits := [("nvidia.com/mig-1g.5gb", 1)] |}.

(** Two units of the profile, asked for in one container. *)
Definition twoUnits : Container :=
  {| Limits := [("nvidia.com/mig-1g.5gb", 2)] |}.

Definition workload (finalizers gates : list string) (phase : PodPhase)
    (deleted : option Time) (containers : list Container) : Pod := {|
  Name := "w1"; Namespace := "default"; UID := "u1";
  Finalizers := finalizers; DeletionTimestamp := deleted;
  SchedulingGates := gates; NodeSelector := [];
  Containers := containers; Phase := phase;
  Conditions := match gates with [] => [] | _ => [blocked] end |}.

(** The workload while it is gated. *)
Definition gatedPod : Pod :=
  workload [finalizer] [gate] PodPending None [oneUnit].

(** A pending pod that carries the gate and has no status condition yet. *)
Definition unconditionedPod : Pod := {|
  Name := "w1"; Namespace := "default"; UID := "u1";
  Finalizers := []; DeletionTimestamp := None;
  SchedulingGates := [gate]; NodeSelector := [];
  Containers := [oneUnit]; Phase := PodPending; Conditions := [] |}.

(** The workload once it runs on [node-1]. *)
Definition runningPod (deleted : option Time) : Pod :=
  setNodeSelector (workload [finalizer] [] PodRunning deleted [oneUnit])
    [(nodeLabel, "node-1")].

Definition allocation (status : AllocationStatus) : AllocationDetails := {|
  Profile := "1g.5gb"; Start := 0; Size := 1; PodUUID := "u1";
  GPUUUID := "GPU-1"; Nodename := "node-1"; Allocationstatus := status;
  Resourceidentifier := "r1"; AllocNamespace := "default"; PodName := "w1";
  Cpu := 100; Memory := 64 |}.

(** A placement search that offers the first slice of [GPU-1] to a request
    for [1g.5gb]. *)
Definition firstSlice (_ : Instaslice) (profileName : string) (_ : Pod)
  : option AllocationDetails :=
  if String.eqb profileName "1g.5gb"
  then Some (allocation AllocationStatusCreating)
  else None.

Definition node (allocations : GoMap AllocationDetails) : Instaslice := {|
  InstasliceName := "node-1"; InstasliceNamespace := "default";
  Allocations := allocations; Prepared := [] |}.

Definition devicePlugin (phase : PodPhase) : Pod := {|
  Name := "nvidia-device-plugin-daemonset-x7k2p"; Namespace := "gpu-operator";
  UID := "u0"; Finalizers := []; DeletionTimestamp := None;
  SchedulingGates := []; NodeSelector := []; Containers := [];
  Phase := phase; Conditions := [] |}.

Definition cluster (ps : list Pod) (is_ : list Instaslice) (now : Time)
  : World := {|
  pods := ps; instaslices := is_; clock := now; dice := 3;
  faults := []; trace := [] |}.

(** The instant at which the deletion of the workload was requested. *)
Definition deletionRequested : Time := 1000 * Second.

(** The workload after it failed or succeeded. *)
Definition finishedPod (phase : PodPhase) : Pod :=
  workload [finalizer] [] phase None [oneUnit].

(** The gated workload after its deletion was requested. *)
Definition gatedDeletedPod : Pod :=
  workload [finalizer] [gate] PodPending (Some deletionRequested) [oneUnit].

(** A pod of no concern to the system, and the workload held back by a
    foreign gate beside the system's, before any status condition. *)
Definition strangerPod : Pod := workload [] [] PodRunning None [oneUnit].

Definition heldBackPod : Pod := {|
  Name := "w1"; Namespace := "default"; UID := "u1";
  Finalizers := []; DeletionTimestamp := None;
  SchedulingGates := [gate; "example.com/quota"]; NodeSelector := [];
  Containers := [oneUnit]; Phase := PodPending; Conditions := [] |}.

(** The allocation of another workload on the same node. *)
Definition neighbour : AllocationDetails := {|
  Profile := "1g.5gb"; Start := 1; Size := 1; PodUUID := "u2";
  GPUUUID := "GPU-1"; Nodename := "node-1";
  Allocationstatus := AllocationStatusUngated;
  Resourceidentifier := "r2"; AllocNamespace := "default"; PodName := "w2";
  Cpu := 100; Memory := 64 |}.

(** [node-1] while the first slice of [GPU-1] is still prepared for a pod
    that is gone. *)
Definition drainingNode : Instaslice := {|
  InstasliceName := "node-1"; InstasliceNamespace := "default";
  Allocations := [];
  Prepared := [("mig-uuid-1",
                {| Parent := "GPU-1"; PreparedStart := 0; PreparedSize := 1;
                   PreparedPodUUID := "u9" |})] |}.

(** A cluster in which the second API call of the pass fails. *)
Definition flaky (ps : list Pod) (is_ : list Instaslice) : World := {|
  pods := ps; instaslices := is_; clock := 0; dice := 3;
  faults := [false; true]; trace := [] |}.

Definition request : NamespacedName :=
  {| nnNamespace := "default"; nnName := "w1" |}.

Definition reconcile
    (find : Instaslice -> string -> Pod -> option AllocationDetails)
  : M Empty_set :=
  Reconcile gate finalizer nodeLabel operatorNamespace find request.

End Scenario.

(* ===================================================================== *)
(** ** Basic facts *)
(* ===================================================================== *)

Lemma PodPhase_eqb_eq (a b : PodPhase) : PodPhase_eqb a b = true <-> a = b.
Proof.
  destruct a, b; simpl; split; intro H; try congruence; try discriminate.
  - apply String.eqb_eq in H. congruence.
  - apply String.eqb_eq. congruence.
Qed.

Lemma PodPhase_eqb_neq (a b : PodPhase) : PodPhase_eqb a b = false <-> a <> b.
Proof.
  rewrite <- PodPhase_eqb_eq. destruct (PodPhase_eqb a b); split; congruence.
Qed.

Lemma AllocationStatus_eqb_eq (a b : AllocationStatus) :
  AllocationStatus_eqb a b = true <-> a = b.
Proof.
  destruct a, b; simpl; split; intro H; try congruence; try discriminate.
  - apply String.eqb_eq in H. congruence.
  - apply String.eqb_eq. congruence.
Qed.

Lemma AllocationStatus_eqb_neq (a b : AllocationStatus) :
  AllocationStatus_eqb a b = false <-> a <> b.
Proof.
  rewrite <- AllocationStatus_eqb_eq.
  destruct (AllocationStatus_eqb a b); split; congruence.
Qed.

Lemma quiet_refl (w : World) : quiet w w.
Proof. repeat split. Qed.

Lemma quiet_trans (a b c : World) : quiet a b -> quiet b c -> quiet a c.
Proof.
  unfold quiet. intros (H1 & H2 & H3 & H4 & H5) (K1 & K2 & K3 & K4 & K5).
  repeat split; congruence.
Qed.

Lemma nextFault_quiet (w : World) :
  exists b, nextFault w = (Next b, snd (nextFault w))
            /\ quiet w (snd (nextFault w)).
Proof.
  unfold nextFault. destruct (faults w) as [|b f]; simpl.
  - exists false. split; [reflexivity | apply quiet_refl].
  - exists b. split; [reflexivity | repeat split].
Qed.

Lemma List_Instaslice_quiet (w : World) :
  exists items err,
    List_Instaslice w = (Next (items, err), snd (List_Instaslice w))
    /\ quiet w (snd (List_Instaslice w))
    /\ (items = [] \/ items = instaslices w).
Proof.
  unfold List_Instaslice, bind.
  destruct (nextFault_quiet w) as (b & Hb & Hq).
  rewrite Hb. destruct b; simpl.
  - exists [], (Some ErrApi). repeat split; try apply Hq. now left.
  - exists (instaslices (snd (nextFault w))), None.
    repeat split; try apply Hq. right. apply Hq.
Qed.

Lemma Get_Pod_quiet (key : NamespacedName) (w : World) :
  exists pod err,
    Get_Pod key w = (Next (pod, err), snd (Get_Pod key w))
    /\ quiet w (snd (Get_Pod key w)).
Proof.
  unfold Get_Pod, bind.
  destruct (nextFault_quiet w) as (b & Hb & Hq).
  rewrite Hb. destruct b; simpl.
  - exists zeroPod, (Some ErrApi). split; [reflexivity | exact Hq].
  - destruct (find (samePod key) (pods (snd (nextFault w)))) as [p|]; simpl.
    + exists p, None. split; [reflexivity | exact Hq].
    + exists zeroPod, (Some ErrNotFound). split; [reflexivity | exact Hq].
Qed.

(* ===================================================================== *)
(** ** checkIfPodGatedByInstaSlice *)
(* ===================================================================== *)

Section Gated.

Variable gateName : string.

Lemma checkGates_true (pod : Pod) (gates : list string) :
  checkGates gateName pod gates = Returns true <->
  In gateName gates /\ Phase pod = PodPending
  /\ exists c rest, Conditions pod = c :: rest
                    /\ Contains (Message c) "blocked" = true.
Proof.
  induction gates as [|g gates IH]; simpl.
  - split; [discriminate | intros ([] & _)].
  - destruct (String.eqb_spec g gateName) as [->|Hg].
    + destruct (PodPhase_eqb (Phase pod) PodPending) eqn:Hph.
      * apply PodPhase_eqb_eq in Hph.
        destruct (Conditions pod) as [|c rest] eqn:Hc.
        -- split; [discriminate|].
           intros (_ & _ & c & rest & Heq & _). discriminate.
        -- destruct (Contains (Message c) "blocked") eqn:Hb.
           ++ split; [|reflexivity]. intros _.
              repeat split; auto. now exists c, rest.
           ++ rewrite IH. split.
              ** intros (Hin & _ & c' & rest' & Heq & Hb').
                 injection Heq as <- <-. congruence.
              ** intros (_ & _ & c' & rest' & Heq & Hb').
                 injection Heq as <- <-. congruence.
      * apply PodPhase_eqb_neq in Hph. rewrite IH.
        split; intros (_ & Hp & _); contradiction.
    + rewrite IH. split; intros (Hin & Hrest); split; auto.
      destruct Hin as [Heq|Hin]; [contradiction | exact Hin].
Qed.

Lemma checkGates_panics (pod : Pod) (gates : list string) :
  (exists msg, checkGates gateName pod gates = Panics msg) <->
  In gateName gates /\ Phase pod = PodPending /\ Conditions pod = [].
Proof.
  induction gates as [|g gates IH]; simpl.
  - split; [intros (msg & H); discriminate | intros ([] & _)].
  - destruct (String.eqb_spec g gateName) as [->|Hg].
    + destruct (PodPhase_eqb (Phase pod) PodPending) eqn:Hph.
      * apply PodPhase_eqb_eq in Hph.
        destruct (Conditions pod) as [|c rest] eqn:Hc.
        -- split; [|intros _; eexists; reflexivity].
           intros _. repeat split; auto.
        -- destruct (Contains (Message c) "blocked") eqn:Hb.
           ++ split; [intros (msg & H); discriminate|].
              intros (_ & _ & H); discriminate.
           ++ rewrite IH. split; intros (_ & _ & H); discriminate.
      * apply PodPhase_eqb_neq in Hph. rewrite IH.
        split; intros (_ & Hp & _); contradiction.
    + rewrite IH. split; intros (Hin & Hrest); split; auto.
      destruct Hin as [Heq|Hin]; [contradiction | exact Hin].
Qed.

End Gated.

(** C10. [checkIfPodGatedByInstaSlice] returns true only for (and for
    every) pod that carries the gate, is pending and whose first status
    condition's message contains "blocked". It panics, reading
    [Conditions[0]] out of bounds, exactly on the pending pods that carry
    the gate and have no status condition; on every other pod, so on every
    such pod with at least one condition, it returns a value. *)
Theorem checkIfPodGatedByInstaSlice_total_iff_condition
    (gateName : string) (pod : Pod) :
  (checkIfPodGatedByInstaSlice gateName pod = Returns true <->
     In gateName (SchedulingGates pod) /\ Phase pod = PodPending
     /\ exists c rest, Conditions pod = c :: rest
                       /\ Contains (Message c) "blocked" = true)
  /\ ((exists msg, checkIfPodGatedByInstaSlice gateName pod = Panics msg) <->
        In gateName (SchedulingGates pod) /\ Phase pod = PodPending
        /\ Conditions pod = [])
  /\ (In gateName (SchedulingGates pod) -> Phase pod = PodPending ->
      ((exists b, checkIfPodGatedByInstaSlice gateName pod = Returns b) <->
       Conditions pod <> [])).
Proof.
  unfold checkIfPodGatedByInstaSlice.
  split; [apply checkGates_true|].
  split; [apply checkGates_panics|].
  intros Hin Hph.
  pose proof (checkGates_panics gateName pod (SchedulingGates pod)) as Hp.
  destruct (checkGates gateName pod (SchedulingGates pod)) as [b|msg] eqn:E.
  - split; [|intros _; now exists b].
    intros _ Hnil.
    destruct (proj2 Hp (conj Hin (conj Hph Hnil))) as (msg & H). discriminate.
  - split; [intros (b & H); discriminate|].
    intros Hne. destruct (proj1 Hp (ex_intro _ msg eq_refl)) as (_ & _ & Hnil).
    contradiction.
Qed.

(** The gated workload of the scenario is recognised; without its status
    condition the call panics. *)
Lemma checkIfPodGatedByInstaSlice_witness :
  checkIfPodGatedByInstaSlice Scenario.gate Scenario.gatedPod = Returns true
  /\ exists msg,
       checkIfPodGatedByInstaSlice Scenario.gate
         Scenario.unconditionedPod
       = Panics msg.
Proof.
  split.
  - apply (proj1 (checkIfPodGatedByInstaSlice_total_iff_condition
                    Scenario.gate Scenario.gatedPod)).
    split; [left; reflexivity|]. split; [reflexivity|].
    exists Scenario.blocked, []. split; reflexivity.
  - apply (proj1 (proj2 (checkIfPodGatedByInstaSlice_total_iff_condition
                           Scenario.gate _))).
    split; [left; reflexivity|]. split; reflexivity.
Defined.

(* ===================================================================== *)
(** ** The reserved placement policies *)
(* ===================================================================== *)

(** C9, as stated, fails: on a request for the first slice both reserved
    policies return the empty allocation record and raise nothing. *)
Lemma reserved_policies_raise_nothing_counterexample :
  LeftToRightPolicy_SetAllocationDetails "1g.5gb" 0 1 "u1" "node-1"
    "creating" 0 0 0 "default" "w1" "GPU-1" = Returns zeroAllocationDetails
  /\ RightToLeftPolicy_SetAllocationDetails "1g.5gb" 0 1 "u1" "node-1"
       "creating" 0 0 0 "default" "w1" "GPU-1" = Returns zeroAllocationDetails
  /\ ~ (exists msg,
          LeftToRightPolicy_SetAllocationDetails "1g.5gb" 0 1 "u1" "node-1"
            "creating" 0 0 0 "default" "w1" "GPU-1" = Panics msg)
  /\ ~ (exists msg,
          RightToLeftPolicy_SetAllocationDetails "1g.5gb" 0 1 "u1" "node-1"
            "creating" 0 0 0 "default" "w1" "GPU-1" = Panics msg).
Proof.
  repeat split; try reflexivity; intros (msg & H); discriminate.
Qed.

(** C9, amended. For every input the reserved policies left-to-right and
    right-to-left return the empty (zero-valued) allocation record; they
    raise no error. *)
Theorem reserved_policies_return_empty
    (profileName : string) (newStart size : Z) (podUUID nodename : string)
    (processed : string) (discoveredGiprofile Ciprofileid Ciengprofileid : Z)
    (namespace podName gpuUuid : string) :
  LeftToRightPolicy_SetAllocationDetails profileName newStart size podUUID
    nodename processed discoveredGiprofile Ciprofileid Ciengprofileid
    namespace podName gpuUuid = Returns zeroAllocationDetails
  /\ RightToLeftPolicy_SetAllocationDetails profileName newStart size podUUID
       nodename processed discoveredGiprofile Ciprofileid Ciengprofileid
       namespace podName gpuUuid = Returns zeroAllocationDetails.
Proof. split; reflexivity. Qed.

(* ===================================================================== *)
(** ** The branches of Reconcile *)
(* ===================================================================== *)

Section Pass.

Variable gateName : string.
Variable finalizerName : string.
Variable NodeLabel : string.
Variable instaSliceOperatorNamespace : string.
Variable findNodeAndDeviceForASlice :
  Instaslice -> string -> Pod -> option AllocationDetails.

Local Abbreviation pass :=
  (Reconcile gateName finalizerName NodeLabel instaSliceOperatorNamespace
     findNodeAndDeviceForASlice).
Local Abbreviation passFound :=
  (reconcileFound gateName finalizerName NodeLabel
     instaSliceOperatorNamespace findNodeAndDeviceForASlice).
Local Abbreviation passBranches :=
  (reconcileBranches gateName finalizerName NodeLabel
     instaSliceOperatorNamespace findNodeAndDeviceForASlice).

(** A pass that finds the pod goes on in [reconcileFound]. *)
Lemma Reconcile_found (req : NamespacedName) (w w1 w2 : World)
    (items : list Instaslice) (lerr : option error) (pod : Pod) :
  List_Instaslice w = (Next (items, lerr), w1) ->
  Get_Pod req w1 = (Next (pod, None), w2) ->
  pass req w = passFound req items pod w2 /\ quiet w w2.
Proof.
  intros HL HG. unfold Reconcile, bind. rewrite HL, HG. split.
  - reflexivity.
  - destruct (List_Instaslice_quiet w) as (i & e & H1 & Hq1 & _).
    destruct (Get_Pod_quiet req w1) as (p & e' & H2 & Hq2).
    rewrite HL in Hq1. rewrite HG in Hq2. simpl in Hq1, Hq2.
    exact (quiet_trans _ _ _ Hq1 Hq2).
Qed.

Lemma checkGates_absent (pod : Pod) (gates : list string) :
  ~ In gateName gates -> checkGates gateName pod gates = Returns false.
Proof.
  induction gates as [|g gates IH]; simpl; intros Hn; [reflexivity|].
  destruct (String.eqb_spec g gateName) as [->|Hg].
  - exfalso. apply Hn. now left.
  - apply IH. intros Hin. apply Hn. now right.
Qed.

(** *** The steady state *)

(** C8. A workload in the ungated steady state: found by the pass, the
    system's gate removed, the finalizer present, neither failed nor
    succeeded, no deletion requested (its node affinity, set or not, plays
    no part). A pass over it returns done with no requeue and no error, and
    leaves every pod and every inventory record as it was, sending no
    write at all. *)
Theorem ungated_steady_state_no_mutation
    (req : NamespacedName) (w w1 w2 : World) (items : list Instaslice)
    (lerr : option error) (pod : Pod) :
  List_Instaslice w = (Next (items, lerr), w1) ->
  Get_Pod req w1 = (Next (pod, None), w2) ->
  ~ In gateName (SchedulingGates pod) ->
  ContainsFinalizer pod finalizerName = true ->
  Phase pod <> PodFailed ->
  Phase pod <> PodSucceeded ->
  Time_IsZero (DeletionTimestamp pod) = true ->
  pass req w = (Ret done None, w2) /\ quiet w w2.
Proof.
  intros HL HG Hgate Hfin Hfailed Hsucc Hdel.
  destruct (Reconcile_found req w w1 w2 items lerr pod HL HG) as (-> & Hq).
  split; [|exact Hq].
  unfold reconcileFound.
  destruct (isPodGatedByOthers gateName pod); [reflexivity|].
  unfold checkIfPodGatedByInstaSlice.
  rewrite (checkGates_absent pod _ Hgate).
  unfold bind, liftGo, ret. simpl. rewrite Hfin. simpl.
  unfold reconcileBranches.
  apply PodPhase_eqb_neq in Hfailed, Hsucc.
  rewrite Hfailed, Hsucc, Hdel. reflexivity.
Qed.

(** *** The finalizer step and the container count *)

Lemma Update_Pod_next (p : Pod) (w : World) :
  exists err,
    Update_Pod p w = (Next err, snd (Update_Pod p w))
    /\ trace (snd (Update_Pod p w))
       = (trace w
          ++ [UpdatePod p (match err with None => true | _ => false end)])%list
    /\ instaslices (snd (Update_Pod p w)) = instaslices w.
Proof.
  unfold Update_Pod, bind.
  destruct (nextFault_quiet w) as (b & Hb & Hq).
  destruct Hq as (Hp & Hi & _ & _ & Ht).
  rewrite Hb. destruct b; simpl.
  - exists (Some ErrApi). rewrite Ht, Hi. repeat split.
  - destruct (existsb (samePod (keyOfPod p)) (pods (snd (nextFault w)))); simpl.
    + exists None. rewrite Ht, Hi. repeat split.
    + exists (Some ErrNotFound). rewrite Ht, Hi. repeat split.
Qed.

Lemma ContainsFinalizer_added (pod : Pod) :
  ContainsFinalizer (setFinalizers pod (Finalizers pod ++ [finalizerName]))
    finalizerName = true.
Proof.
  unfold ContainsFinalizer. simpl. rewrite existsb_app. simpl.
  rewrite String.eqb_refl. now rewrite orb_true_r.
Qed.

(** A pass over a pod that this system gates, up to the finalizer step. *)
Lemma passFound_gated (req : NamespacedName) (items : list Instaslice)
    (pod : Pod) (w : World) :
  isPodGatedByOthers gateName pod = false ->
  checkIfPodGatedByInstaSlice gateName pod = Returns true ->
  passFound req items pod w =
    if ContainsFinalizer pod finalizerName
    then passBranches req items true pod w
    else bind (addFinalizer finalizerName pod)
           (passBranches req items true) w.
Proof.
  intros Hothers Hgated. unfold reconcileFound.
  rewrite Hothers, Hgated. unfold bind at 1. simpl.
  destruct (ContainsFinalizer pod finalizerName); reflexivity.
Qed.

(** C7, amended. A workload gated by this system alone that does not carry
    the finalizer: the pass sends one pod write that adds the finalizer. If
    that write fails, the pass returns retry-now at once. If it succeeds,
    the pass does not return there: it goes on with the later branches over
    the updated pod, and its directive is the one they yield. *)
Theorem gated_without_finalizer_adds_it_and_goes_on
    (req : NamespacedName) (w w1 w2 : World) (items : list Instaslice)
    (lerr : option error) (pod : Pod) :
  List_Instaslice w = (Next (items, lerr), w1) ->
  Get_Pod req w1 = (Next (pod, None), w2) ->
  isPodGatedByOthers gateName pod = false ->
  checkIfPodGatedByInstaSlice gateName pod = Returns true ->
  ContainsFinalizer pod finalizerName = false ->
  exists err w3,
    Update_Pod (setFinalizers pod (Finalizers pod ++ [finalizerName])) w2
      = (Next err, w3)
    /\ trace w3
       = (trace w
          ++ [UpdatePod (setFinalizers pod (Finalizers pod ++ [finalizerName]))
                (match err with None => true | _ => false end)])%list
    /\ pass req w =
         match err with
         | Some _ => (Ret retryNow None, w3)
         | None =>
             passBranches req items true
               (setFinalizers pod (Finalizers pod ++ [finalizerName])) w3
         end.
Proof.
  intros HL HG Hothers Hgated Hfin.
  destruct (Reconcile_found req w w1 w2 items lerr pod HL HG) as (-> & Hq).
  rewrite (passFound_gated req items pod w2 Hothers Hgated), Hfin.
  set (pod' := setFinalizers pod (Finalizers pod ++ [finalizerName])).
  destruct (Update_Pod_next pod' w2) as (err & HU & Ht & _).
  exists err, (snd (Update_Pod pod' w2)). split; [exact HU|]. split.
  - rewrite Ht. destruct Hq as (_ & _ & _ & _ & ->). reflexivity.
  - unfold bind, addFinalizer. fold pod'. unfold bind. rewrite HU.
    destruct err; reflexivity.
Qed.

(** C3, amended. A workload gated by this system alone, with no deletion
    requested, that carries the finalizer or gets it in this pass, and whose
    pod has no container or several: the pass returns the configuration
    error with no requeue, searches no placement and writes no inventory
    record. The number of units asked for inside a container plays no
    part. *)
Theorem gated_container_count_is_a_configuration_error
    (req : NamespacedName) (w w1 w2 w3 : World) (items : list Instaslice)
    (lerr : option error) (pod : Pod) :
  List_Instaslice w = (Next (items, lerr), w1) ->
  Get_Pod req w1 = (Next (pod, None), w2) ->
  isPodGatedByOthers gateName pod = false ->
  checkIfPodGatedByInstaSlice gateName pod = Returns true ->
  Time_IsZero (DeletionTimestamp pod) = true ->
  length (Containers pod) <> 1%nat ->
  (ContainsFinalizer pod finalizerName = true /\ w3 = w2
   \/ ContainsFinalizer pod finalizerName = false
      /\ Update_Pod (setFinalizers pod (Finalizers pod ++ [finalizerName])) w2
         = (Next None, w3)) ->
  pass req w =
    (Ret done (Some (Errorf "multiple containers per pod not supported")), w3)
  /\ instaslices w3 = instaslices w
  /\ filter inventoryEffect (trace w3) = filter inventoryEffect (trace w).
Proof.
  intros HL HG Hothers Hgated Hdel Hlen Hfin.
  destruct (Reconcile_found req w w1 w2 items lerr pod HL HG) as (-> & Hq).
  destruct Hq as (_ & Hi & _ & _ & Ht).
  rewrite (passFound_gated req items pod w2 Hothers Hgated).
  assert (Hph : Phase pod = PodPending).
  { apply (checkGates_true gateName pod (SchedulingGates pod)) in Hgated.
    tauto. }
  assert (Hbranch : forall p v,
             Phase p = Phase pod -> DeletionTimestamp p = DeletionTimestamp pod ->
             Containers p = Containers pod ->
             passBranches req items true p v =
             (Ret done
                (Some (Errorf "multiple containers per pod not supported")), v)).
  { intros p v Hp Hd Hc. unfold reconcileBranches.
    rewrite Hp, Hd, Hph, Hdel. simpl.
    unfold reconcileGated, bind. rewrite Hc.
    destruct (Containers pod) as [|c [|c' l]]; try reflexivity.
    simpl in Hlen. congruence. }
  destruct Hfin as [(Hfin & ->) | (Hfin & HU)]; rewrite Hfin.
  - rewrite Hbranch by reflexivity. rewrite Hi, Ht. repeat split.
  - unfold bind, addFinalizer. unfold bind. rewrite HU. unfold ret.
    rewrite Hbranch by reflexivity. split; [reflexivity|].
    destruct (Update_Pod_next
                (setFinalizers pod (Finalizers pod ++ [finalizerName])) w2)
      as (err & HU' & Ht' & Hi').
    rewrite HU in HU', Ht', Hi'. simpl in Ht', Hi'.
    rewrite Hi', Hi, Ht', Ht. split; [reflexivity|].
    rewrite filter_app. simpl. now rewrite app_nil_r.
Qed.

(** *** Scans of the listed allocations *)

Lemma forRange_skip {X S : Type} (xs : list X) (body : X -> S -> M S)
    (s : S) (w : World) :
  (forall x, In x xs -> body x s w = (Next s, w)) ->
  forRange xs body s w = (Next s, w).
Proof.
  induction xs as [|x xs IH]; intros H; simpl; [reflexivity|].
  unfold bind. rewrite (H x (or_introl eq_refl)).
  apply IH. intros y Hy. apply H. now right.
Qed.

Lemma forRange_app {X S : Type} (xs ys : list X) (body : X -> S -> M S)
    (s : S) (w : World) :
  forRange (xs ++ ys) body s w
  = bind (forRange xs body s) (forRange ys body) w.
Proof.
  revert s w. induction xs as [|x xs IH]; intros s w; simpl.
  - reflexivity.
  - unfold bind. destruct (body x s w) as [[s'|res err|msg] w'];
      try reflexivity.
    rewrite IH. reflexivity.
Qed.

(** A scan that stops with [res] at the first element that [hit] accepts
    and passes over the others. *)
Lemma forRange_first_hit {X S : Type} (hit : X -> bool) (res : Result)
    (xs : list X) (body : X -> S -> M S) (s : S) (w : World) :
  (forall x, In x xs -> hit x = true -> body x s w = (Ret res None, w)) ->
  (forall x, In x xs -> hit x = false -> body x s w = (Next s, w)) ->
  forRange xs body s w
  = if existsb hit xs then (Ret res None, w) else (Next s, w).
Proof.
  induction xs as [|x xs IH]; intros Hhit Hmiss; simpl; [reflexivity|].
  unfold bind. destruct (hit x) eqn:Hx; simpl.
  - rewrite (Hhit x (or_introl eq_refl) Hx). reflexivity.
  - rewrite (Hmiss x (or_introl eq_refl) Hx).
    apply IH; intros y Hy; [apply Hhit | apply Hmiss]; now right.
Qed.

(** The scan of every allocation of every listed record, when the body
    stops with [res] at the allocations that [hit] accepts and passes over
    the others. *)
Lemma scan_first_hit {S : Type} (hit : string * AllocationDetails -> bool)
    (res : Result) (items : list Instaslice)
    (body : Instaslice -> string * AllocationDetails -> S -> M S)
    (s : S) (w : World) :
  (forall i x, In i items -> In x (Allocations i) ->
     body i x s w = if hit x then (Ret res None, w) else (Next s, w)) ->
  (exists i x, In i items /\ In x (Allocations i) /\ hit x = true) ->
  forRange items (fun i => forRange (Allocations i) (body i)) s w
  = (Ret res None, w).
Proof.
  intros Hbody (i & x & Hi & Hx & Hhit).
  assert (Hinner : forall j, In j items ->
            forRange (Allocations j) (body j) s w
            = if existsb hit (Allocations j)
              then (Ret res None, w) else (Next s, w)).
  { intros j Hj. apply forRange_first_hit; intros y Hy Hh;
      rewrite (Hbody j y Hj Hy), Hh; reflexivity. }
  rewrite (forRange_first_hit (fun j => existsb hit (Allocations j)) res).
  - replace (existsb (fun j => existsb hit (Allocations j)) items) with true;
      [reflexivity|].
    symmetry. apply existsb_exists. exists i. split; [exact Hi|].
    apply existsb_exists. now exists x.
  - intros j Hj Hh. rewrite (Hinner j Hj), Hh. reflexivity.
  - intros j Hj Hh. rewrite (Hinner j Hj), Hh. reflexivity.
Qed.

Lemma checkGates_not_pending (pod : Pod) (gates : list string) :
  Phase pod <> PodPending -> checkGates gateName pod gates = Returns false.
Proof.
  intros Hph. apply PodPhase_eqb_neq in Hph.
  induction gates as [|g gates IH]; simpl; [reflexivity|].
  rewrite Hph. destruct (String.eqb g gateName); exact IH.
Qed.

(** A pass over a pod that this system does not gate and that carries the
    finalizer goes straight to the branches. *)
Lemma passFound_not_gated (req : NamespacedName) (items : list Instaslice)
    (pod : Pod) (w : World) :
  isPodGatedByOthers gateName pod = false ->
  checkIfPodGatedByInstaSlice gateName pod = Returns false ->
  ContainsFinalizer pod finalizerName = true ->
  passFound req items pod w = passBranches req items false pod w.
Proof.
  intros Hothers Hgated Hfin. unfold reconcileFound.
  rewrite Hothers, Hgated. unfold bind, liftGo, ret. simpl.
  rewrite Hfin. reflexivity.
Qed.

Lemma wrap64_small (z : Z) : minInt64 <= z <= maxInt64 -> wrap64 z = z.
Proof.
  unfold wrap64, minInt64, maxInt64. intros H.
  rewrite Z.mod_small; lia.
Qed.

Lemma map_get_set {V : Type} (m : GoMap V) (k : string) (v : V) :
  map_get (map_set m k v) k = Some v.
Proof.
  induction m as [|[k' v'] m IH]; simpl.
  - now rewrite String.eqb_refl.
  - destruct (String.eqb k' k) eqn:E; simpl; rewrite E; [reflexivity|exact IH].
Qed.

Lemma find_replaced {A : Type} (f : A -> bool) (x : A) (l : list A) :
  f x = true -> existsb f l = true ->
  find f (map (fun y => if f y then x else y) l) = Some x.
Proof.
  intros Hx. induction l as [|y l IH]; simpl; [discriminate|].
  destruct (f y) eqn:Hy; simpl.
  - now rewrite Hx.
  - rewrite Hy. exact IH.
Qed.

Lemma Get_Instaslice_quiet (key : NamespacedName) (w : World) :
  quiet w (snd (Get_Instaslice key w)).
Proof.
  unfold Get_Instaslice, bind.
  destruct (nextFault_quiet w) as (b & Hb & Hq).
  rewrite Hb. destruct b; simpl; [exact Hq|].
  destruct (find (sameInstaslice key) (instaslices (snd (nextFault w))));
    exact Hq.
Qed.

(** A write of an [Instaslice] that succeeds is recorded, leaves the pods
    alone and is what a later read of that key yields. *)
Lemma Update_Instaslice_ok (i : Instaslice) (w w' : World) :
  Update_Instaslice i w = (Next None, w') ->
  trace w' = (trace w ++ [UpdateInstaslice i true])%list
  /\ pods w' = pods w
  /\ find (sameInstaslice (keyOfInstaslice i)) (instaslices w') = Some i.
Proof.
  unfold Update_Instaslice, bind.
  destruct (nextFault_quiet w) as (b & Hb & Hq).
  destruct Hq as (Hp & Hi & _ & _ & Ht).
  rewrite Hb. destruct b; simpl; [discriminate|].
  destruct (existsb (sameInstaslice (keyOfInstaslice i))
              (instaslices (snd (nextFault w)))) eqn:Hex; [|discriminate].
  intros H. injection H as <-. simpl. rewrite Ht, Hp.
  repeat split. apply find_replaced; [|exact Hex].
  unfold sameInstaslice, keyOfInstaslice. simpl.
  now rewrite !String.eqb_refl.
Qed.

(** The two terminal branches on a [Creating] allocation, for any cluster.
    The workload is found by the pass, carries the finalizer and no foreign
    gate.

    Failed: if some listed allocation names its UID and all of those are
    [Creating], the pass performs no mutation and returns
    retry-after-delay(2s).

    Succeeded: the branch has no such guard. If the first listed allocation
    that names its UID is [Creating], and the read of its record and the
    write succeed, the pass writes that allocation as [Deleting] and
    returns done. *)
Theorem terminal_pod_with_creating_allocation
    (req : NamespacedName) (w w1 w2 : World) (items : list Instaslice)
    (lerr : option error) (pod : Pod) :
  List_Instaslice w = (Next (items, lerr), w1) ->
  Get_Pod req w1 = (Next (pod, None), w2) ->
  isPodGatedByOthers gateName pod = false ->
  ContainsFinalizer pod finalizerName = true ->
  (Phase pod = PodFailed ->
   (exists inst e, In inst items /\ In e (Allocations inst)
                   /\ PodUUID (snd e) = UID pod) ->
   (forall inst e, In inst items -> In e (Allocations inst) ->
                   PodUUID (snd e) = UID pod ->
                   Allocationstatus (snd e) = AllocationStatusCreating) ->
   pass req w = (Ret (retryAfter (2 * Second)) None, w2) /\ quiet w w2)
  /\
  (Phase pod = PodSucceeded ->
   forall (pre post : list Instaslice) (inst stored : Instaslice)
          (apre apost : GoMap AllocationDetails)
          (e : string * AllocationDetails) (wg w3 : World),
   items = (pre ++ inst :: post)%list ->
   Allocations inst = (apre ++ e :: apost)%list ->
   (forall i x, In i pre -> In x (Allocations i) ->
                PodUUID (snd x) <> UID pod) ->
   (forall x, In x apre -> PodUUID (snd x) <> UID pod) ->
   PodUUID (snd e) = UID pod ->
   Allocationstatus (snd e) = AllocationStatusCreating ->
   Get_Instaslice
     (operatorKey instaSliceOperatorNamespace (InstasliceName inst)) w2
   = (Next (stored, None), wg) ->
   Allocations stored <> [] ->
   Update_Instaslice
     (setAllocations stored
        (map_set (Allocations stored) (UID pod)
           (setAllocationstatus (snd e) AllocationStatusDeleting))) wg
   = (Next None, w3) ->
   pass req w = (Ret done None, w3)
   /\ trace w3
      = (trace w
         ++ [UpdateInstaslice
               (setAllocations stored
                  (map_set (Allocations stored) (UID pod)
                     (setAllocationstatus (snd e) AllocationStatusDeleting)))
               true])%list).
Proof.
  intros HL HG Hothers Hfin.
  destruct (Reconcile_found req w w1 w2 items lerr pod HL HG) as (-> & Hq).
  split.
  - (* failed *)
    intros Hph (inst & e & Hinst & He & Huid) Hall.
    split; [|exact Hq].
    rewrite passFound_not_gated; auto.
    2:{ apply checkGates_not_pending. rewrite Hph. discriminate. }
    unfold reconcileBranches. rewrite Hph, Hfin. cbn [PodPhase_eqb andb].
    unfold reconcileFailed, bind.
    set (bound := fun e : string * AllocationDetails =>
                    String.eqb (UID pod) (PodUUID (snd e))).
    rewrite (scan_first_hit bound (retryAfter (2 * Second))); [reflexivity| |].
    + intros i x Hi Hx. unfold failedAllocation. cbv zeta.
      fold (bound x). destruct (bound x) eqn:Hb; [|reflexivity].
      rewrite (Hall i x Hi Hx); [reflexivity|].
      unfold bound in Hb. apply String.eqb_eq in Hb. congruence.
    + exists inst, e. repeat split; auto.
      unfold bound. rewrite Huid. apply String.eqb_refl.
  - (* succeeded *)
    intros Hph pre post inst stored apre apost e wg w3
           Hitems Hallocs Hpre Hapre Huid Hst HGet Hnonnil HUpd.
    destruct (Update_Instaslice_ok _ _ _ HUpd) as (Ht3 & _ & _).
    pose proof (Get_Instaslice_quiet
                  (operatorKey instaSliceOperatorNamespace
                     (InstasliceName inst)) w2) as Hqg.
    rewrite HGet in Hqg. cbn [snd] in Hqg.
    split.
    2:{ rewrite Ht3. destruct Hqg as (_ & _ & _ & _ & ->).
        destruct Hq as (_ & _ & _ & _ & ->). reflexivity. }
    rewrite passFound_not_gated; auto.
    2:{ apply checkGates_not_pending. rewrite Hph. discriminate. }
    unfold reconcileBranches. rewrite Hph, Hfin. cbn [PodPhase_eqb andb].
    unfold reconcileSucceeded.
    assert (Hother : forall i x st v, PodUUID (snd x) <> UID pod ->
              succeededAllocation instaSliceOperatorNamespace pod i x st v
              = (Next st, v)).
    { intros i x st v Hx. unfold succeededAllocation. cbv zeta.
      apply String.eqb_neq in Hx. rewrite Hx. reflexivity. }
    assert (Hhit : forall st,
              succeededAllocation instaSliceOperatorNamespace pod inst e st w2
              = (Ret done None, w3)).
    { intros st. unfold succeededAllocation. cbv zeta.
      rewrite Huid, String.eqb_refl, Hst.
      cbn [AllocationStatus_eqb negb].
      unfold setInstasliceAllocationToDeleting. cbv zeta.
      unfold bind at 1. unfold bind at 1. rewrite HGet.
      unfold assignEntry.
      destruct (Allocations stored) as [|kv m] eqn:Hm; [congruence|].
      unfold liftGo. unfold bind at 1. unfold ret at 1.
      unfold bind at 1. rewrite HUpd. reflexivity. }
    unfold bind. rewrite Hitems, forRange_app. unfold bind.
    rewrite forRange_skip.
    2:{ intros i Hi. apply forRange_skip. intros x Hx.
        apply Hother. exact (Hpre i x Hi Hx). }
    cbn [forRange]. unfold bind. rewrite Hallocs, forRange_app. unfold bind.
    rewrite forRange_skip.
    2:{ intros x Hx. apply Hother. exact (Hapre x Hx). }
    cbn [forRange]. unfold bind. rewrite Hhit. reflexivity.
Qed.

(** *** Graceful termination *)

Lemma deletedRunning_other (req : NamespacedName) (pod : Pod)
    (inst : Instaslice) (e : string * AllocationDetails) (w : World) :
  fst e <> UID pod ->
  deletedRunningAllocation finalizerName instaSliceOperatorNamespace req pod
    inst e tt w = (Next tt, w).
Proof.
  intros H. unfold deletedRunningAllocation.
  apply String.eqb_neq in H. rewrite H. reflexivity.
Qed.

(** C5, amended. A workload that is no longer gated, carries the finalizer,
    is in no terminal phase and whose deletion has been requested; [elapsed]
    is the time since that request.

    Under 30 seconds: if some listed allocation is filed under the pod's
    UID and none of those is [Deleted], the pass performs no mutation and
    returns retry-after-delay of the remaining [30s - elapsed].

    Over 30 seconds: if exactly one listed allocation is filed under the
    pod's UID and it is not [Deleted], and the read of its record and the
    write succeed, the pass writes that record with the allocation's status
    set to [Deleting], writes nothing else and returns done. *)
Theorem graceful_termination_waits_thirty_seconds
    (req : NamespacedName) (w w1 w2 : World) (items : list Instaslice)
    (lerr : option error) (pod : Pod) (deletionTimestamp : Time) :
  List_Instaslice w = (Next (items, lerr), w1) ->
  Get_Pod req w1 = (Next (pod, None), w2) ->
  isPodGatedByOthers gateName pod = false ->
  ~ In gateName (SchedulingGates pod) ->
  ContainsFinalizer pod finalizerName = true ->
  Phase pod <> PodFailed ->
  Phase pod <> PodSucceeded ->
  DeletionTimestamp pod = Some deletionTimestamp ->
  deletionTimestamp <> 0 ->
  (0 <= Time_Sub (clock w) deletionTimestamp < 30 * Second ->
   (exists inst e, In inst items /\ In e (Allocations inst)
                   /\ fst e = UID pod) ->
   (forall inst e, In inst items -> In e (Allocations inst) ->
                   fst e = UID pod ->
                   Allocationstatus (snd e) <> AllocationStatusDeleted) ->
   pass req w
   = (Ret (retryAfter (30 * Second - Time_Sub (clock w) deletionTimestamp))
        None, w2)
   /\ quiet w w2)
  /\
  (30 * Second < Time_Sub (clock w) deletionTimestamp ->
   forall (pre post : list Instaslice) (inst stored : Instaslice)
          (apre apost : GoMap AllocationDetails) (a : AllocationDetails)
          (wg w3 : World),
   items = (pre ++ inst :: post)%list ->
   Allocations inst = (apre ++ (UID pod, a) :: apost)%list ->
   (forall i e, In i (pre ++ post) -> In e (Allocations i) ->
                fst e <> UID pod) ->
   (forall e, In e (apre ++ apost) -> fst e <> UID pod) ->
   Allocationstatus a <> AllocationStatusDeleted ->
   Get_Instaslice
     (operatorKey instaSliceOperatorNamespace (InstasliceName inst)) w2
   = (Next (stored, None), wg) ->
   Allocations stored <> [] ->
   Update_Instaslice
     (setAllocations stored
        (map_set (Allocations stored) (UID pod)
           (setAllocationstatus a AllocationStatusDeleting))) wg
   = (Next None, w3) ->
   pass req w = (Ret done None, w3)
   /\ trace w3
      = (trace w
         ++ [UpdateInstaslice
               (setAllocations stored
                  (map_set (Allocations stored) (UID pod)
                     (setAllocationstatus a AllocationStatusDeleting)))
               true])%list
   /\ pods w3 = pods w
   /\ exists written,
        find (sameInstaslice (keyOfInstaslice stored)) (instaslices w3)
        = Some written
        /\ map_get (Allocations written) (UID pod)
           = Some (setAllocationstatus a AllocationStatusDeleting)).
Proof.
  intros HL HG Hothers Hgate Hfin Hfailed Hsucc Hts Hnz.
  destruct (Reconcile_found req w w1 w2 items lerr pod HL HG) as (-> & Hq).
  rewrite passFound_not_gated; auto.
  2:{ apply checkGates_absent. exact Hgate. }
  unfold reconcileBranches.
  apply PodPhase_eqb_neq in Hfailed, Hsucc.
  rewrite Hfailed, Hsucc, Hts. cbn [andb negb Time_IsZero].
  apply Z.eqb_neq in Hnz. rewrite Hnz. cbn [andb negb].
  unfold reconcileDeletedRunning. rewrite Hfin.
  assert (Hclock : clock w2 = clock w) by apply Hq.
  set (body := deletedRunningAllocation finalizerName
                 instaSliceOperatorNamespace req pod).
  split.
  - (* under 30 seconds *)
    intros Hel (inst & e & Hinst & He & Huid) Hall.
    split; [|exact Hq].
    set (filed := fun e : string * AllocationDetails =>
                    String.eqb (fst e) (UID pod)).
    set (res := retryAfter (30 * Second - Time_Sub (clock w) deletionTimestamp)).
    unfold bind.
    rewrite (scan_first_hit filed res); [reflexivity| |].
    + intros i x Hi Hx. destruct (filed x) eqn:Hf.
      * unfold body, deletedRunningAllocation. cbv zeta.
        fold (filed x). rewrite Hf.
        assert (Hst : AllocationStatus_eqb (Allocationstatus (snd x))
                        AllocationStatusDeleted = false).
        { apply AllocationStatus_eqb_neq. apply (Hall i x Hi Hx).
          apply String.eqb_eq. exact Hf. }
        rewrite Hst, Hts. unfold bind, ret, Since, Return. rewrite Hclock.
        replace (30 * Second <? Time_Sub (clock w) deletionTimestamp)
          with false by (symmetry; apply Z.ltb_ge; lia).
        rewrite wrap64_small; [reflexivity|].
        unfold minInt64, maxInt64, Second in *. lia.
      * apply deletedRunning_other. apply String.eqb_neq. exact Hf.
    + exists inst, e. repeat split; auto.
      unfold filed. rewrite Huid. apply String.eqb_refl.
  - (* over 30 seconds *)
    intros Hel pre post inst stored apre apost a wg w3
           Hitems Hallocs Hrest Harest Hst HGet Hnonnil HUpd.
    destruct (Update_Instaslice_ok _ _ _ HUpd) as (Ht3 & Hp3 & Hf3).
    pose proof (Get_Instaslice_quiet
                  (operatorKey instaSliceOperatorNamespace
                     (InstasliceName inst)) w2) as Hqg.
    rewrite HGet in Hqg. cbn [snd] in Hqg.
    assert (Hskip : forall v i, In i (pre ++ post) ->
              forRange (Allocations i) (body i) tt v = (Next tt, v)).
    { intros v i Hi. apply forRange_skip. intros x Hx.
      apply deletedRunning_other. exact (Hrest i x Hi Hx). }
    assert (Hhit : body inst (UID pod, a) tt w2 = (Next tt, w3)).
    { unfold body, deletedRunningAllocation. cbn [fst snd].
      rewrite String.eqb_refl.
      apply AllocationStatus_eqb_neq in Hst. rewrite Hst, Hts.
      unfold bind at 1. unfold ret at 1.
      unfold bind at 1. unfold Since. rewrite Hclock.
      replace (30 * Second <? Time_Sub (clock w) deletionTimestamp)
        with true by (symmetry; apply Z.ltb_lt; lia).
      unfold bind at 1. rewrite HGet.
      unfold assignEntry.
      destruct (Allocations stored) as [|kv m] eqn:Hm; [congruence|].
      unfold liftGo. unfold bind at 1. unfold ret at 1.
      unfold bind at 1. rewrite HUpd. reflexivity. }
    split.
    + unfold bind. rewrite Hitems, forRange_app. unfold bind.
      rewrite forRange_skip.
      2:{ intros i Hi. apply Hskip. apply in_or_app. now left. }
      cbn [forRange]. unfold bind. rewrite Hallocs, forRange_app. unfold bind.
      rewrite forRange_skip.
      2:{ intros x Hx. apply deletedRunning_other. apply Harest.
          apply in_or_app. now left. }
      cbn [forRange]. unfold bind. fold body. rewrite Hhit.
      rewrite forRange_skip.
      2:{ intros x Hx. apply deletedRunning_other. apply Harest.
          apply in_or_app. now right. }
      rewrite forRange_skip.
      2:{ intros i Hi. apply Hskip. apply in_or_app. now right. }
      reflexivity.
    + split.
      { rewrite Ht3. destruct Hqg as (_ & _ & _ & _ & ->).
        destruct Hq as (_ & _ & _ & _ & ->). reflexivity. }
      split.
      { rewrite Hp3. destruct Hqg as (-> & _). apply Hq. }
      eexists. split; [exact Hf3|]. cbn [Allocations setAllocations].
      apply map_get_set.
Qed.

(** *** The scans that miss their target *)

(** When the pod is not found, the scan looks for allocations whose
    [PodName] is the zero pod's name: no allocation with a name is
    removed, whichever pod the request names. *)
Lemma not_found_scan_keeps_named_allocations
    (req : NamespacedName) (w w1 w2 : World) (items : list Instaslice)
    (lerr : option error) (pod : Pod) :
  List_Instaslice w = (Next (items, lerr), w1) ->
  Get_Pod req w1 = (Next (pod, Some ErrNotFound), w2) ->
  (forall inst e, In inst items -> In e (Allocations inst) ->
                  PodName (snd e) <> "") ->
  pass req w = (Ret done None, w2) /\ quiet w w2.
Proof.
  intros HL HG Hnamed.
  assert (Hzero : Name pod = "").
  { unfold Get_Pod, bind in HG.
    destruct (nextFault w1) as [[b| |] v]; try discriminate.
    destruct b; [discriminate|].
    destruct (find (samePod req) (pods v)); [discriminate|].
    injection HG as <- _. reflexivity. }
  split.
  - unfold Reconcile, bind. rewrite HL, HG.
    unfold reconcileNotFound, bind.
    rewrite forRange_skip; [reflexivity|].
    intros inst Hinst. apply forRange_skip. intros e He.
    rewrite Hzero.
    replace (String.eqb (PodName (snd e)) "") with false; [reflexivity|].
    symmetry. apply String.eqb_neq. exact (Hnamed inst e Hinst He).
  - destruct (List_Instaslice_quiet w) as (i & e & H1 & Hq1 & _).
    destruct (Get_Pod_quiet req w1) as (p & e' & H2 & Hq2).
    rewrite HL in Hq1. rewrite HG in Hq2. cbn [snd] in Hq1, Hq2.
    exact (quiet_trans _ _ _ Hq1 Hq2).
Qed.

(** While the gate is in place and the allocation is [Ungated], the scan
    never asks the oracle, so [gpuOperatorPodOk] stays false and the pass
    only asks to be retried: the pod is never ungated from this state. *)
Lemma ungated_allocation_never_ungates
    (req : NamespacedName) (w w1 w2 : World) (items : list Instaslice)
    (lerr : option error) (pod : Pod) (container : Container) :
  List_Instaslice w = (Next (items, lerr), w1) ->
  Get_Pod req w1 = (Next (pod, None), w2) ->
  isPodGatedByOthers gateName pod = false ->
  checkIfPodGatedByInstaSlice gateName pod = Returns true ->
  ContainsFinalizer pod finalizerName = true ->
  Time_IsZero (DeletionTimestamp pod) = true ->
  Containers pod = [container] ->
  (exists inst e, In inst items /\ In e (Allocations inst)
                  /\ PodUUID (snd e) = UID pod) ->
  (forall inst e, In inst items -> In e (Allocations inst) ->
                  PodUUID (snd e) = UID pod ->
                  Allocationstatus (snd e) = AllocationStatusUngated) ->
  pass req w = (Ret (retryAfter (2 * Second)) None, w2) /\ quiet w w2.
Proof.
  intros HL HG Hothers Hgated Hfin Hdel Hc (inst & e & Hinst & He & Huid) Hall.
  destruct (Reconcile_found req w w1 w2 items lerr pod HL HG) as (-> & Hq).
  split; [|exact Hq].
  rewrite (passFound_gated req items pod w2 Hothers Hgated), Hfin.
  assert (Hph : Phase pod = PodPending).
  { apply (checkGates_true gateName pod (SchedulingGates pod)) in Hgated.
    tauto. }
  unfold reconcileBranches. rewrite Hph, Hdel. cbn [PodPhase_eqb andb negb].
  unfold bind at 1. unfold reconcileGated. rewrite Hc. unfold bind at 1.
  set (bound := fun e : string * AllocationDetails =>
                  String.eqb (PodUUID (snd e)) (UID pod)).
  rewrite (scan_first_hit bound (retryAfter (2 * Second))); [reflexivity| |].
  - intros i x Hi Hx. unfold progressAllocation, bind. cbv zeta.
    fold (bound x). destruct (bound x) eqn:Hb.
    + rewrite (Hall i x Hi Hx); [|apply String.eqb_eq; exact Hb].
      cbn [AllocationStatus_eqb andb]. unfold ret.
      cbn [AllocationStatus_eqb andb]. fold (bound x). rewrite Hb.
      rewrite (Hall i x Hi Hx); [reflexivity|].
      apply String.eqb_eq; exact Hb.
    + rewrite !andb_false_r. unfold ret. fold (bound x).
      rewrite Hb, !andb_false_r. reflexivity.
  - exists inst, e. repeat split; auto.
    unfold bound. rewrite Huid. apply String.eqb_refl.
Qed.

(** The first listed allocation that names the pod is [Created] and the
    oracle answers unhealthy without error: once the read and the write of
    the record succeed, the allocation is written as [Ungated] all the
    same, and only then does the pass ask to be retried. *)
Lemma created_allocation_is_written_before_the_report_is_read
    (req : NamespacedName) (w w1 w2 wh wg w3 : World)
    (items pre post : list Instaslice) (inst stored : Instaslice)
    (apre apost : GoMap AllocationDetails) (e : string * AllocationDetails)
    (lerr : option error) (pod : Pod) (container : Container) :
  List_Instaslice w = (Next (items, lerr), w1) ->
  Get_Pod req w1 = (Next (pod, None), w2) ->
  isPodGatedByOthers gateName pod = false ->
  checkIfPodGatedByInstaSlice gateName pod = Returns true ->
  ContainsFinalizer pod finalizerName = true ->
  Time_IsZero (DeletionTimestamp pod) = true ->
  Containers pod = [container] ->
  items = (pre ++ inst :: post)%list ->
  Allocations inst = (apre ++ e :: apost)%list ->
  (forall i x, In i pre -> In x (Allocations i) ->
               PodUUID (snd x) <> UID pod) ->
  (forall x, In x apre -> PodUUID (snd x) <> UID pod) ->
  PodUUID (snd e) = UID pod ->
  Allocationstatus (snd e) = AllocationStatusCreated ->
  isPatternPodRunningAndHealthy "nvidia-device-plugin-daemonset"
    "gpu-operator" w2 = (Next (false, None), wh) ->
  Get_Instaslice (defaultKey (InstasliceName inst)) wh
  = (Next (stored, None), wg) ->
  Update_Instaslice
    (setAllocations stored
       (map_set (Allocations stored) (fst e)
          (setAllocationstatus (snd e) AllocationStatusUngated))) wg
  = (Next None, w3) ->
  pass req w = (Ret (retryAfter (2 * Second)) None, w3)
  /\ trace w3
     = (trace wh
        ++ [UpdateInstaslice
              (setAllocations stored
                 (map_set (Allocations stored) (fst e)
                    (setAllocationstatus (snd e) AllocationStatusUngated)))
              true])%list.
Proof.
  intros HL HG Hothers Hgated Hfin Hdel Hc Hitems Hallocs Hpre Hapre
         Huid Hst Hhealth HGet HUpd.
  destruct (Reconcile_found req w w1 w2 items lerr pod HL HG) as (-> & Hq).
  destruct (Update_Instaslice_ok _ _ _ HUpd) as (Ht3 & _ & _).
  pose proof (Get_Instaslice_quiet (defaultKey (InstasliceName inst)) wh)
    as Hqg.
  rewrite HGet in Hqg. cbn [snd] in Hqg.
  split.
  2:{ rewrite Ht3. destruct Hqg as (_ & _ & _ & _ & ->). reflexivity. }
  rewrite (passFound_gated req items pod w2 Hothers Hgated), Hfin.
  assert (Hph : Phase pod = PodPending).
  { apply (checkGates_true gateName pod (SchedulingGates pod)) in Hgated.
    tauto. }
  unfold reconcileBranches. rewrite Hph, Hdel. cbn [PodPhase_eqb andb negb].
  unfold bind at 1. unfold reconcileGated. rewrite Hc. unfold bind at 1.
  assert (Hother : forall i x, PodUUID (snd x) <> UID pod ->
            progressAllocation gateName NodeLabel i x (false, pod) w2
            = (Next (false, pod), w2)).
  { intros i x Hx. unfold progressAllocation, bind. cbv zeta.
    apply String.eqb_neq in Hx. rewrite Hx, !andb_false_r.
    unfold ret. rewrite Hx, !andb_false_r. reflexivity. }
  assert (Hhit : progressAllocation gateName NodeLabel inst e (false, pod) w2
                 = (Ret (retryAfter (2 * Second)) None, w3)).
  { unfold progressAllocation. cbv zeta.
    rewrite Huid, String.eqb_refl, Hst. cbn [AllocationStatus_eqb andb].
    unfold bind at 1. unfold bind at 1. rewrite Hhealth.
    unfold bind at 1. rewrite HGet.
    unfold bind at 1. rewrite HUpd. reflexivity. }
  rewrite Hitems, forRange_app. unfold bind.
  rewrite forRange_skip.
  2:{ intros i Hi. apply forRange_skip. intros x Hx.
      apply Hother. exact (Hpre i x Hi Hx). }
  cbn [forRange]. unfold bind. rewrite Hallocs, forRange_app. unfold bind.
  rewrite forRange_skip.
  2:{ intros x Hx. apply Hother. exact (Hapre x Hx). }
  cbn [forRange]. unfold bind. rewrite Hhit. reflexivity.
Qed.

End Pass.

(* ===================================================================== *)
(** ** Runs on the concrete cluster *)
(* ===================================================================== *)

(** The running workload of the scenario, its affinity set to [node-1] and
    its allocation [Ungated]: a further pass changes nothing. *)
Lemma ungated_steady_state_witness :
  let w := Scenario.cluster
             [Scenario.runningPod None; Scenario.devicePlugin PodRunning]
             [Scenario.node [("u1", Scenario.allocation AllocationStatusUngated)]]
             0 in
  Scenario.reconcile Scenario.noCapacity w = (Ret done None, w) /\ quiet w w.
Proof.
  intro w.
  apply (ungated_steady_state_no_mutation Scenario.gate Scenario.finalizer
           Scenario.nodeLabel Scenario.operatorNamespace Scenario.noCapacity
           Scenario.request w w w (instaslices w) None
           (Scenario.runningPod None)).
  - reflexivity.
  - reflexivity.
  - simpl. tauto.
  - reflexivity.
  - discriminate.
  - discriminate.
  - reflexivity.
Defined.

(** A gated workload with two containers gets the configuration error. *)
Lemma gated_container_count_witness :
  let pod := Scenario.workload [Scenario.finalizer] [Scenario.gate] PodPending
               None [Scenario.oneUnit; Scenario.oneUnit] in
  let w := Scenario.cluster [pod] [Scenario.node []] 0 in
  Scenario.reconcile Scenario.firstSlice w =
    (Ret done (Some (Errorf "multiple containers per pod not supported")), w)
  /\ instaslices w = instaslices w
  /\ filter inventoryEffect (trace w) = filter inventoryEffect (trace w).
Proof.
  intros pod w.
  apply (gated_container_count_is_a_configuration_error Scenario.gate
           Scenario.finalizer Scenario.nodeLabel Scenario.operatorNamespace
           Scenario.firstSlice Scenario.request w w w w (instaslices w) None
           pod).
  - reflexivity.
  - reflexivity.
  - reflexivity.
  - reflexivity.
  - reflexivity.
  - simpl. lia.
  - left. split; reflexivity.
Defined.

(** The failed workload whose allocation is still [Creating] is left to
    wait; the succeeded one has it written as [Deleting]. *)
Lemma terminal_pod_with_creating_allocation_witness :
  let creating := Scenario.node
                    [("u1", Scenario.allocation AllocationStatusCreating)] in
  let deleting := Scenario.node
                    [("u1", Scenario.allocation AllocationStatusDeleting)] in
  let wf := Scenario.cluster [Scenario.finishedPod PodFailed] [creating] 0 in
  let ws := Scenario.cluster [Scenario.finishedPod PodSucceeded] [creating] 0 in
  (Scenario.reconcile Scenario.noCapacity wf
   = (Ret (retryAfter (2 * Second)) None, wf) /\ quiet wf wf)
  /\ (Scenario.reconcile Scenario.noCapacity ws
      = (Ret done None, snd (Update_Instaslice deleting ws))
      /\ trace (snd (Update_Instaslice deleting ws))
         = [UpdateInstaslice deleting true]).
Proof.
  intros creating deleting wf ws. split.
  - apply (proj1 (terminal_pod_with_creating_allocation Scenario.gate
                    Scenario.finalizer Scenario.nodeLabel
                    Scenario.operatorNamespace Scenario.noCapacity
                    Scenario.request wf wf wf [creating] None
                    (Scenario.finishedPod PodFailed)
                    eq_refl eq_refl eq_refl eq_refl)).
    + reflexivity.
    + exists creating, ("u1", Scenario.allocation AllocationStatusCreating).
      simpl. auto.
    + intros inst e [<-|[]] [<-|[]] _. reflexivity.
  - apply (proj2 (terminal_pod_with_creating_allocation Scenario.gate
                    Scenario.finalizer Scenario.nodeLabel
                    Scenario.operatorNamespace Scenario.noCapacity
                    Scenario.request ws ws ws [creating] None
                    (Scenario.finishedPod PodSucceeded)
                    eq_refl eq_refl eq_refl eq_refl)
             eq_refl [] [] creating creating [] []
             ("u1", Scenario.allocation AllocationStatusCreating) ws).
    + reflexivity.
    + reflexivity.
    + intros i x [].
    + intros x [].
    + reflexivity.
    + reflexivity.
    + reflexivity.
    + discriminate.
    + reflexivity.
Defined.

(** The gated workload without finalizer: the write that adds it succeeds
    and the pass goes on with the later branches. *)
Lemma gated_without_finalizer_witness :
  let pod := Scenario.workload [] [Scenario.gate] PodPending None
               [Scenario.oneUnit] in
  let pod' := setFinalizers pod [Scenario.finalizer] in
  let w := Scenario.cluster [pod] [Scenario.node []] 0 in
  exists err w3,
    Update_Pod pod' w = (Next err, w3)
    /\ trace w3
       = [UpdatePod pod' (match err with None => true | _ => false end)]
    /\ Scenario.reconcile Scenario.firstSlice w =
         match err with
         | Some _ => (Ret retryNow None, w3)
         | None =>
             reconcileBranches Scenario.gate Scenario.finalizer
               Scenario.nodeLabel Scenario.operatorNamespace
               Scenario.firstSlice Scenario.request (instaslices w) true
               pod' w3
         end.
Proof.
  intros pod pod' w.
  apply (gated_without_finalizer_adds_it_and_goes_on Scenario.gate
           Scenario.finalizer Scenario.nodeLabel Scenario.operatorNamespace
           Scenario.firstSlice Scenario.request w w w (instaslices w) None
           pod).
  - reflexivity.
  - reflexivity.
  - reflexivity.
  - reflexivity.
  - reflexivity.
Defined.

(** Scenario B: the running workload with a [Created] allocation, its
    deletion requested at [deletionRequested]. A pass 10s later performs no
    mutation and asks for 20s; a pass 31s later writes [Deleting]. *)
Lemma graceful_termination_witness :
  let pod := Scenario.runningPod (Some Scenario.deletionRequested) in
  let created := Scenario.node
                   [("u1", Scenario.allocation AllocationStatusCreated)] in
  let deleting := Scenario.node
                    [("u1", Scenario.allocation AllocationStatusDeleting)] in
  let w10 := Scenario.cluster [pod] [created]
               (Scenario.deletionRequested + 10 * Second) in
  let w31 := Scenario.cluster [pod] [created]
               (Scenario.deletionRequested + 31 * Second) in
  (Scenario.reconcile Scenario.noCapacity w10
   = (Ret (retryAfter (20 * Second)) None, w10) /\ quiet w10 w10)
  /\ (Scenario.reconcile Scenario.noCapacity w31
      = (Ret done None, snd (Update_Instaslice deleting w31))
      /\ trace (snd (Update_Instaslice deleting w31))
         = [UpdateInstaslice deleting true]
      /\ pods (snd (Update_Instaslice deleting w31)) = [pod]
      /\ exists written,
           find (sameInstaslice (keyOfInstaslice created))
             (instaslices (snd (Update_Instaslice deleting w31)))
           = Some written
           /\ map_get (Allocations written) "u1"
              = Some (Scenario.allocation AllocationStatusDeleting)).
Proof.
  intros pod created deleting w10 w31. split.
  - apply (proj1 (graceful_termination_waits_thirty_seconds Scenario.gate
                    Scenario.finalizer Scenario.nodeLabel
                    Scenario.operatorNamespace Scenario.noCapacity
                    Scenario.request w10 w10 w10 [created] None pod
                    Scenario.deletionRequested
                    eq_refl eq_refl eq_refl (fun H => H) eq_refl
                    ltac:(discriminate) ltac:(discriminate) eq_refl
                    ltac:(discriminate))).
    + vm_compute. split; [discriminate | reflexivity].
    + exists created, ("u1", Scenario.allocation AllocationStatusCreated).
      simpl. auto.
    + intros inst e [<-|[]] [<-|[]] _. discriminate.
  - apply (proj2 (graceful_termination_waits_thirty_seconds Scenario.gate
                    Scenario.finalizer Scenario.nodeLabel
                    Scenario.operatorNamespace Scenario.noCapacity
                    Scenario.request w31 w31 w31 [created] None pod
                    Scenario.deletionRequested
                    eq_refl eq_refl eq_refl (fun H => H) eq_refl
                    ltac:(discriminate) ltac:(discriminate) eq_refl
                    ltac:(discriminate))
             ltac:(vm_compute; reflexivity)
             [] [] created created [] []
             (Scenario.allocation AllocationStatusCreated) w31).
    + reflexivity.
    + reflexivity.
    + intros i e [].
    + intros e [].
    + discriminate.
    + reflexivity.
    + discriminate.
    + reflexivity.
Defined.

(* ===================================================================== *)
(** ** Where the pass departs from the description *)
(* ===================================================================== *)

(** C1. The gated workload has a [Created] allocation and the device
    plugin's pod is not running, so the health oracle answers unhealthy
    without error. The pass returns retry-after-delay(2s) and leaves the pod
    alone, but it has written the allocation as [Ungated] before it looked
    at the oracle's answer. *)
Theorem created_allocation_is_written_ungated_on_unhealthy_oracle :
  let before := Scenario.node
                  [("u1", Scenario.allocation AllocationStatusCreated)] in
  let after := Scenario.node
                 [("u1", Scenario.allocation AllocationStatusUngated)] in
  let w := Scenario.cluster
             [Scenario.gatedPod; Scenario.devicePlugin PodPending]
             [before] 0 in
  fst (isPatternPodRunningAndHealthy "nvidia-device-plugin-daemonset"
         "gpu-operator" w) = Next (false, None)
  /\ fst (Scenario.reconcile Scenario.noCapacity w)
     = Ret (retryAfter (2 * Second)) None
  /\ trace (snd (Scenario.reconcile Scenario.noCapacity w))
     = [HealthQuery "nvidia-device-plugin-daemonset" "gpu-operator";
        UpdateInstaslice after true]
  /\ instaslices (snd (Scenario.reconcile Scenario.noCapacity w)) = [after]
  /\ pods (snd (Scenario.reconcile Scenario.noCapacity w)) = pods w.
Proof. vm_compute. repeat split. Qed.

(** C2. The workload [default/w1] is gone and [node-1] still holds its
    allocation, already [Deleted]. The pass compares the allocations'
    [PodName] with the name of the zero-valued pod, the empty string, so it
    removes nothing and returns done. *)
Theorem allocation_of_a_pod_not_found_is_kept :
  let w := Scenario.cluster [Scenario.devicePlugin PodRunning]
             [Scenario.node
                [("u1", Scenario.allocation AllocationStatusDeleted)]] 0 in
  fst (Get_Pod Scenario.request w) = Next (zeroPod, Some ErrNotFound)
  /\ Scenario.reconcile Scenario.noCapacity w = (Ret done None, w).
Proof. vm_compute. repeat split. Qed.

(** C6. The gated workload has an [Ungated] allocation, the crash-recovery
    case, and the device plugin's pod is running. The pass does not ask the
    oracle, [gpuOperatorPodOk] is still false, and it returns
    retry-after-delay(2s) with the gate in place and no affinity set. *)
Theorem ungated_allocation_with_gate_is_not_recovered :
  let w := Scenario.cluster
             [Scenario.gatedPod; Scenario.devicePlugin PodRunning]
             [Scenario.node
                [("u1", Scenario.allocation AllocationStatusUngated)]] 0 in
  fst (isPatternPodRunningAndHealthy "nvidia-device-plugin-daemonset"
         "gpu-operator" w) = Next (true, None)
  /\ Scenario.reconcile Scenario.noCapacity w
     = (Ret (retryAfter (2 * Second)) None, w).
Proof. vm_compute. repeat split. Qed.

(** C4. The workload [default/w1] has reached a terminal phase, carries the
    finalizer, and its allocation on [node-1] is still [Creating]. When the
    phase is Failed the pass leaves everything as it is and returns
    retry-after-delay(2s). When the phase is Succeeded the pass does not
    wait: it writes the allocation as [Deleting] while the slice is still
    being created, and returns done. *)
Theorem succeeded_pod_with_creating_allocation_is_marked_deleting :
  let creating := Scenario.node
                    [("u1", Scenario.allocation AllocationStatusCreating)] in
  let deleting := Scenario.node
                    [("u1", Scenario.allocation AllocationStatusDeleting)] in
  let wf := Scenario.cluster [Scenario.finishedPod PodFailed] [creating] 0 in
  let ws := Scenario.cluster [Scenario.finishedPod PodSucceeded] [creating] 0 in
  Scenario.reconcile Scenario.noCapacity wf
  = (Ret (retryAfter (2 * Second)) None, wf)
  /\ fst (Scenario.reconcile Scenario.noCapacity ws) = Ret done None
  /\ fst (Scenario.reconcile Scenario.noCapacity ws)
     <> Ret (retryAfter (2 * Second)) None
  /\ trace (snd (Scenario.reconcile Scenario.noCapacity ws))
     = [UpdateInstaslice deleting true]
  /\ instaslices (snd (Scenario.reconcile Scenario.noCapacity ws))
     = [deleting]
  /\ pods (snd (Scenario.reconcile Scenario.noCapacity ws)) = pods ws
  /\ ~ quiet ws (snd (Scenario.reconcile Scenario.noCapacity ws)).
Proof.
  vm_compute. repeat split; try discriminate.
  intros (_ & H & _). discriminate.
Qed.

(** C3, as stated, fails: the gated workload asks for two units of the
    profile in its one container; the pass returns no error, searches a
    placement and writes the allocation into the inventory. *)
Lemma two_units_in_one_container_counterexample :
  let pod := Scenario.workload [Scenario.finalizer] [Scenario.gate] PodPending
               None [Scenario.twoUnits] in
  let w := Scenario.cluster [pod] [Scenario.node []] 0 in
  let after := Scenario.node
                 [("u1", Scenario.allocation AllocationStatusCreating)] in
  map (fun c => map_get (Limits c) "nvidia.com/mig-1g.5gb") (Containers pod)
  = [Some 2]
  /\ checkIfPodGatedByInstaSlice Scenario.gate pod = Returns true
  /\ fst (Scenario.reconcile Scenario.firstSlice w) = Ret done None
  /\ trace (snd (Scenario.reconcile Scenario.firstSlice w))
     = [FindNode "node-1" "1g.5gb"; UpdateInstaslice after true]
  /\ instaslices (snd (Scenario.reconcile Scenario.firstSlice w)) = [after].
Proof. vm_compute. repeat split. Qed.

(** C5, as stated, fails: the running workload's deletion was requested 10s
    ago and its allocation is already [Deleted]. The pass removes the
    allocation and the finalizer, two writes, before it asks for the
    remaining 20s. *)
Lemma graceful_termination_deleted_allocation_counterexample :
  let pod := Scenario.runningPod (Some Scenario.deletionRequested) in
  let w := Scenario.cluster [pod]
             [Scenario.node
                [("u1", Scenario.allocation AllocationStatusDeleted)]]
             (Scenario.deletionRequested + 10 * Second) in
  fst (Scenario.reconcile Scenario.noCapacity w)
  = Ret (retryAfter (20 * Second)) None
  /\ trace (snd (Scenario.reconcile Scenario.noCapacity w))
     = [UpdateInstaslice (Scenario.node []) true;
        UpdatePod (setFinalizers pod []) true]
  /\ instaslices (snd (Scenario.reconcile Scenario.noCapacity w))
     = [Scenario.node []]
  /\ pods (snd (Scenario.reconcile Scenario.noCapacity w))
     = [setFinalizers pod []]
  /\ ~ quiet w (snd (Scenario.reconcile Scenario.noCapacity w)).
Proof.
  vm_compute. repeat split; try discriminate.
  intros (H & _). discriminate.
Qed.

(** C7, as stated, fails: for the gated workload without finalizer the
    write that adds the finalizer succeeds, and the pass does not return
    retry-now; it goes on, searches a placement, writes the allocation and
    returns done. *)
Lemma gated_without_finalizer_goes_on_counterexample :
  let pod := Scenario.workload [] [Scenario.gate] PodPending None
               [Scenario.oneUnit] in
  let w := Scenario.cluster [pod] [Scenario.node []] 0 in
  checkIfPodGatedByInstaSlice Scenario.gate pod = Returns true
  /\ ContainsFinalizer pod Scenario.finalizer = false
  /\ fst (Scenario.reconcile Scenario.firstSlice w) = Ret done None
  /\ fst (Scenario.reconcile Scenario.firstSlice w) <> Ret retryNow None
  /\ trace (snd (Scenario.reconcile Scenario.firstSlice w))
     = [UpdatePod (setFinalizers pod [Scenario.finalizer]) true;
        FindNode "node-1" "1g.5gb";
        UpdateInstaslice
          (Scenario.node
             [("u1", Scenario.allocation AllocationStatusCreating)]) true].
Proof. vm_compute. repeat split; discriminate. Qed.

(* ===================================================================== *)
(** ** The functions beside Reconcile *)
(* ===================================================================== *)

Section Ungating.

Variable gateName : string.

Lemma unGateRange_app (a b : list nat) (arr : list string) (len : nat) :
  unGateRange gateName (a ++ b) arr len
  = match unGateRange gateName a arr len with
    | Returns (arr', len') => unGateRange gateName b arr' len'
    | Panics msg => Panics msg
    end.
Proof.
  revert arr len. induction a as [|i a IH]; intros arr len; simpl.
  - reflexivity.
  - destruct (String.eqb (nth i arr "") gateName).
    + destruct (i + 1 <=? len)%nat; [apply IH | reflexivity].
    + apply IH.
Qed.

Lemma unGateRange_skip (idx : list nat) (arr : list string) (len : nat) :
  (forall i, In i idx -> nth i arr "" <> gateName) ->
  unGateRange gateName idx arr len = Returns (arr, len).
Proof.
  induction idx as [|i idx IH]; intros H; simpl; [reflexivity|].
  replace (String.eqb (nth i arr "") gateName) with false.
  - apply IH. intros j Hj. apply H. now right.
  - symmetry. apply String.eqb_neq. apply H. now left.
Qed.

Lemma setSchedulingGates_same (pod : Pod) :
  setSchedulingGates pod (SchedulingGates pod) = pod.
Proof. destruct pod. reflexivity. Qed.

(** X1. [unGatePod] on a pod that does not carry the gate returns the pod
    as it is. *)
Theorem unGatePod_without_the_gate (pod : Pod) :
  ~ In gateName (SchedulingGates pod) ->
  unGatePod gateName pod = Returns pod.
Proof.
  intros Hn. unfold unGatePod. rewrite unGateRange_skip.
  - rewrite firstn_all. now rewrite setSchedulingGates_same.
  - intros i Hi Heq. apply in_seq in Hi. apply Hn. rewrite <- Heq.
    apply nth_In. lia.
Qed.

(** X2. [unGatePod] on a pod that carries the gate once returns the pod
    with that gate taken out, the other gates in their order and every
    other field as it was; the shifting of the slice that is being ranged
    over does no harm then. *)
Theorem unGatePod_removes_the_gate (pod : Pod) (pre post : list string) :
  SchedulingGates pod = (pre ++ gateName :: post)%list ->
  ~ In gateName pre ->
  ~ In gateName post ->
  unGatePod gateName pod = Returns (setSchedulingGates pod (pre ++ post)).
Proof.
  intros Hg Hpre Hpost. unfold unGatePod. rewrite Hg.
  set (arr := (pre ++ gateName :: post)%list).
  assert (Hlen : length arr = (length pre + S (length post))%nat).
  { unfold arr. rewrite length_app. reflexivity. }
  rewrite Hlen.
  replace (seq 0 (length pre + S (length post)))
    with (seq 0 (length pre)
          ++ length pre :: seq (S (length pre)) (length post))%list
    by (rewrite seq_app; reflexivity).
  rewrite unGateRange_app, unGateRange_skip.
  2:{ intros i Hi Heq. apply in_seq in Hi. apply Hpre. rewrite <- Heq.
      unfold arr. rewrite app_nth1 by lia. apply nth_In. lia. }
  cbn [unGateRange].
  replace (nth (length pre) arr "") with gateName
    by (unfold arr; rewrite app_nth2, Nat.sub_diag by lia; reflexivity).
  rewrite String.eqb_refl.
  replace (length pre + 1 <=? length pre + S (length post))%nat with true
    by (symmetry; apply Nat.leb_le; lia).
  set (tail := skipn (length pre + S (length post) - 1) arr).
  assert (Hfirst : firstn (length pre) arr = pre).
  { unfold arr. rewrite firstn_app, Nat.sub_diag, firstn_all.
    cbn [firstn]. now rewrite app_nil_r. }
  assert (Hmid : firstn (length pre + S (length post) - (length pre + 1))
                   (skipn (length pre + 1) arr) = post).
  { unfold arr. rewrite skipn_app.
    replace (length pre + 1 - length pre)%nat with 1%nat by lia.
    rewrite skipn_all2 by lia. cbn [skipn app].
    replace (length pre + S (length post) - (length pre + 1))%nat
      with (length post) by lia.
    apply firstn_all. }
  rewrite Hfirst, Hmid.
  assert (Htail : length tail = 1%nat).
  { unfold tail. rewrite length_skipn, Hlen. lia. }
  assert (Hin : post <> [] -> forall x, In x tail -> In x post).
  { intros Hne x Hx. unfold tail, arr in Hx.
    rewrite skipn_app in Hx.
    rewrite skipn_all2 in Hx by lia. cbn [app] in Hx.
    destruct post as [|y post']; [congruence|].
    replace (length pre + S (length (y :: post')) - 1 - length pre)%nat
      with (S (length post')) in Hx by (cbn [length]; lia).
    cbn [skipn] in Hx.
    rewrite <- (firstn_skipn (length post') (y :: post')).
    apply in_or_app. now right. }
  rewrite unGateRange_skip.
  - replace (length pre + S (length post) - 1)%nat
      with (length (pre ++ post)) by (rewrite length_app; lia).
    rewrite app_assoc, firstn_app, Nat.sub_diag, firstn_all.
    cbn [firstn]. now rewrite app_nil_r.
  - intros j Hj Heq. apply in_seq in Hj.
    assert (Hne : post <> []) by (destruct post; cbn [length] in Hj; [lia|congruence]).
    rewrite app_nth2 in Heq by lia.
    assert (Hjn : In (nth (j - length pre) (post ++ tail) "") (post ++ tail)).
    { apply nth_In. rewrite length_app, Htail. lia. }
    rewrite Heq in Hjn. apply in_app_or in Hjn.
    destruct Hjn as [Hp | Ht]; [exact (Hpost Hp)|].
    exact (Hpost (Hin Hne _ Ht)).
Qed.

End Ungating.

(** *** extractProfileName *)

Lemma spanDigits_run (d rest : string) (c : ascii) :
  allDigits d = true -> isDigit c = false ->
  spanDigits (d ++ String c rest) = (d, String c rest).
Proof.
  intros Hd Hc. induction d as [|a d IH]; cbn [append spanDigits].
  - now rewrite Hc.
  - cbn [allDigits] in Hd. apply andb_prop in Hd. destruct Hd as (Ha & Hd).
    rewrite Ha, (IH Hd). reflexivity.
Qed.

Lemma findProfile_eq (s : string) :
  findProfile s
  = match matchProfileHere s with
    | Some m => Some m
    | None => match s with
              | EmptyString => None
              | String _ s' => findProfile s'
              end
    end.
Proof. destruct s; reflexivity. Qed.

Lemma findProfile_noDigit (pre s : string) :
  noDigit pre = true -> findProfile (pre ++ s) = findProfile s.
Proof.
  induction pre as [|c pre IH]; intros H; cbn [append]; [reflexivity|].
  cbn [noDigit] in H. apply andb_prop in H. destruct H as (Hc & Hpre).
  apply negb_true_iff in Hc.
  rewrite findProfile_eq. unfold matchProfileHere. cbn [spanDigits].
  rewrite Hc. exact (IH Hpre).
Qed.

Lemma matchProfileHere_profile (n m tail : string) :
  allDigits n = true -> n <> "" -> allDigits m = true -> m <> "" ->
  matchProfileHere (n ++ "g." ++ m ++ "gb" ++ tail)
  = Some (n ++ "g." ++ m ++ "gb").
Proof.
  intros Hn Hn0 Hm Hm0. unfold matchProfileHere.
  cbn [append]. rewrite (spanDigits_run n _ "g" Hn eq_refl).
  destruct n as [|a n]; [congruence|].
  rewrite (spanDigits_run m _ "g" Hm eq_refl).
  destruct m as [|b m]; [congruence|]. reflexivity.
Qed.

Lemma Contains_eq (s substr : string) :
  Contains s substr
  = if String.prefix substr s then true
    else match s with
         | EmptyString => false
         | String _ s' => Contains s' substr
         end.
Proof. destruct s; reflexivity. Qed.

Lemma Contains_app (a s substr : string) :
  String.prefix substr s = true -> Contains (a ++ s) substr = true.
Proof.
  intros H. induction a as [|c a IH]; cbn [append].
  - rewrite Contains_eq, H. reflexivity.
  - rewrite Contains_eq.
    destruct (String.prefix substr (String c (a ++ s))); [reflexivity|exact IH].
Qed.

Lemma prefix_mig (s : string) : String.prefix "mig-" ("mig-" ++ s) = true.
Proof. destruct s; reflexivity. Qed.

(** X3. The resource name [<prefix>mig-<N>g.<M>gb], with digits [N] and
    [M] and a prefix free of digits, yields the profile [<N>g.<M>gb],
    whatever quantity is asked for; and the resource that [range] visits
    last decides, whatever the limits before it yielded. *)
Theorem extractProfileName_reads_the_last_mig_resource
    (limits : GoMap Z) (pre n m : string) (quantity : Z) :
  noDigit pre = true ->
  allDigits n = true -> n <> "" ->
  allDigits m = true -> m <> "" ->
  extractProfileName
    (limits
     ++ [((pre ++ "mig-" ++ n ++ "g." ++ m ++ "gb")%string, quantity)])%list
  = n ++ "g." ++ m ++ "gb".
Proof.
  intros Hpre Hn Hn0 Hm Hm0. unfold extractProfileName.
  rewrite fold_left_app. cbn [fold_left fst].
  rewrite Contains_app by apply prefix_mig.
  rewrite findProfile_noDigit by exact Hpre.
  rewrite (findProfile_noDigit "mig-") by reflexivity.
  rewrite findProfile_eq.
  pose proof (matchProfileHere_profile n m "" Hn Hn0 Hm Hm0) as H.
  cbn [append] in H. cbn [append]. rewrite H. reflexivity.
Qed.

Lemma extractProfileName_witness :
  extractProfileName
    ([("cpu", 100); ("nvidia.com/mig-3g.20gb", 1)]
     ++ [(("nvidia.com/" ++ "mig-" ++ "1" ++ "g." ++ "5" ++ "gb")%string,
          2)])%list
  = "1" ++ "g." ++ "5" ++ "gb".
Proof.
  apply (extractProfileName_reads_the_last_mig_resource
           [("cpu", 100); ("nvidia.com/mig-3g.20gb", 1)] "nvidia.com/"
           "1" "5" 2); try reflexivity; discriminate.
Defined.

(** X4. Limits without a resource whose name contains [mig-] yield the
    empty profile name. *)
Theorem extractProfileName_without_mig_resource (limits : GoMap Z) :
  (forall kv, In kv limits -> Contains (fst kv) "mig-" = false) ->
  extractProfileName limits = "".
Proof.
  intros H. unfold extractProfileName.
  match goal with
  | |- fold_left ?f _ _ = _ =>
      enough (forall acc, fold_left f limits acc = acc) as E by apply E
  end.
  induction limits as [|kv limits IH]; intros acc; cbn [fold_left].
  - reflexivity.
  - rewrite (H kv (or_introl eq_refl)). apply IH.
    intros kv' Hin. apply H. now right.
Qed.

Lemma extractProfileName_without_mig_witness :
  extractProfileName [("cpu", 100); ("memory", 64)] = "".
Proof.
  apply extractProfileName_without_mig_resource.
  intros kv [<-|[<-|[]]]; reflexivity.
Defined.

(** *** extractGpuProfile *)

Lemma extractGpuProfile_fold_idle (items : list Mig) (profileName : string)
    (vars : Z * Z * Z * Z) :
  (forall item, In item items -> MigProfile item = profileName ->
                Placements item = []) ->
  fold_left
    (fun vars item =>
       if String.eqb (MigProfile item) profileName then
         match Placements item with
         | aPlacement :: _ =>
             (PlacementSize aPlacement, Giprofileid item, CIProfileID item,
              CIEngProfileID item)
         | [] => vars
         end
       else vars)
    items vars = vars.
Proof.
  revert vars. induction items as [|item items IH]; intros vars H;
    cbn [fold_left]; [reflexivity|].
  rewrite IH by (intros it Hit; apply H; now right).
  destruct (String.eqb_spec (MigProfile item) profileName) as [He|]; auto.
  now rewrite (H item (or_introl eq_refl) He).
Qed.

(** X5. [extractGpuProfile] answers with the last item of the placement
    table that carries the profile and has a placement: the size of that
    item's first placement and the item's three profile ids. An earlier
    item of the same profile is overwritten. *)
Theorem extractGpuProfile_last_item_decides
    (pre post : list Mig) (item : Mig) (placement : Placement)
    (rest : list Placement) (profileName : string) :
  MigProfile item = profileName ->
  Placements item = placement :: rest ->
  (forall later, In later post -> MigProfile later = profileName ->
                 Placements later = []) ->
  extractGpuProfile (pre ++ item :: post)%list profileName
  = (PlacementSize placement, Giprofileid item, CIProfileID item,
     CIEngProfileID item).
Proof.
  intros Hp Hpl Hpost. unfold extractGpuProfile.
  rewrite fold_left_app. cbn [fold_left].
  rewrite Hp, String.eqb_refl, Hpl.
  apply extractGpuProfile_fold_idle. exact Hpost.
Qed.

Lemma extractGpuProfile_witness :
  let small := {| MigProfile := "1g.5gb"; Giprofileid := 19;
                  CIProfileID := 0; CIEngProfileID := 0;
                  Placements := [{| PlacementSize := 1; PlacementStart := 0 |};
                                 {| PlacementSize := 1; PlacementStart := 1 |}] |} in
  let other := {| MigProfile := "1g.5gb"; Giprofileid := 20;
                  CIProfileID := 1; CIEngProfileID := 2;
                  Placements := [{| PlacementSize := 2; PlacementStart := 4 |}] |} in
  let big := {| MigProfile := "3g.20gb"; Giprofileid := 9;
                CIProfileID := 2; CIEngProfileID := 0;
                Placements := [{| PlacementSize := 4; PlacementStart := 0 |}] |} in
  extractGpuProfile ([small] ++ other :: [big])%list "1g.5gb"
  = (2, 20, 1, 2).
Proof.
  intros small other big.
  apply (extractGpuProfile_last_item_decides [small] [big] other
           {| PlacementSize := 2; PlacementStart := 4 |} [] "1g.5gb").
  - reflexivity.
  - reflexivity.
  - intros later [<-|[]] H. discriminate.
Defined.

(** X6. For a profile that no item of the placement table offers with a
    placement, [extractGpuProfile] answers four zeros: an unknown profile,
    also an empty table, is not told apart from a size of 0. *)
Theorem extractGpuProfile_unknown_profile
    (migplacement : list Mig) (profileName : string) :
  (forall item, In item migplacement -> MigProfile item = profileName ->
                Placements item = []) ->
  extractGpuProfile migplacement profileName = (0, 0, 0, 0).
Proof. apply extractGpuProfile_fold_idle. Qed.

Lemma extractGpuProfile_unknown_witness :
  extractGpuProfile
    [{| MigProfile := "3g.20gb"; Giprofileid := 9; CIProfileID := 2;
        CIEngProfileID := 0;
        Placements := [{| PlacementSize := 4; PlacementStart := 0 |}] |};
     {| MigProfile := "1g.5gb"; Giprofileid := 19; CIProfileID := 0;
        CIEngProfileID := 0; Placements := [] |}] "1g.5gb"
  = (0, 0, 0, 0).
Proof.
  apply extractGpuProfile_unknown_profile.
  intros item [<-|[<-|[]]] H; [discriminate | reflexivity].
Defined.

(** *** podMapFunc *)

Lemma podMapFunc_fold (entries : GoMap AllocationDetails)
    (requests : list NamespacedName) (r : NamespacedName) :
  In r
    (fold_left
       (fun requests entry =>
          let allocation := snd entry in
          if AllocationStatus_eqb (Allocationstatus allocation)
               AllocationStatusCreated
             || AllocationStatus_eqb (Allocationstatus allocation)
                  AllocationStatusDeleted
          then
            (requests
               ++ [{| nnNamespace := AllocNamespace allocation;
                      nnName := PodName allocation |}])%list
          else requests)
       entries requests)
  <-> In r requests
      \/ exists entry, In entry entries /\ wakesPod (snd entry)
           /\ r = {| nnNamespace := AllocNamespace (snd entry);
                     nnName := PodName (snd entry) |}.
Proof.
  revert requests. induction entries as [|e entries IH]; intros requests;
    cbn [fold_left].
  - split; [now left|]. intros [H|(entry & [] & _)]. exact H.
  - rewrite IH. cbv zeta.
    set (wakes := AllocationStatus_eqb (Allocationstatus (snd e))
                    AllocationStatusCreated
                  || AllocationStatus_eqb (Allocationstatus (snd e))
                       AllocationStatusDeleted).
    assert (Hw : wakes = true <-> wakesPod (snd e)).
    { unfold wakes, wakesPod.
      rewrite orb_true_iff, !AllocationStatus_eqb_eq. tauto. }
    destruct wakes; split.
    + intros [H | (entry & Hin & Hrest)].
      * apply in_app_or in H. destruct H as [H | [<- | []]]; [now left|].
        right. exists e. split; [now left|].
        split; [now apply Hw | reflexivity].
      * right. exists entry. split; [now right | exact Hrest].
    + intros [H | (entry & [<- | Hin] & Hwk & ->)].
      * left. apply in_or_app. now left.
      * left. apply in_or_app. right. now left.
      * right. exists entry. auto.
    + intros [H | (entry & Hin & Hrest)]; [now left|].
      right. exists entry. split; [now right | exact Hrest].
    + intros [H | (entry & [<- | Hin] & Hwk & ->)].
      * now left.
      * apply Hw in Hwk. discriminate.
      * right. exists entry. auto.
Qed.

(** X7. [podMapFunc] enqueues exactly the pods of the allocations whose
    status is [Created] or [Deleted], by the allocation's namespace and pod
    name; an allocation that is [Creating], [Ungated] or [Deleting] wakes no
    pod. *)
Theorem podMapFunc_wakes_created_and_deleted
    (instaslice : Instaslice) (r : NamespacedName) :
  In r (podMapFunc instaslice)
  <-> exists entry, In entry (Allocations instaslice)
        /\ wakesPod (snd entry)
        /\ r = {| nnNamespace := AllocNamespace (snd entry);
                  nnName := PodName (snd entry) |}.
Proof.
  unfold podMapFunc. rewrite podMapFunc_fold.
  split; [intros [[]|H]; exact H | intros H; now right].
Qed.

(** *** The health oracle *)

Lemma patternPodHealthy_iff (pattern : string) (items : list Pod) :
  patternPodHealthy pattern items = true
  <-> exists pre p post,
        items = (pre ++ p :: post)%list
        /\ (forall q, In q pre -> HasPrefix (Name q) pattern = false)
        /\ HasPrefix (Name p) pattern = true
        /\ fitPod p.
Proof.
  induction items as [|pod items IH]; cbn [patternPodHealthy].
  - split; [discriminate|]. intros (pre & p & post & H & _).
    destruct pre; discriminate.
  - destruct (HasPrefix (Name pod) pattern) eqn:Hpre.
    + split.
      * intros H. exists [], pod, items.
        split; [reflexivity|]. split; [intros q []|]. split; [exact Hpre|].
        destruct (PodPhase_eqb (Phase pod) PodRunning) eqn:Hph;
          [|discriminate].
        cbn [negb] in H. apply negb_true_iff in H.
        split; [now apply PodPhase_eqb_eq|].
        intros c Hc Hty.
        destruct (String.eqb_spec (Status c) ConditionTrue) as [|Hne]; auto.
        exfalso.
        assert (Hex : existsb
                        (fun condition =>
                           String.eqb (Type_ condition) PodReady
                           && negb (String.eqb (Status condition) ConditionTrue))
                        (Conditions pod) = true).
        { apply existsb_exists. exists c. split; [exact Hc|].
          rewrite Hty, String.eqb_refl.
          apply String.eqb_neq in Hne. now rewrite Hne. }
        congruence.
      * intros (pre & p & post & Heq & Hmiss & _ & Hrun & Hready).
        destruct pre as [|q pre]; cbn [app] in Heq.
        -- injection Heq as <- _.
           rewrite (proj2 (PodPhase_eqb_eq _ _) Hrun). cbn [negb].
           apply negb_true_iff.
           destruct (existsb _ (Conditions pod)) eqn:Hex; [|reflexivity].
           apply existsb_exists in Hex. destruct Hex as (c & Hc & Hbad).
           apply andb_prop in Hbad. destruct Hbad as (Hty & Hst).
           apply String.eqb_eq in Hty. apply negb_true_iff in Hst.
           apply String.eqb_neq in Hst. elim Hst. now apply Hready.
        -- injection Heq as <- _.
           rewrite (Hmiss pod (or_introl eq_refl)) in Hpre. discriminate.
    + rewrite IH. split.
      * intros (pre & p & post & -> & Hmiss & Hrest).
        exists (pod :: pre), p, post. split; [reflexivity|].
        split; [|exact Hrest].
        intros q [<-|Hq]; [exact Hpre | now apply Hmiss].
      * intros (pre & p & post & Heq & Hmiss & Hp & Hfit).
        destruct pre as [|q pre]; cbn [app] in Heq.
        -- injection Heq as <- _. congruence.
        -- injection Heq as <- ->. exists pre, p, post.
           split; [reflexivity|]. split; [|now split].
           intros q' Hq'. apply Hmiss. now right.
Qed.

(** X8. [isPatternPodRunningAndHealthy] always answers, writes nothing,
    records its query and makes one API call, the list call. Its error is
    the fate of that call: when the list call fails it answers unhealthy
    with the call's error, and when the list call succeeds it answers
    without error. In that case it answers healthy exactly when the first
    pod of the namespace whose name starts with the pattern is running and
    reports no [Ready] condition other than [True]: later pods of that name
    are not looked at, and no such pod at all means unhealthy. *)
Theorem isPatternPodRunningAndHealthy_first_match_decides
    (pattern namespace : string) (w : World) :
  exists healthy w',
    isPatternPodRunningAndHealthy pattern namespace w
    = (Next (healthy, if hd false (faults w) then Some ErrApi else None), w')
    /\ fst (List_Pods namespace (record w (HealthQuery pattern namespace)))
       = Next (if hd false (faults w) then [] else
                 filter (fun q => String.eqb (Namespace q) namespace) (pods w),
               if hd false (faults w) then Some ErrApi else None)
    /\ trace w' = (trace w ++ [HealthQuery pattern namespace])%list
    /\ pods w' = pods w /\ instaslices w' = instaslices w
    /\ clock w' = clock w /\ dice w' = dice w
    /\ faults w' = tl (faults w)
    /\ (hd false (faults w) = true -> healthy = false)
    /\ (hd false (faults w) = false ->
        (healthy = true
         <-> exists pre p post,
               filter (fun q => String.eqb (Namespace q) namespace) (pods w)
               = (pre ++ p :: post)%list
               /\ (forall q, In q pre -> HasPrefix (Name q) pattern = false)
               /\ HasPrefix (Name p) pattern = true
               /\ fitPod p)).
Proof.
  unfold isPatternPodRunningAndHealthy, bind, effect, List_Pods, bind,
    nextFault.
  cbn [record faults].
  destruct (faults w) as [|[|] f] eqn:Hf; cbn [hd tl ret fst].
  - exists (patternPodHealthy pattern
              (filter (fun q => String.eqb (Namespace q) namespace) (pods w))),
      (record w (HealthQuery pattern namespace)).
    cbn [record pods instaslices clock dice faults trace].
    repeat (split; [reflexivity|]).
    split; [exact Hf|]. split; [discriminate|].
    intros _. apply patternPodHealthy_iff.
  - exists false,
      (setFaults (record w (HealthQuery pattern namespace)) f).
    cbn [setFaults record pods instaslices clock dice faults trace].
    repeat (split; [reflexivity|]). discriminate.
  - exists (patternPodHealthy pattern
              (filter (fun q => String.eqb (Namespace q) namespace) (pods w))),
      (setFaults (record w (HealthQuery pattern namespace)) f).
    cbn [setFaults record pods instaslices clock dice faults trace].
    repeat (split; [reflexivity|]).
    split; [discriminate|].
    intros _. apply patternPodHealthy_iff.
Qed.

(** *** The helpers that write one record or one pod *)

Lemma map_get_set_other {V : Type} (m : GoMap V) (k k' : string) (v : V) :
  k' <> k -> map_get (map_set m k v) k' = map_get m k'.
Proof.
  intros Hne. induction m as [|[k0 v0] m IH]; cbn [map_set map_get].
  - replace (String.eqb k k') with false; [reflexivity|].
    symmetry. apply String.eqb_neq. congruence.
  - destruct (String.eqb_spec k0 k) as [->|H0]; cbn [map_get].
    + replace (String.eqb k k') with false; [reflexivity|].
      symmetry. apply String.eqb_neq. congruence.
    + destruct (String.eqb k0 k'); [reflexivity | exact IH].
Qed.

Lemma map_get_delete {V : Type} (m : GoMap V) (k : string) :
  map_get (map_delete m k) k = None.
Proof.
  unfold map_delete. induction m as [|[k0 v0] m IH]; cbn [filter map_get fst].
  - reflexivity.
  - destruct (String.eqb k0 k) eqn:E; cbn [negb map_get]; [exact IH|].
    rewrite E. exact IH.
Qed.

Lemma map_get_delete_other {V : Type} (m : GoMap V) (k k' : string) :
  k' <> k -> map_get (map_delete m k) k' = map_get m k'.
Proof.
  intros Hne. unfold map_delete.
  induction m as [|[k0 v0] m IH]; cbn [filter map_get fst]; [reflexivity|].
  destruct (String.eqb_spec k0 k) as [->|H0]; cbn [negb map_get].
  - replace (String.eqb k k') with false; [exact IH|].
    symmetry. apply String.eqb_neq. congruence.
  - destruct (String.eqb k0 k'); [reflexivity | exact IH].
Qed.

(** A read that succeeds yields a stored object of the key asked for. *)
Lemma Get_Instaslice_found (key : NamespacedName) (i : Instaslice)
    (w w' : World) :
  Get_Instaslice key w = (Next (i, None), w') -> keyOfInstaslice i = key.
Proof.
  unfold Get_Instaslice, bind.
  destruct (nextFault w) as [[b| |] v]; try discriminate.
  destruct b; [discriminate|].
  destruct (find (sameInstaslice key) (instaslices v)) as [j|] eqn:Hf;
    [|discriminate].
  intros H. injection H as <- _.
  apply find_some in Hf. destruct Hf as (_ & Hs).
  unfold sameInstaslice in Hs. apply andb_prop in Hs. destruct Hs as (Hn & Hm).
  apply String.eqb_eq in Hn, Hm. destruct key. unfold keyOfInstaslice.
  cbn in *. congruence.
Qed.

Lemma Get_Pod_found (key : NamespacedName) (p : Pod) (w w' : World) :
  Get_Pod key w = (Next (p, None), w') -> keyOfPod p = key.
Proof.
  unfold Get_Pod, bind.
  destruct (nextFault w) as [[b| |] v]; try discriminate.
  destruct b; [discriminate|].
  destruct (find (samePod key) (pods v)) as [q|] eqn:Hf; [|discriminate].
  intros H. injection H as <- _.
  apply find_some in Hf. destruct Hf as (_ & Hs).
  unfold samePod in Hs. apply andb_prop in Hs. destruct Hs as (Hn & Hm).
  apply String.eqb_eq in Hn, Hm. destruct key. unfold keyOfPod.
  cbn in *. congruence.
Qed.

(** A write of a pod that succeeds is recorded, leaves the inventory alone
    and is what a later read of that key yields. *)
Lemma Update_Pod_ok (p : Pod) (w w' : World) :
  Update_Pod p w = (Next None, w') ->
  trace w' = (trace w ++ [UpdatePod p true])%list
  /\ instaslices w' = instaslices w
  /\ find (samePod (keyOfPod p)) (pods w') = Some p.
Proof.
  unfold Update_Pod, bind.
  destruct (nextFault_quiet w) as (b & Hb & Hq).
  destruct Hq as (Hp & Hi & _ & _ & Ht).
  rewrite Hb. destruct b; cbn [effect ret]; [discriminate|].
  destruct (existsb (samePod (keyOfPod p)) (pods (snd (nextFault w))))
    eqn:Hex; [|discriminate].
  intros H. injection H as <-. cbn. rewrite Ht, Hi.
  repeat split. apply find_replaced; [|exact Hex].
  unfold samePod, keyOfPod. cbn. now rewrite !String.eqb_refl.
Qed.

(** X9. [deleteInstasliceAllocation], when the read and the write succeed,
    returns done and nil, and the record of that name in namespace
    [default] then holds no entry under the allocation's [PodUUID]. The
    entries under every other key, so also the allocation itself when it is
    filed under another key than its [PodUUID], stay as read. *)
Theorem deleteInstasliceAllocation_removes_the_entry
    (instasliceName : string) (allocation : AllocationDetails)
    (stored : Instaslice) (w wg w3 : World) :
  Get_Instaslice (defaultKey instasliceName) w = (Next (stored, None), wg) ->
  Update_Instaslice
    (setAllocations stored
       (map_delete (Allocations stored) (PodUUID allocation))) wg
  = (Next None, w3) ->
  deleteInstasliceAllocation instasliceName allocation w
  = (Next (done, None), w3)
  /\ exists written,
       find (sameInstaslice (defaultKey instasliceName)) (instaslices w3)
       = Some written
       /\ map_get (Allocations written) (PodUUID allocation) = None
       /\ (forall k, k <> PodUUID allocation ->
             map_get (Allocations written) k = map_get (Allocations stored) k)
       /\ Prepared written = Prepared stored.
Proof.
  intros HGet HUpd. split.
  - unfold deleteInstasliceAllocation, bind. rewrite HGet, HUpd. reflexivity.
  - destruct (Update_Instaslice_ok _ _ _ HUpd) as (_ & _ & Hf).
    pose proof (Get_Instaslice_found _ _ _ _ HGet) as Hkey.
    eexists. split.
    + rewrite <- Hkey. exact Hf.
    + cbn [Allocations Prepared setAllocations].
      split; [apply map_get_delete|].
      split; [|reflexivity].
      intros k Hk. now apply map_get_delete_other.
Qed.

(** X10. [setInstasliceAllocationToDeleting], when the read and the write
    succeed and the record read has allocations, returns done and nil, and
    the record of that name in the operator's namespace then holds the
    given allocation under [podUUID] with status [Deleting] and its other
    fields as given; the entries under every other key stay as read. *)
Theorem setInstasliceAllocationToDeleting_marks_the_entry
    (operatorNamespace instasliceName podUUID : string)
    (allocation : AllocationDetails) (stored : Instaslice) (w wg w3 : World) :
  Get_Instaslice (operatorKey operatorNamespace instasliceName) w
  = (Next (stored, None), wg) ->
  Allocations stored <> [] ->
  Update_Instaslice
    (setAllocations stored
       (map_set (Allocations stored) podUUID
          (setAllocationstatus allocation AllocationStatusDeleting))) wg
  = (Next None, w3) ->
  setInstasliceAllocationToDeleting operatorNamespace instasliceName podUUID
    allocation w
  = (Next (done, None), w3)
  /\ exists written,
       find (sameInstaslice (operatorKey operatorNamespace instasliceName))
         (instaslices w3) = Some written
       /\ map_get (Allocations written) podUUID
          = Some (setAllocationstatus allocation AllocationStatusDeleting)
       /\ (forall k, k <> podUUID ->
             map_get (Allocations written) k = map_get (Allocations stored) k)
       /\ Prepared written = Prepared stored.
Proof.
  intros HGet Hnonnil HUpd. split.
  - unfold setInstasliceAllocationToDeleting. cbv zeta.
    unfold bind at 1. rewrite HGet. unfold assignEntry.
    destruct (Allocations stored) as [|kv m] eqn:Hm; [congruence|].
    unfold liftGo. unfold bind at 1. unfold ret at 1.
    unfold bind at 1. rewrite HUpd. reflexivity.
  - destruct (Update_Instaslice_ok _ _ _ HUpd) as (_ & _ & Hf).
    pose proof (Get_Instaslice_found _ _ _ _ HGet) as Hkey.
    eexists. split.
    + rewrite <- Hkey. exact Hf.
    + cbn [Allocations Prepared setAllocations].
      split; [apply map_get_set|].
      split; [|reflexivity].
      intros k Hk. now apply map_get_set_other.
Qed.

Lemma removed_flag (finalizer : string) (l : list string) :
  negb (length (filter (fun x => negb (String.eqb x finalizer)) l)
        =? length l)%nat
  = existsb (String.eqb finalizer) l.
Proof.
  induction l as [|x l IH]; cbn [filter existsb length]; [reflexivity|].
  rewrite (String.eqb_sym finalizer x).
  destruct (String.eqb x finalizer); cbn [negb orb length].
  - replace (length (filter (fun x => negb (String.eqb x finalizer)) l)
             =? S (length l))%nat with false; [reflexivity|].
    symmetry. apply Nat.eqb_neq.
    pose proof (filter_length_le (fun x => negb (String.eqb x finalizer)) l).
    lia.
  - exact IH.
Qed.

Lemma removed_finalizer_absent (finalizer : string) (l : list string) :
  existsb (String.eqb finalizer)
    (filter (fun x => negb (String.eqb x finalizer)) l) = false.
Proof.
  induction l as [|x l IH]; cbn [filter existsb]; [reflexivity|].
  destruct (String.eqb x finalizer) eqn:E; cbn [negb existsb]; [exact IH|].
  rewrite String.eqb_sym, E. exact IH.
Qed.

Lemma removed_finalizer_others (finalizer other : string) (l : list string) :
  other <> finalizer ->
  existsb (String.eqb other)
    (filter (fun x => negb (String.eqb x finalizer)) l)
  = existsb (String.eqb other) l.
Proof.
  intros Hne. induction l as [|x l IH]; cbn [filter existsb]; [reflexivity|].
  destruct (String.eqb_spec x finalizer) as [->|Hx]; cbn [negb existsb].
  - rewrite IH. apply String.eqb_neq in Hne. now rewrite Hne.
  - now rewrite IH.
Qed.

(** X11. [removeInstaSliceFinalizer], when the read and the write of the
    pod succeed, returns done and nil after one write: the pod as read,
    under the request's key, without the finalizer and with every other
    finalizer it carried. The write is sent also when the pod read did not
    carry the finalizer. The inventory is left alone. *)
Theorem removeInstaSliceFinalizer_releases_the_pod
    (finalizerName : string) (req : NamespacedName) (latestPod : Pod)
    (w wg w3 : World) :
  Get_Pod req w = (Next (latestPod, None), wg) ->
  Update_Pod (fst (RemoveFinalizer latestPod finalizerName)) wg
  = (Next None, w3) ->
  removeInstaSliceFinalizer finalizerName req w = (Next (done, None), w3)
  /\ trace w3
     = (trace w
        ++ [UpdatePod (fst (RemoveFinalizer latestPod finalizerName)) true])%list
  /\ instaslices w3 = instaslices w
  /\ keyOfPod (fst (RemoveFinalizer latestPod finalizerName)) = req
  /\ ContainsFinalizer (fst (RemoveFinalizer latestPod finalizerName))
       finalizerName = false
  /\ (forall other, other <> finalizerName ->
        ContainsFinalizer (fst (RemoveFinalizer latestPod finalizerName)) other
        = ContainsFinalizer latestPod other)
  /\ fst (RemoveFinalizer latestPod finalizerName)
     = setFinalizers latestPod
         (Finalizers (fst (RemoveFinalizer latestPod finalizerName))).
Proof.
  intros HGet HUpd.
  destruct (Update_Pod_ok _ _ _ HUpd) as (Ht & Hi & _).
  pose proof (Get_Pod_found _ _ _ _ HGet) as Hkey.
  destruct (Get_Pod_quiet req w) as (p0 & e0 & _ & Hq).
  rewrite HGet in Hq. cbn [snd] in Hq.
  destruct Hq as (_ & Hiq & _ & _ & Htq).
  split.
  { unfold removeInstaSliceFinalizer, bind. rewrite HGet, HUpd. reflexivity. }
  split; [rewrite Ht, Htq; reflexivity|].
  split; [rewrite Hi, Hiq; reflexivity|].
  split; [exact Hkey|].
  unfold ContainsFinalizer, RemoveFinalizer.
  cbn [fst Finalizers setFinalizers].
  split; [apply removed_finalizer_absent|].
  split; [|reflexivity].
  intros other Hne. now apply removed_finalizer_others.
Qed.

(* ===================================================================== *)
(** ** Further branches of Reconcile *)
(* ===================================================================== *)

Section Branches.

Variable gateName : string.
Variable finalizerName : string.
Variable NodeLabel : string.
Variable instaSliceOperatorNamespace : string.
Variable findNodeAndDeviceForASlice :
  Instaslice -> string -> Pod -> option AllocationDetails.

Local Abbreviation run :=
  (Reconcile gateName finalizerName NodeLabel instaSliceOperatorNamespace
     findNodeAndDeviceForASlice).
Local Abbreviation runFound :=
  (reconcileFound gateName finalizerName NodeLabel
     instaSliceOperatorNamespace findNodeAndDeviceForASlice).
Local Abbreviation runBranches :=
  (reconcileBranches gateName finalizerName NodeLabel
     instaSliceOperatorNamespace findNodeAndDeviceForASlice).

(** The pass up to the pod it found. *)
Lemma run_found (req : NamespacedName) (w w1 w2 : World)
    (items : list Instaslice) (lerr : option error) (pod : Pod) :
  List_Instaslice w = (Next (items, lerr), w1) ->
  Get_Pod req w1 = (Next (pod, None), w2) ->
  run req w = runFound req items pod w2 /\ quiet w w2.
Proof.
  apply (Reconcile_found gateName finalizerName NodeLabel
           instaSliceOperatorNamespace findNodeAndDeviceForASlice).
Qed.

(** *** The pods that are left alone *)

(** X12. A pod that carries a scheduling gate other than the system's is
    left alone: the pass returns done with no requeue and no write, also
    when the pod carries the system's gate beside it, and before the pod's
    status conditions are ever read. *)
Theorem pod_gated_by_others_is_left_alone
    (req : NamespacedName) (w w1 w2 : World) (items : list Instaslice)
    (lerr : option error) (pod : Pod) (other : string) :
  List_Instaslice w = (Next (items, lerr), w1) ->
  Get_Pod req w1 = (Next (pod, None), w2) ->
  In other (SchedulingGates pod) ->
  other <> gateName ->
  run req w = (Ret done None, w2) /\ quiet w w2.
Proof.
  intros HL HG Hin Hne.
  destruct (run_found req w w1 w2 items lerr pod HL HG) as (-> & Hq).
  split; [|exact Hq]. unfold reconcileFound.
  replace (isPodGatedByOthers gateName pod) with true; [reflexivity|].
  symmetry. apply existsb_exists. exists other. split; [exact Hin|].
  apply negb_true_iff. now apply String.eqb_neq.
Qed.

(** X13. A pod that this system does not gate and that does not carry the
    finalizer is not this system's: the pass returns done with no requeue
    and no write, whatever the pod's phase, deletion timestamp and
    allocations are. *)
Theorem foreign_pod_is_ignored
    (req : NamespacedName) (w w1 w2 : World) (items : list Instaslice)
    (lerr : option error) (pod : Pod) :
  List_Instaslice w = (Next (items, lerr), w1) ->
  Get_Pod req w1 = (Next (pod, None), w2) ->
  checkIfPodGatedByInstaSlice gateName pod = Returns false ->
  ContainsFinalizer pod finalizerName = false ->
  run req w = (Ret done None, w2) /\ quiet w w2.
Proof.
  intros HL HG Hgated Hfin.
  destruct (run_found req w w1 w2 items lerr pod HL HG) as (-> & Hq).
  split; [|exact Hq]. unfold reconcileFound.
  destruct (isPodGatedByOthers gateName pod); [reflexivity|].
  rewrite Hgated. unfold bind, liftGo, ret. rewrite Hfin. reflexivity.
Qed.

(** X14. The out-of-bounds read of [checkIfPodGatedByInstaSlice] takes the
    pass with it: for a pending pod that carries the system's gate and no
    other and has no status condition, [Reconcile] panics, before any
    write. *)
Theorem pass_panics_on_pending_gated_pod_without_condition
    (req : NamespacedName) (w w1 w2 : World) (items : list Instaslice)
    (lerr : option error) (pod : Pod) :
  List_Instaslice w = (Next (items, lerr), w1) ->
  Get_Pod req w1 = (Next (pod, None), w2) ->
  In gateName (SchedulingGates pod) ->
  (forall gate, In gate (SchedulingGates pod) -> gate = gateName) ->
  Phase pod = PodPending ->
  Conditions pod = [] ->
  (exists msg, run req w = (Panic msg, w2)) /\ quiet w w2.
Proof.
  intros HL HG Hin Hall Hph Hc.
  destruct (run_found req w w1 w2 items lerr pod HL HG) as (-> & Hq).
  split; [|exact Hq]. unfold reconcileFound.
  replace (isPodGatedByOthers gateName pod) with false.
  - destruct (proj2 (checkGates_panics gateName pod (SchedulingGates pod))
                (conj Hin (conj Hph Hc))) as (msg & Hmsg).
    exists msg. unfold checkIfPodGatedByInstaSlice. rewrite Hmsg. reflexivity.
  - symmetry. unfold isPodGatedByOthers.
    destruct (existsb _ (SchedulingGates pod)) eqn:E; [|reflexivity].
    apply existsb_exists in E. destruct E as (g & Hg & Hneq).
    apply negb_true_iff in Hneq. apply String.eqb_neq in Hneq.
    elim Hneq. now apply Hall.
Qed.

(** X15. A read of the pod that fails with another error than not-found
    ends the pass: it returns done with nil error, so no requeue is asked
    for, and nothing is written. *)
Theorem pod_read_failure_ends_the_pass
    (req : NamespacedName) (w w1 w2 : World) (items : list Instaslice)
    (lerr : option error) (pod : Pod) (e : error) :
  List_Instaslice w = (Next (items, lerr), w1) ->
  Get_Pod req w1 = (Next (pod, Some e), w2) ->
  e <> ErrNotFound ->
  run req w = (Ret done None, w2) /\ quiet w w2.
Proof.
  intros HL HG He. split.
  - unfold Reconcile, bind. rewrite HL, HG.
    destruct e; [congruence | reflexivity | reflexivity].
  - destruct (List_Instaslice_quiet w) as (i & e1 & H1 & Hq1 & _).
    destruct (Get_Pod_quiet req w1) as (p & e2 & H2 & Hq2).
    rewrite HL in Hq1. rewrite HG in Hq2. cbn [snd] in Hq1, Hq2.
    exact (quiet_trans _ _ _ Hq1 Hq2).
Qed.

(** *** Scans with one allocation of interest *)

(** The scan returns where the body returns, when the body passes over
    everything that [range] visits before. *)
Lemma scan_returns_at {S : Type}
    (body : Instaslice -> string * AllocationDetails -> S -> M S)
    (items pre post : list Instaslice) (inst : Instaslice)
    (apre apost : GoMap AllocationDetails) (e : string * AllocationDetails)
    (s : S) (w w' : World) (res : Result) (err : option error) :
  items = (pre ++ inst :: post)%list ->
  Allocations inst = (apre ++ e :: apost)%list ->
  (forall i x, In i pre -> In x (Allocations i) ->
               body i x s w = (Next s, w)) ->
  (forall x, In x apre -> body inst x s w = (Next s, w)) ->
  body inst e s w = (Ret res err, w') ->
  forRange items (fun i => forRange (Allocations i) (body i)) s w
  = (Ret res err, w').
Proof.
  intros -> Ha Hpre Hapre Hhit.
  rewrite forRange_app. unfold bind. rewrite forRange_skip.
  2:{ intros i Hi. apply forRange_skip. intros x Hx. now apply Hpre. }
  cbn [forRange]. unfold bind. rewrite Ha, forRange_app. unfold bind.
  rewrite forRange_skip by exact Hapre.
  cbn [forRange]. unfold bind. rewrite Hhit. reflexivity.
Qed.

(** The scan ends where the body left off at the one allocation that it
    does not pass over. *)
Lemma scan_passes_through {S : Type}
    (body : Instaslice -> string * AllocationDetails -> S -> M S)
    (items pre post : list Instaslice) (inst : Instaslice)
    (apre apost : GoMap AllocationDetails) (e : string * AllocationDetails)
    (s s' : S) (w w' : World) :
  items = (pre ++ inst :: post)%list ->
  Allocations inst = (apre ++ e :: apost)%list ->
  (forall i x, In i pre -> In x (Allocations i) ->
               body i x s w = (Next s, w)) ->
  (forall x, In x apre -> body inst x s w = (Next s, w)) ->
  body inst e s w = (Next s', w') ->
  (forall x, In x apost -> body inst x s' w' = (Next s', w')) ->
  (forall i x, In i post -> In x (Allocations i) ->
               body i x s' w' = (Next s', w')) ->
  forRange items (fun i => forRange (Allocations i) (body i)) s w
  = (Next s', w').
Proof.
  intros -> Ha Hpre Hapre Hhit Hapost Hpost.
  rewrite forRange_app. unfold bind. rewrite forRange_skip.
  2:{ intros i Hi. apply forRange_skip. intros x Hx. now apply Hpre. }
  cbn [forRange]. unfold bind. rewrite Ha, forRange_app. unfold bind.
  rewrite forRange_skip by exact Hapre.
  cbn [forRange]. unfold bind. rewrite Hhit.
  rewrite forRange_skip by exact Hapost.
  apply forRange_skip. intros i Hi. apply forRange_skip.
  intros x Hx. now apply Hpost.
Qed.

(** *** Terminal phases *)

Lemma failedAllocation_other (pod : Pod) (i : Instaslice)
    (x : string * AllocationDetails) (st : bool) (v : World) :
  PodUUID (snd x) <> UID pod ->
  failedAllocation instaSliceOperatorNamespace pod i x st v = (Next st, v).
Proof.
  intros H. unfold failedAllocation. cbv zeta.
  replace (String.eqb (UID pod) (PodUUID (snd x))) with false; [reflexivity|].
  symmetry. apply String.eqb_neq. congruence.
Qed.

Lemma succeededAllocation_other (pod : Pod) (i : Instaslice)
    (x : string * AllocationDetails) (st : bool) (v : World) :
  PodUUID (snd x) <> UID pod ->
  succeededAllocation instaSliceOperatorNamespace pod i x st v = (Next st, v).
Proof.
  intros H. unfold succeededAllocation. cbv zeta.
  apply String.eqb_neq in H. rewrite H. reflexivity.
Qed.

(** A pod in a terminal phase with the finalizer and no foreign gate is
    handled by the scan of its phase. *)
Lemma run_terminal (req : NamespacedName) (items : list Instaslice)
    (pod : Pod) (v : World) :
  isPodGatedByOthers gateName pod = false ->
  ContainsFinalizer pod finalizerName = true ->
  Phase pod = PodFailed \/ Phase pod = PodSucceeded ->
  runFound req items pod v
  = (if PodPhase_eqb (Phase pod) PodFailed
     then reconcileFailed finalizerName instaSliceOperatorNamespace items pod
     else reconcileSucceeded finalizerName instaSliceOperatorNamespace
            items pod) v.
Proof.
  intros Hothers Hfin Hph.
  rewrite (passFound_not_gated gateName finalizerName NodeLabel
             instaSliceOperatorNamespace findNodeAndDeviceForASlice);
    auto.
  - unfold reconcileBranches. rewrite Hfin.
    destruct Hph as [-> | ->]; reflexivity.
  - apply checkGates_not_pending. destruct Hph as [-> | ->]; discriminate.
Qed.

(** X16. A failed or succeeded pod with the finalizer and no listed
    allocation that names its UID: the pass writes the pod without the
    finalizer. It returns done when that write succeeds and retry-now when
    it fails, and it writes no inventory record. *)
Theorem terminal_pod_without_allocation_releases_the_finalizer
    (req : NamespacedName) (w w1 w2 : World) (items : list Instaslice)
    (lerr : option error) (pod : Pod) :
  List_Instaslice w = (Next (items, lerr), w1) ->
  Get_Pod req w1 = (Next (pod, None), w2) ->
  isPodGatedByOthers gateName pod = false ->
  ContainsFinalizer pod finalizerName = true ->
  Phase pod = PodFailed \/ Phase pod = PodSucceeded ->
  (forall inst e, In inst items -> In e (Allocations inst) ->
                  PodUUID (snd e) <> UID pod) ->
  exists err w3,
    Update_Pod (fst (RemoveFinalizer pod finalizerName)) w2 = (Next err, w3)
    /\ run req w
       = (Ret (match err with None => done | Some _ => retryNow end) None, w3)
    /\ ContainsFinalizer (fst (RemoveFinalizer pod finalizerName))
         finalizerName = false
    /\ instaslices w3 = instaslices w
    /\ trace w3
       = (trace w
          ++ [UpdatePod (fst (RemoveFinalizer pod finalizerName))
                (match err with None => true | Some _ => false end)])%list.
Proof.
  intros HL HG Hothers Hfin Hph Hnone.
  destruct (run_found req w w1 w2 items lerr pod HL HG) as (-> & Hq).
  rewrite (run_terminal req items pod w2 Hothers Hfin Hph).
  destruct (Update_Pod_next (fst (RemoveFinalizer pod finalizerName)) w2)
    as (err & HU & Ht & Hi).
  exists err, (snd (Update_Pod (fst (RemoveFinalizer pod finalizerName)) w2)).
  split; [exact HU|].
  assert (Hflag : snd (RemoveFinalizer pod finalizerName) = true).
  { unfold RemoveFinalizer. cbn [snd]. rewrite removed_flag. exact Hfin. }
  split.
  - destruct (PodPhase_eqb (Phase pod) PodFailed).
    + unfold reconcileFailed, bind. rewrite forRange_skip.
      2:{ intros i Hi'. apply forRange_skip. intros x Hx.
          apply failedAllocation_other. now apply (Hnone i x). }
      unfold releaseFinalizer. rewrite Hflag. cbn [andb]. unfold bind.
      rewrite HU. destruct err; reflexivity.
    + unfold reconcileSucceeded, bind. rewrite forRange_skip.
      2:{ intros i Hi'. apply forRange_skip. intros x Hx.
          apply succeededAllocation_other. now apply (Hnone i x). }
      unfold releaseFinalizer. rewrite Hflag. cbn [andb]. unfold bind.
      rewrite HU. destruct err; reflexivity.
  - split.
    { unfold ContainsFinalizer, RemoveFinalizer.
      cbn [fst Finalizers setFinalizers]. apply removed_finalizer_absent. }
    split.
    { rewrite Hi. apply Hq. }
    rewrite Ht. destruct Hq as (_ & _ & _ & _ & ->).
    destruct err; reflexivity.
Qed.

(** X17. A failed or succeeded pod with the finalizer whose first listed
    allocation naming its UID is [Deleted]: when the read and the write of
    the record in namespace [default] succeed, the pass removes the entry
    under the allocation's [PodUUID], leaves the pod and its finalizer as
    they are and returns retry-after-delay(2s). *)
Theorem terminal_pod_with_deleted_allocation_removes_the_entry
    (req : NamespacedName) (w w1 w2 wg w3 : World)
    (items pre post : list Instaslice) (inst stored : Instaslice)
    (apre apost : GoMap AllocationDetails) (e : string * AllocationDetails)
    (lerr : option error) (pod : Pod) :
  List_Instaslice w = (Next (items, lerr), w1) ->
  Get_Pod req w1 = (Next (pod, None), w2) ->
  isPodGatedByOthers gateName pod = false ->
  ContainsFinalizer pod finalizerName = true ->
  Phase pod = PodFailed \/ Phase pod = PodSucceeded ->
  items = (pre ++ inst :: post)%list ->
  Allocations inst = (apre ++ e :: apost)%list ->
  (forall i x, In i pre -> In x (Allocations i) ->
               PodUUID (snd x) <> UID pod) ->
  (forall x, In x apre -> PodUUID (snd x) <> UID pod) ->
  PodUUID (snd e) = UID pod ->
  Allocationstatus (snd e) = AllocationStatusDeleted ->
  Get_Instaslice (defaultKey (InstasliceName inst)) w2
  = (Next (stored, None), wg) ->
  Update_Instaslice
    (setAllocations stored (map_delete (Allocations stored) (UID pod))) wg
  = (Next None, w3) ->
  run req w = (Ret (retryAfter (2 * Second)) None, w3)
  /\ trace w3
     = (trace w
        ++ [UpdateInstaslice
              (setAllocations stored
                 (map_delete (Allocations stored) (UID pod))) true])%list
  /\ pods w3 = pods w
  /\ exists written,
       find (sameInstaslice (defaultKey (InstasliceName inst)))
         (instaslices w3) = Some written
       /\ map_get (Allocations written) (UID pod) = None.
Proof.
  intros HL HG Hothers Hfin Hph Hitems Hallocs Hpre Hapre Huid Hst HGet HUpd.
  destruct (run_found req w w1 w2 items lerr pod HL HG) as (-> & Hq).
  destruct (Update_Instaslice_ok _ _ _ HUpd) as (Ht3 & Hp3 & Hf3).
  pose proof (Get_Instaslice_quiet (defaultKey (InstasliceName inst)) w2)
    as Hqg.
  rewrite HGet in Hqg. cbn [snd] in Hqg.
  pose proof (Get_Instaslice_found _ _ _ _ HGet) as Hkey.
  assert (Hdel : forall v,
            v = w2 ->
            removeInstasliceAllocation (InstasliceName inst) (snd e) v
            = (Next (done, None), w3)).
  { intros v ->. unfold removeInstasliceAllocation. rewrite Hst.
    cbn [AllocationStatus_eqb]. unfold bind at 1.
    unfold deleteInstasliceAllocation, bind.
    rewrite HGet, Huid, HUpd. reflexivity. }
  split.
  - rewrite (run_terminal req items pod w2 Hothers Hfin Hph).
    destruct (PodPhase_eqb (Phase pod) PodFailed).
    + unfold reconcileFailed, bind.
      rewrite (scan_returns_at _ items pre post inst apre apost e true w2 w3
                 (retryAfter (2 * Second)) None Hitems Hallocs);
        [reflexivity | | |].
      * intros i x Hi Hx. apply failedAllocation_other. now apply (Hpre i x).
      * intros x Hx. apply failedAllocation_other. now apply Hapre.
      * unfold failedAllocation. cbv zeta.
        rewrite Huid, String.eqb_refl, Hst. cbn [AllocationStatus_eqb orb].
        unfold bind. rewrite (Hdel w2 eq_refl). reflexivity.
    + unfold reconcileSucceeded, bind.
      rewrite (scan_returns_at _ items pre post inst apre apost e true w2 w3
                 (retryAfter (2 * Second)) None Hitems Hallocs);
        [reflexivity | | |].
      * intros i x Hi Hx. apply succeededAllocation_other.
        now apply (Hpre i x).
      * intros x Hx. apply succeededAllocation_other. now apply Hapre.
      * unfold succeededAllocation. cbv zeta.
        rewrite Huid, String.eqb_refl, Hst.
        cbn [AllocationStatus_eqb negb].
        unfold bind. rewrite (Hdel w2 eq_refl). reflexivity.
  - split.
    { rewrite Ht3. destruct Hqg as (_ & _ & _ & _ & ->).
      destruct Hq as (_ & _ & _ & _ & ->). reflexivity. }
    split.
    { rewrite Hp3. destruct Hqg as (-> & _). apply Hq. }
    eexists. split.
    + rewrite <- Hkey. exact Hf3.
    + cbn [Allocations setAllocations]. apply map_get_delete.
Qed.

(** X18. A failed pod whose first listed allocation naming its UID is
    [Created] or [Ungated], and a succeeded pod whose first such allocation
    has any status but [Deleted]: when the read and the write of the record
    succeed, the pass writes the allocation as [Deleting] under the pod's
    UID and returns done; the finalizer stays. *)
Theorem terminal_pod_allocation_is_marked_deleting
    (req : NamespacedName) (w w1 w2 wg w3 : World)
    (items pre post : list Instaslice) (inst stored : Instaslice)
    (apre apost : GoMap AllocationDetails) (e : string * AllocationDetails)
    (lerr : option error) (pod : Pod) :
  List_Instaslice w = (Next (items, lerr), w1) ->
  Get_Pod req w1 = (Next (pod, None), w2) ->
  isPodGatedByOthers gateName pod = false ->
  ContainsFinalizer pod finalizerName = true ->
  (Phase pod = PodFailed
   /\ (Allocationstatus (snd e) = AllocationStatusCreated
       \/ Allocationstatus (snd e) = AllocationStatusUngated))
  \/ (Phase pod = PodSucceeded
      /\ Allocationstatus (snd e) <> AllocationStatusDeleted) ->
  items = (pre ++ inst :: post)%list ->
  Allocations inst = (apre ++ e :: apost)%list ->
  (forall i x, In i pre -> In x (Allocations i) ->
               PodUUID (snd x) <> UID pod) ->
  (forall x, In x apre -> PodUUID (snd x) <> UID pod) ->
  PodUUID (snd e) = UID pod ->
  Get_Instaslice
    (operatorKey instaSliceOperatorNamespace (InstasliceName inst)) w2
  = (Next (stored, None), wg) ->
  Allocations stored <> [] ->
  Update_Instaslice
    (setAllocations stored
       (map_set (Allocations stored) (UID pod)
          (setAllocationstatus (snd e) AllocationStatusDeleting))) wg
  = (Next None, w3) ->
  run req w = (Ret done None, w3)
  /\ trace w3
     = (trace w
        ++ [UpdateInstaslice
              (setAllocations stored
                 (map_set (Allocations stored) (UID pod)
                    (setAllocationstatus (snd e) AllocationStatusDeleting)))
              true])%list
  /\ pods w3 = pods w.
Proof.
  intros HL HG Hothers Hfin Hcase Hitems Hallocs Hpre Hapre Huid
         HGet Hnonnil HUpd.
  destruct (run_found req w w1 w2 items lerr pod HL HG) as (-> & Hq).
  destruct (Update_Instaslice_ok _ _ _ HUpd) as (Ht3 & Hp3 & _).
  pose proof (Get_Instaslice_quiet
                (operatorKey instaSliceOperatorNamespace
                   (InstasliceName inst)) w2) as Hqg.
  rewrite HGet in Hqg. cbn [snd] in Hqg.
  assert (Hmark :
            setInstasliceAllocationToDeleting instaSliceOperatorNamespace
              (InstasliceName inst) (UID pod) (snd e) w2
            = (Next (done, None), w3)).
  { unfold setInstasliceAllocationToDeleting. cbv zeta.
    unfold bind at 1. rewrite HGet. unfold assignEntry.
    destruct (Allocations stored) as [|kv m] eqn:Hm; [congruence|].
    unfold liftGo. unfold bind at 1. unfold ret at 1.
    unfold bind at 1. rewrite HUpd. reflexivity. }
  split.
  - rewrite (run_terminal req items pod w2 Hothers Hfin).
    2:{ destruct Hcase as [(H & _) | (H & _)]; auto. }
    destruct Hcase as [(Hph & Hst) | (Hph & Hst)]; rewrite Hph;
      cbn [PodPhase_eqb].
    + unfold reconcileFailed, bind.
      rewrite (scan_returns_at _ items pre post inst apre apost e true w2 w3
                 done None Hitems Hallocs); [reflexivity | | |].
      * intros i x Hi Hx. apply failedAllocation_other. now apply (Hpre i x).
      * intros x Hx. apply failedAllocation_other. now apply Hapre.
      * unfold failedAllocation. cbv zeta.
        rewrite Huid, String.eqb_refl.
        destruct Hst as [Hst | Hst]; rewrite Hst;
          cbn [AllocationStatus_eqb orb]; unfold bind; rewrite Hmark;
          reflexivity.
    + unfold reconcileSucceeded, bind.
      rewrite (scan_returns_at _ items pre post inst apre apost e true w2 w3
                 done None Hitems Hallocs); [reflexivity | | |].
      * intros i x Hi Hx. apply succeededAllocation_other.
        now apply (Hpre i x).
      * intros x Hx. apply succeededAllocation_other. now apply Hapre.
      * unfold succeededAllocation. cbv zeta.
        rewrite Huid, String.eqb_refl.
        apply AllocationStatus_eqb_neq in Hst. rewrite Hst. cbn [negb].
        unfold bind. rewrite Hmark. reflexivity.
  - split.
    { rewrite Ht3. destruct Hqg as (_ & _ & _ & _ & ->).
      destruct Hq as (_ & _ & _ & _ & ->). reflexivity. }
    rewrite Hp3. destruct Hqg as (-> & _). apply Hq.
Qed.

(** *** A gated pod and the placement search *)

Lemma progress_other (gpuOperatorPodOk : bool) (pod : Pod) (i : Instaslice)
    (x : string * AllocationDetails) (v : World) :
  PodUUID (snd x) <> UID pod ->
  progressAllocation gateName NodeLabel i x (gpuOperatorPodOk, pod) v
  = (Next (gpuOperatorPodOk, pod), v).
Proof.
  intros Hx. unfold progressAllocation, bind. cbv zeta.
  apply String.eqb_neq in Hx. rewrite Hx, !andb_false_r.
  unfold ret. rewrite Hx, !andb_false_r. reflexivity.
Qed.

(** A gated pod with the finalizer, one container and no deletion
    requested is handled by [reconcileGated]. *)
Lemma run_gated (req : NamespacedName) (items : list Instaslice)
    (pod : Pod) (v : World) :
  isPodGatedByOthers gateName pod = false ->
  checkIfPodGatedByInstaSlice gateName pod = Returns true ->
  ContainsFinalizer pod finalizerName = true ->
  Time_IsZero (DeletionTimestamp pod) = true ->
  runFound req items pod v
  = bind (reconcileGated gateName NodeLabel findNodeAndDeviceForASlice
            items pod)
      (fun _ => Return done None) v.
Proof.
  intros Hothers Hgated Hfin Hdel.
  rewrite (passFound_gated gateName finalizerName NodeLabel
             instaSliceOperatorNamespace findNodeAndDeviceForASlice
             req items pod v Hothers Hgated), Hfin.
  assert (Hph : Phase pod = PodPending).
  { apply (checkGates_true gateName pod (SchedulingGates pod)) in Hgated.
    tauto. }
  unfold reconcileBranches. rewrite Hph, Hdel. reflexivity.
Qed.

Lemma no_allocation_names (pod : Pod) (items : list Instaslice) :
  (forall inst e, In inst items -> In e (Allocations inst) ->
                  PodUUID (snd e) <> UID pod) ->
  existsb
    (fun instaslice =>
       existsb (fun entry => String.eqb (PodUUID (snd entry)) (UID pod))
         (Allocations instaslice)) items = false.
Proof.
  intros H.
  destruct (existsb _ items) eqn:E; [|reflexivity].
  apply existsb_exists in E. destruct E as (i & Hi & E).
  apply existsb_exists in E. destruct E as (x & Hx & E).
  apply String.eqb_eq in E. elim (H i x Hi Hx E).
Qed.

Lemma searched_app (profileName : string) (a b : list Instaslice)
    (w : World) :
  searched profileName (a ++ b) w
  = searched profileName b (searched profileName a w).
Proof. unfold searched. apply fold_left_app. Qed.

Lemma searched_spec (profileName : string) (items : list Instaslice)
    (w : World) :
  trace (searched profileName items w)
  = (trace w
     ++ map (fun i => FindNode (InstasliceName i) profileName) items)%list
  /\ pods (searched profileName items w) = pods w
  /\ instaslices (searched profileName items w) = instaslices w
  /\ dice (searched profileName items w) = dice w.
Proof.
  revert w. induction items as [|i items IH]; intros w.
  - cbn. now rewrite app_nil_r.
  - change (searched profileName (i :: items) w)
      with (searched profileName items
              (record w (FindNode (InstasliceName i) profileName))).
    destruct (IH (record w (FindNode (InstasliceName i) profileName)))
      as (-> & -> & -> & ->).
    cbn [record trace pods instaslices dice map].
    rewrite <- app_assoc. auto.
Qed.

Lemma allocate_none (profileName : string) (pod : Pod)
    (items : list Instaslice) (b : bool) (v : World) :
  (forall i, In i items ->
             findNodeAndDeviceForASlice i profileName pod = None) ->
  forRange items (allocateOn findNodeAndDeviceForASlice profileName pod) b v
  = (Next b, searched profileName items v).
Proof.
  revert v. induction items as [|i items IH]; intros v H.
  - reflexivity.
  - cbn [forRange]. unfold bind at 1. unfold allocateOn at 1.
    unfold bind at 1. unfold effect at 1.
    rewrite (H i (or_introl eq_refl)). unfold ret at 1.
    rewrite IH by (intros j Hj; apply H; now right). reflexivity.
Qed.

(** X19. No capacity. A gated pod (finalizer present, one container, no
    deletion requested) that no listed allocation names, when the placement
    search fails on every listed record: the pass has searched each record
    once, in list order, writes nothing, and returns a retry-after-delay of
    a whole number of seconds from 1 to 10, one more than the random draw
    modulo 10. *)
Theorem no_capacity_backs_off_one_to_ten_seconds
    (req : NamespacedName) (w w1 w2 : World) (items : list Instaslice)
    (lerr : option error) (pod : Pod) (container : Container) :
  List_Instaslice w = (Next (items, lerr), w1) ->
  Get_Pod req w1 = (Next (pod, None), w2) ->
  isPodGatedByOthers gateName pod = false ->
  checkIfPodGatedByInstaSlice gateName pod = Returns true ->
  ContainsFinalizer pod finalizerName = true ->
  Time_IsZero (DeletionTimestamp pod) = true ->
  Containers pod = [container] ->
  (forall inst e, In inst items -> In e (Allocations inst) ->
                  PodUUID (snd e) <> UID pod) ->
  (forall inst, In inst items ->
     findNodeAndDeviceForASlice inst (extractProfileName (Limits container))
       pod = None) ->
  run req w
  = (Ret (retryAfter ((dice w mod 10 + 1) * Second)) None,
     searched (extractProfileName (Limits container)) items w2)
  /\ 1 * Second <= (dice w mod 10 + 1) * Second <= 10 * Second
  /\ trace (searched (extractProfileName (Limits container)) items w2)
     = (trace w
        ++ map (fun i => FindNode (InstasliceName i)
                           (extractProfileName (Limits container)))
             items)%list
  /\ pods (searched (extractProfileName (Limits container)) items w2)
     = pods w
  /\ instaslices (searched (extractProfileName (Limits container)) items w2)
     = instaslices w.
Proof.
  intros HL HG Hothers Hgated Hfin Hdel Hc Hnone Hfind.
  destruct (run_found req w w1 w2 items lerr pod HL HG) as (-> & Hq).
  destruct (searched_spec (extractProfileName (Limits container)) items w2)
    as (Ht & Hp & Hi & Hd).
  destruct Hq as (Hqp & Hqi & _ & Hqd & Hqt).
  split.
  - rewrite (run_gated req items pod w2 Hothers Hgated Hfin Hdel).
    unfold bind at 1. unfold reconcileGated. rewrite Hc.
    rewrite (no_allocation_names pod items Hnone).
    unfold bind at 1. rewrite forRange_skip.
    2:{ intros i Hi'. apply forRange_skip. intros x Hx.
        apply progress_other. now apply (Hnone i x). }
    cbn [negb snd]. unfold bind at 1.
    rewrite (allocate_none _ pod items false w2 Hfind).
    cbn [negb]. unfold bind, Intn, Return. rewrite Hd, Hqd. reflexivity.
  - split.
    { pose proof (Z.mod_pos_bound (dice w) 10 ltac:(lia)).
      unfold Second. lia. }
    rewrite Ht, Hp, Hi, Hqt, Hqp, Hqi. auto.
Qed.

(** X20. First fit in list order. A gated pod (finalizer present, one
    container, no deletion requested) that no listed allocation names: the
    records on which the search fails are searched and passed over; for
    the first record on which it succeeds, with no prepared slice of the
    same parent, size and start, and when the read and the write of that
    record in namespace [default] succeed, the pass files the allocation
    found under the pod's UID and returns done. Later records are not
    searched. *)
Theorem first_fit_files_the_allocation
    (req : NamespacedName) (w w1 w2 wg w3 : World)
    (items pre post : list Instaslice) (inst stored : Instaslice)
    (lerr : option error) (pod : Pod) (container : Container)
    (allocDetails : AllocationDetails) :
  List_Instaslice w = (Next (items, lerr), w1) ->
  Get_Pod req w1 = (Next (pod, None), w2) ->
  isPodGatedByOthers gateName pod = false ->
  checkIfPodGatedByInstaSlice gateName pod = Returns true ->
  ContainsFinalizer pod finalizerName = true ->
  Time_IsZero (DeletionTimestamp pod) = true ->
  Containers pod = [container] ->
  (forall i e, In i items -> In e (Allocations i) ->
               PodUUID (snd e) <> UID pod) ->
  items = (pre ++ inst :: post)%list ->
  (forall i, In i pre ->
     findNodeAndDeviceForASlice i (extractProfileName (Limits container)) pod
     = None) ->
  findNodeAndDeviceForASlice inst (extractProfileName (Limits container)) pod
  = Some allocDetails ->
  (forall item, In item (Prepared inst) ->
     ~ (Parent (snd item) = GPUUUID allocDetails
        /\ PreparedSize (snd item) = Size allocDetails
        /\ PreparedStart (snd item) = Start allocDetails)) ->
  Get_Instaslice (defaultKey (InstasliceName inst))
    (searched (extractProfileName (Limits container)) (pre ++ [inst]) w2)
  = (Next (stored, None), wg) ->
  Update_Instaslice
    (setAllocations stored
       (map_set (Allocations stored) (UID pod) allocDetails)) wg
  = (Next None, w3) ->
  run req w = (Ret done None, w3)
  /\ trace w3
     = (trace w
        ++ map (fun i => FindNode (InstasliceName i)
                           (extractProfileName (Limits container)))
             (pre ++ [inst])
        ++ [UpdateInstaslice
              (setAllocations stored
                 (map_set (Allocations stored) (UID pod) allocDetails))
              true])%list
  /\ pods w3 = pods w
  /\ exists written,
       find (sameInstaslice (defaultKey (InstasliceName inst)))
         (instaslices w3) = Some written
       /\ map_get (Allocations written) (UID pod) = Some allocDetails.
Proof.
  intros HL HG Hothers Hgated Hfin Hdel Hc Hnone Hitems Hpre Hfound
         Hclear HGet HUpd.
  set (profileName := extractProfileName (Limits container)) in *.
  destruct (run_found req w w1 w2 items lerr pod HL HG) as (-> & Hq).
  destruct (Update_Instaslice_ok _ _ _ HUpd) as (Ht3 & Hp3 & Hf3).
  pose proof (Get_Instaslice_quiet (defaultKey (InstasliceName inst))
                (searched profileName (pre ++ [inst]) w2)) as Hqg.
  rewrite HGet in Hqg. cbn [snd] in Hqg.
  pose proof (Get_Instaslice_found _ _ _ _ HGet) as Hkey.
  destruct (searched_spec profileName (pre ++ [inst]) w2)
    as (Ht & Hp & Hi & Hd).
  destruct Hq as (Hqp & Hqi & _ & Hqd & Hqt).
  split.
  - rewrite (run_gated req items pod w2 Hothers Hgated Hfin Hdel).
    unfold bind at 1. unfold reconcileGated. rewrite Hc.
    rewrite (no_allocation_names pod items Hnone).
    unfold bind at 1. rewrite forRange_skip.
    2:{ intros i Hi'. apply forRange_skip. intros x Hx.
        apply progress_other. now apply (Hnone i x). }
    cbn [negb snd]. fold profileName. unfold bind at 1.
    rewrite Hitems, forRange_app. unfold bind at 1.
    rewrite (allocate_none profileName pod pre false w2 Hpre).
    cbn [forRange]. unfold bind at 1. unfold allocateOn at 1.
    unfold bind at 1. unfold effect at 1. rewrite Hfound.
    unfold bind at 1. rewrite forRange_skip.
    2:{ intros item Hitem.
        destruct (String.eqb_spec (Parent (snd item)) (GPUUUID allocDetails))
          as [H1|]; [|reflexivity].
        destruct (Z.eqb_spec (PreparedSize (snd item)) (Size allocDetails))
          as [H2|]; [|reflexivity].
        destruct (Z.eqb_spec (PreparedStart (snd item)) (Start allocDetails))
          as [H3|]; [|reflexivity].
        elim (Hclear item Hitem). auto. }
    change (record (searched profileName pre w2)
              (FindNode (InstasliceName inst) profileName))
      with (searched profileName [inst] (searched profileName pre w2)).
    rewrite <- searched_app.
    unfold bind at 1. rewrite HGet.
    unfold bind at 1. rewrite HUpd. reflexivity.
  - split.
    { rewrite Ht3. destruct Hqg as (_ & _ & _ & _ & ->).
      rewrite Ht, Hqt. now rewrite <- app_assoc. }
    split.
    { rewrite Hp3. destruct Hqg as (-> & _). now rewrite Hp. }
    eexists. split.
    + rewrite <- Hkey. exact Hf3.
    + cbn [Allocations setAllocations]. apply map_get_set.
Qed.

(** X21. A slot that is still prepared defers the placement. When the
    first record on which the search succeeds holds a prepared slice with
    the parent, the size and the start of the allocation found, the pass
    writes nothing and returns retry-after-delay(1s). *)
Theorem prepared_slot_defers_the_placement
    (req : NamespacedName) (w w1 w2 : World)
    (items pre post : list Instaslice) (inst : Instaslice)
    (lerr : option error) (pod : Pod) (container : Container)
    (allocDetails : AllocationDetails) (item : string * PreparedDetails) :
  List_Instaslice w = (Next (items, lerr), w1) ->
  Get_Pod req w1 = (Next (pod, None), w2) ->
  isPodGatedByOthers gateName pod = false ->
  checkIfPodGatedByInstaSlice gateName pod = Returns true ->
  ContainsFinalizer pod finalizerName = true ->
  Time_IsZero (DeletionTimestamp pod) = true ->
  Containers pod = [container] ->
  (forall i e, In i items -> In e (Allocations i) ->
               PodUUID (snd e) <> UID pod) ->
  items = (pre ++ inst :: post)%list ->
  (forall i, In i pre ->
     findNodeAndDeviceForASlice i (extractProfileName (Limits container)) pod
     = None) ->
  findNodeAndDeviceForASlice inst (extractProfileName (Limits container)) pod
  = Some allocDetails ->
  In item (Prepared inst) ->
  Parent (snd item) = GPUUUID allocDetails ->
  PreparedSize (snd item) = Size allocDetails ->
  PreparedStart (snd item) = Start allocDetails ->
  run req w
  = (Ret (retryAfter (1 * Second)) None,
     searched (extractProfileName (Limits container)) (pre ++ [inst]) w2)
  /\ pods (searched (extractProfileName (Limits container)) (pre ++ [inst])
             w2) = pods w
  /\ instaslices
       (searched (extractProfileName (Limits container)) (pre ++ [inst]) w2)
     = instaslices w
  /\ trace
       (searched (extractProfileName (Limits container)) (pre ++ [inst]) w2)
     = (trace w
        ++ map (fun i => FindNode (InstasliceName i)
                           (extractProfileName (Limits container)))
             (pre ++ [inst]))%list.
Proof.
  intros HL HG Hothers Hgated Hfin Hdel Hc Hnone Hitems Hpre Hfound
         Hitem Hparent Hsize Hstart.
  set (profileName := extractProfileName (Limits container)) in *.
  destruct (run_found req w w1 w2 items lerr pod HL HG) as (-> & Hq).
  destruct (searched_spec profileName (pre ++ [inst]) w2)
    as (Ht & Hp & Hi & Hd).
  destruct Hq as (Hqp & Hqi & _ & Hqd & Hqt).
  split; [|rewrite Ht, Hp, Hi, Hqt, Hqp, Hqi; auto].
  rewrite (run_gated req items pod w2 Hothers Hgated Hfin Hdel).
  unfold bind at 1. unfold reconcileGated. rewrite Hc.
  rewrite (no_allocation_names pod items Hnone).
  unfold bind at 1. rewrite forRange_skip.
  2:{ intros i Hi'. apply forRange_skip. intros x Hx.
      apply progress_other. now apply (Hnone i x). }
  cbn [negb snd]. fold profileName. unfold bind at 1.
  rewrite Hitems, forRange_app. unfold bind at 1.
  rewrite (allocate_none profileName pod pre false w2 Hpre).
  cbn [forRange]. unfold bind at 1. unfold allocateOn at 1.
  unfold bind at 1. unfold effect at 1. rewrite Hfound.
  unfold bind at 1.
  change (record (searched profileName pre w2)
            (FindNode (InstasliceName inst) profileName))
    with (searched profileName [inst] (searched profileName pre w2)).
  rewrite <- searched_app.
  rewrite (forRange_first_hit
             (fun it : string * PreparedDetails =>
                String.eqb (Parent (snd it)) (GPUUUID allocDetails)
                && (PreparedSize (snd it) =? Size allocDetails)
                && (PreparedStart (snd it) =? Start allocDetails))
             (retryAfter (1 * Second))).
  - replace (existsb _ (Prepared inst)) with true; [reflexivity|].
    symmetry. apply existsb_exists. exists item. split; [exact Hitem|].
    rewrite Hparent, Hsize, Hstart, String.eqb_refl, !Z.eqb_refl.
    reflexivity.
  - intros x Hx Hhit. rewrite Hhit. reflexivity.
  - intros x Hx Hmiss. rewrite Hmiss. reflexivity.
Qed.

(** *** Ungating *)

Lemma map_set_set {V : Type} (m : GoMap V) (k : string) (v : V) :
  map_set (map_set m k v) k v = map_set m k v.
Proof.
  induction m as [|[k0 v0] m IH]; cbn [map_set].
  - now rewrite String.eqb_refl.
  - destruct (String.eqb k0 k) eqn:E; cbn [map_set]; rewrite E;
      [reflexivity | now rewrite IH].
Qed.

Lemma unGatePod_single (p : Pod) :
  SchedulingGates p = [gateName] ->
  unGatePod gateName p = Returns (setSchedulingGates p []).
Proof.
  intros H. unfold unGatePod. rewrite H. cbn [length seq unGateRange nth].
  rewrite String.eqb_refl. reflexivity.
Qed.

Lemma unGatePod_none (p : Pod) :
  SchedulingGates p = [] -> unGatePod gateName p = Returns p.
Proof.
  intros H. unfold unGatePod. rewrite H. cbn [length seq unGateRange firstn].
  rewrite <- H. destruct p. reflexivity.
Qed.

(** X22. Ungating. A gated pod whose only gate is the system's (finalizer
    present, one container, no deletion requested) and whose one listed
    allocation naming its UID is [Created], while the oracle answers
    healthy: when the reads and writes succeed, the pass writes the
    allocation as [Ungated] under its key, then writes the pod with the
    node selector [NodeLabel] set to the allocation's node and the gate
    removed, and returns done. The same pod is written a second time in
    the same pass, by the statements that follow for an [Ungated]
    allocation. *)
Theorem healthy_created_allocation_ungates_the_pod
    (req : NamespacedName) (w w1 w2 wh wg wu wp w3 : World)
    (items pre post : list Instaslice) (inst stored : Instaslice)
    (apre apost : GoMap AllocationDetails) (e : string * AllocationDetails)
    (lerr : option error) (pod : Pod) (container : Container) :
  List_Instaslice w = (Next (items, lerr), w1) ->
  Get_Pod req w1 = (Next (pod, None), w2) ->
  SchedulingGates pod = [gateName] ->
  checkIfPodGatedByInstaSlice gateName pod = Returns true ->
  ContainsFinalizer pod finalizerName = true ->
  Time_IsZero (DeletionTimestamp pod) = true ->
  Containers pod = [container] ->
  items = (pre ++ inst :: post)%list ->
  Allocations inst = (apre ++ e :: apost)%list ->
  (forall i x, In i (pre ++ post) -> In x (Allocations i) ->
               PodUUID (snd x) <> UID pod) ->
  (forall x, In x (apre ++ apost) -> PodUUID (snd x) <> UID pod) ->
  PodUUID (snd e) = UID pod ->
  Allocationstatus (snd e) = AllocationStatusCreated ->
  isPatternPodRunningAndHealthy "nvidia-device-plugin-daemonset"
    "gpu-operator" w2 = (Next (true, None), wh) ->
  Get_Instaslice (defaultKey (InstasliceName inst)) wh
  = (Next (stored, None), wg) ->
  Update_Instaslice
    (setAllocations stored
       (map_set (Allocations stored) (fst e)
          (setAllocationstatus (snd e) AllocationStatusUngated))) wg
  = (Next None, wu) ->
  Update_Pod
    (setSchedulingGates
       (setNodeSelector pod
          (map_set (NodeSelector pod) NodeLabel (Nodename (snd e)))) []) wu
  = (Next None, wp) ->
  Update_Pod
    (setSchedulingGates
       (setNodeSelector pod
          (map_set (NodeSelector pod) NodeLabel (Nodename (snd e)))) []) wp
  = (Next None, w3) ->
  run req w = (Ret done None, w3)
  /\ trace w3
     = (trace wh
        ++ [UpdateInstaslice
              (setAllocations stored
                 (map_set (Allocations stored) (fst e)
                    (setAllocationstatus (snd e) AllocationStatusUngated)))
              true;
            UpdatePod
              (setSchedulingGates
                 (setNodeSelector pod
                    (map_set (NodeSelector pod) NodeLabel
                       (Nodename (snd e)))) []) true;
            UpdatePod
              (setSchedulingGates
                 (setNodeSelector pod
                    (map_set (NodeSelector pod) NodeLabel
                       (Nodename (snd e)))) []) true])%list
  /\ exists written,
       find (samePod (keyOfPod pod)) (pods w3) = Some written
       /\ SchedulingGates written = []
       /\ map_get (NodeSelector written) NodeLabel = Some (Nodename (snd e))
       /\ Finalizers written = Finalizers pod.
Proof.
  intros HL HG Hgates Hgated Hfin Hdel Hc Hitems Hallocs Hrest Harest
         Huid Hst Hhealth HGet HUpd HP1 HP2.
  set (ungated := setSchedulingGates
                    (setNodeSelector pod
                       (map_set (NodeSelector pod) NodeLabel
                          (Nodename (snd e)))) []) in *.
  set (marked := setAllocationstatus (snd e) AllocationStatusUngated) in *.
  assert (Hothers : isPodGatedByOthers gateName pod = false).
  { unfold isPodGatedByOthers. rewrite Hgates. cbn [existsb].
    now rewrite String.eqb_refl. }
  destruct (run_found req w w1 w2 items lerr pod HL HG) as (-> & Hq).
  destruct (Update_Instaslice_ok _ _ _ HUpd) as (Htu & _ & _).
  destruct (Update_Pod_ok _ _ _ HP1) as (Htp & _ & _).
  destruct (Update_Pod_ok _ _ _ HP2) as (Ht3 & _ & Hf3).
  pose proof (Get_Instaslice_quiet (defaultKey (InstasliceName inst)) wh)
    as Hqg.
  rewrite HGet in Hqg. cbn [snd] in Hqg.
  assert (Hun1 : forall v,
            ungate gateName NodeLabel pod marked v
            = bind (Update_Pod ungated)
                (fun err => match err with
                            | Some _ => Return retryNow None
                            | None => ret ungated
                            end) v).
  { intros v. unfold ungate. cbv zeta.
    rewrite unGatePod_single by exact Hgates. reflexivity. }
  assert (Hun2 : forall v,
            ungate gateName NodeLabel ungated marked v
            = bind (Update_Pod ungated)
                (fun err => match err with
                            | Some _ => Return retryNow None
                            | None => ret ungated
                            end) v).
  { intros v. unfold ungate. cbv zeta.
    replace (setNodeSelector ungated
               (map_set (NodeSelector ungated) NodeLabel (Nodename marked)))
      with ungated.
    - rewrite unGatePod_none by reflexivity. reflexivity.
    - unfold ungated, marked.
      cbn [NodeSelector setSchedulingGates setNodeSelector Nodename
           setAllocationstatus].
      rewrite map_set_set. reflexivity. }
  assert (Hhit : progressAllocation gateName NodeLabel inst e (false, pod) w2
                 = (Next (true, ungated), w3)).
  { unfold progressAllocation. cbv zeta.
    rewrite Huid, String.eqb_refl, Hst. cbn [AllocationStatus_eqb andb].
    unfold bind at 1. unfold bind at 1. rewrite Hhealth.
    unfold bind at 1. rewrite HGet.
    unfold bind at 1. fold marked. rewrite HUpd.
    unfold bind at 1. rewrite Hun1. unfold bind at 1. rewrite HP1.
    unfold ret at 1. unfold ret at 1.
    replace (AllocationStatus_eqb (Allocationstatus marked)
               AllocationStatusUngated
             && String.eqb (PodUUID marked) (UID ungated)) with true.
    - unfold bind at 1. rewrite Hun2. unfold bind at 1. rewrite HP2.
      reflexivity.
    - unfold marked, ungated.
      cbn [Allocationstatus PodUUID setAllocationstatus UID
           setSchedulingGates setNodeSelector AllocationStatus_eqb andb].
      rewrite Huid. symmetry. apply String.eqb_refl. }
  split.
  - rewrite (run_gated req items pod w2 Hothers Hgated Hfin Hdel).
    unfold bind at 1. unfold reconcileGated. rewrite Hc.
    replace (existsb _ items) with true.
    2:{ symmetry. apply existsb_exists. exists inst.
        split; [rewrite Hitems; apply in_elt|].
        apply existsb_exists. exists e.
        split; [rewrite Hallocs; apply in_elt|].
        rewrite Huid. apply String.eqb_refl. }
    unfold bind at 1.
    rewrite (scan_passes_through
               (progressAllocation gateName NodeLabel)
               items pre post inst apre apost e (false, pod) (true, ungated)
               w2 w3 Hitems Hallocs).
    + reflexivity.
    + intros i x Hi Hx. apply progress_other.
      apply (Hrest i x); [apply in_or_app; now left | exact Hx].
    + intros x Hx. apply progress_other. apply Harest.
      apply in_or_app. now left.
    + exact Hhit.
    + intros x Hx. apply progress_other. apply Harest.
      apply in_or_app. now right.
    + intros i x Hi Hx. apply progress_other.
      apply (Hrest i x); [apply in_or_app; now right | exact Hx].
  - split.
    { rewrite Ht3, Htp, Htu. destruct Hqg as (_ & _ & _ & _ & ->).
      rewrite <- !app_assoc. reflexivity. }
    exists ungated. split; [exact Hf3|].
    unfold ungated.
    cbn [SchedulingGates NodeSelector Finalizers setSchedulingGates
         setNodeSelector].
    split; [reflexivity|]. split; [apply map_get_set | reflexivity].
Qed.

(** *** Deletion while the pod is still gated *)

Lemma run_deleted_gated (req : NamespacedName) (items : list Instaslice)
    (pod : Pod) (v : World) :
  isPodGatedByOthers gateName pod = false ->
  checkIfPodGatedByInstaSlice gateName pod = Returns true ->
  ContainsFinalizer pod finalizerName = true ->
  Time_IsZero (DeletionTimestamp pod) = false ->
  runFound req items pod v
  = reconcileDeletedGated finalizerName instaSliceOperatorNamespace
      items pod v.
Proof.
  intros Hothers Hgated Hfin Hdel.
  rewrite (passFound_gated gateName finalizerName NodeLabel
             instaSliceOperatorNamespace findNodeAndDeviceForASlice
             req items pod v Hothers Hgated), Hfin.
  assert (Hph : Phase pod = PodPending).
  { apply (checkGates_true gateName pod (SchedulingGates pod)) in Hgated.
    tauto. }
  unfold reconcileBranches. rewrite Hph, Hdel. reflexivity.
Qed.

Lemma deletedGated_idle (pod : Pod) (i : Instaslice)
    (x : string * AllocationDetails) (v : World) :
  (fst x = UID pod ->
   Allocationstatus (snd x) <> AllocationStatusCreated
   /\ Allocationstatus (snd x) <> AllocationStatusDeleted) ->
  deletedGatedAllocation finalizerName instaSliceOperatorNamespace i x pod v
  = (Next pod, v).
Proof.
  intros H. unfold deletedGatedAllocation. cbv zeta.
  destruct (String.eqb_spec (fst x) (UID pod)) as [Heq|Hne].
  - destruct (H Heq) as (Hc & Hd).
    apply AllocationStatus_eqb_neq in Hc, Hd.
    rewrite Hc. cbn [andb]. unfold bind, ret.
    rewrite Hd. reflexivity.
  - reflexivity.
Qed.

(** X23. A gated pod whose deletion is requested (finalizer present) and
    whose listed allocations filed under its UID are neither [Created] nor
    [Deleted], so also one that is still [Creating], or none at all: the
    pass writes nothing and returns done; it asks for no retry and leaves
    the finalizer in place. *)
Theorem deleted_gated_pod_waits_for_the_allocation
    (req : NamespacedName) (w w1 w2 : World) (items : list Instaslice)
    (lerr : option error) (pod : Pod) :
  List_Instaslice w = (Next (items, lerr), w1) ->
  Get_Pod req w1 = (Next (pod, None), w2) ->
  isPodGatedByOthers gateName pod = false ->
  checkIfPodGatedByInstaSlice gateName pod = Returns true ->
  ContainsFinalizer pod finalizerName = true ->
  Time_IsZero (DeletionTimestamp pod) = false ->
  (forall inst e, In inst items -> In e (Allocations inst) ->
     fst e = UID pod ->
     Allocationstatus (snd e) <> AllocationStatusCreated
     /\ Allocationstatus (snd e) <> AllocationStatusDeleted) ->
  run req w = (Ret done None, w2) /\ quiet w w2.
Proof.
  intros HL HG Hothers Hgated Hfin Hdel Hidle.
  destruct (run_found req w w1 w2 items lerr pod HL HG) as (-> & Hq).
  split; [|exact Hq].
  rewrite (run_deleted_gated req items pod w2 Hothers Hgated Hfin Hdel).
  unfold reconcileDeletedGated, bind. rewrite forRange_skip; [reflexivity|].
  intros i Hi. apply forRange_skip. intros x Hx.
  apply deletedGated_idle. exact (Hidle i x Hi Hx).
Qed.

(** X24. A gated pod whose deletion is requested and whose one listed
    allocation filed under its UID is [Created]: when the read and the
    write of the record succeed, the pass writes the allocation as
    [Deleting] and returns done; the pod is not written. *)
Theorem deleted_gated_pod_marks_created_allocation_deleting
    (req : NamespacedName) (w w1 w2 wg w3 : World)
    (items pre post : list Instaslice) (inst stored : Instaslice)
    (apre apost : GoMap AllocationDetails) (a : AllocationDetails)
    (lerr : option error) (pod : Pod) :
  List_Instaslice w = (Next (items, lerr), w1) ->
  Get_Pod req w1 = (Next (pod, None), w2) ->
  isPodGatedByOthers gateName pod = false ->
  checkIfPodGatedByInstaSlice gateName pod = Returns true ->
  ContainsFinalizer pod finalizerName = true ->
  Time_IsZero (DeletionTimestamp pod) = false ->
  items = (pre ++ inst :: post)%list ->
  Allocations inst = (apre ++ (UID pod, a) :: apost)%list ->
  (forall i x, In i (pre ++ post) -> In x (Allocations i) ->
               fst x <> UID pod) ->
  (forall x, In x (apre ++ apost) -> fst x <> UID pod) ->
  Allocationstatus a = AllocationStatusCreated ->
  Get_Instaslice
    (operatorKey instaSliceOperatorNamespace (InstasliceName inst)) w2
  = (Next (stored, None), wg) ->
  Allocations stored <> [] ->
  Update_Instaslice
    (setAllocations stored
       (map_set (Allocations stored) (UID pod)
          (setAllocationstatus a AllocationStatusDeleting))) wg
  = (Next None, w3) ->
  run req w = (Ret done None, w3)
  /\ trace w3
     = (trace w
        ++ [UpdateInstaslice
              (setAllocations stored
                 (map_set (Allocations stored) (UID pod)
                    (setAllocationstatus a AllocationStatusDeleting)))
              true])%list
  /\ pods w3 = pods w.
Proof.
  intros HL HG Hothers Hgated Hfin Hdel Hitems Hallocs Hrest Harest Hst
         HGet Hnonnil HUpd.
  destruct (run_found req w w1 w2 items lerr pod HL HG) as (-> & Hq).
  destruct (Update_Instaslice_ok _ _ _ HUpd) as (Ht3 & Hp3 & _).
  pose proof (Get_Instaslice_quiet
                (operatorKey instaSliceOperatorNamespace
                   (InstasliceName inst)) w2) as Hqg.
  rewrite HGet in Hqg. cbn [snd] in Hqg.
  assert (Hskip : forall i x v, fst x <> UID pod ->
            deletedGatedAllocation finalizerName instaSliceOperatorNamespace
              i x pod v = (Next pod, v)).
  { intros i x v Hx. apply deletedGated_idle. intros Heq. contradiction. }
  split.
  - rewrite (run_deleted_gated req items pod w2 Hothers Hgated Hfin Hdel).
    unfold reconcileDeletedGated, bind.
    rewrite (scan_passes_through
               (deletedGatedAllocation finalizerName
                  instaSliceOperatorNamespace)
               items pre post inst apre apost (UID pod, a) pod pod w2 w3
               Hitems Hallocs).
    + reflexivity.
    + intros i x Hi Hx. apply Hskip.
      apply (Hrest i x); [apply in_or_app; now left | exact Hx].
    + intros x Hx. apply Hskip. apply Harest. apply in_or_app. now left.
    + unfold deletedGatedAllocation. cbv zeta. cbn [fst snd].
      rewrite String.eqb_refl, Hst. cbn [AllocationStatus_eqb andb].
      unfold bind at 1. unfold bind at 1. rewrite HGet.
      unfold assignEntry.
      destruct (Allocations stored) as [|kv m] eqn:Hm; [congruence|].
      unfold liftGo. unfold bind at 1. unfold ret at 1.
      unfold bind at 1. rewrite HUpd. reflexivity.
    + intros x Hx. apply Hskip. apply Harest. apply in_or_app. now right.
    + intros i x Hi Hx. apply Hskip.
      apply (Hrest i x); [apply in_or_app; now right | exact Hx].
  - split.
    { rewrite Ht3. destruct Hqg as (_ & _ & _ & _ & ->).
      destruct Hq as (_ & _ & _ & _ & ->). reflexivity. }
    rewrite Hp3. destruct Hqg as (-> & _). apply Hq.
Qed.

(** X25. Cleanup of a pod that never started. A gated pod whose deletion
    is requested and whose one listed allocation filed under its UID is
    [Deleted]: when the reads and writes succeed, the pass makes two
    writes and returns done. The first is the record in namespace [default]
    without the entry under the allocation's [PodUUID], which is what the
    inventory then holds; the second is the pod as read, without the
    finalizer. *)
Theorem deleted_gated_pod_with_deleted_allocation_is_released
    (req : NamespacedName) (w w1 w2 wg wu w3 : World)
    (items pre post : list Instaslice) (inst stored : Instaslice)
    (apre apost : GoMap AllocationDetails) (a : AllocationDetails)
    (lerr : option error) (pod : Pod) :
  List_Instaslice w = (Next (items, lerr), w1) ->
  Get_Pod req w1 = (Next (pod, None), w2) ->
  isPodGatedByOthers gateName pod = false ->
  checkIfPodGatedByInstaSlice gateName pod = Returns true ->
  ContainsFinalizer pod finalizerName = true ->
  Time_IsZero (DeletionTimestamp pod) = false ->
  items = (pre ++ inst :: post)%list ->
  Allocations inst = (apre ++ (UID pod, a) :: apost)%list ->
  (forall i x, In i (pre ++ post) -> In x (Allocations i) ->
               fst x <> UID pod) ->
  (forall x, In x (apre ++ apost) -> fst x <> UID pod) ->
  Allocationstatus a = AllocationStatusDeleted ->
  Get_Instaslice (defaultKey (InstasliceName inst)) w2
  = (Next (stored, None), wg) ->
  Update_Instaslice
    (setAllocations stored (map_delete (Allocations stored) (PodUUID a))) wg
  = (Next None, wu) ->
  Update_Pod (fst (RemoveFinalizer pod finalizerName)) wu = (Next None, w3) ->
  run req w = (Ret done None, w3)
  /\ trace w3
     = (trace w
        ++ [UpdateInstaslice
              (setAllocations stored
                 (map_delete (Allocations stored) (PodUUID a))) true;
            UpdatePod (fst (RemoveFinalizer pod finalizerName)) true])%list
  /\ ContainsFinalizer (fst (RemoveFinalizer pod finalizerName))
       finalizerName = false
  /\ exists written,
       find (sameInstaslice (defaultKey (InstasliceName inst)))
         (instaslices w3) = Some written
       /\ map_get (Allocations written) (PodUUID a) = None
       /\ (forall k, k <> PodUUID a ->
             map_get (Allocations written) k = map_get (Allocations stored) k).
Proof.
  intros HL HG Hothers Hgated Hfin Hdel Hitems Hallocs Hrest Harest Hst
         HGet HUpd HPod.
  set (released := fst (RemoveFinalizer pod finalizerName)) in *.
  destruct (run_found req w w1 w2 items lerr pod HL HG) as (-> & Hq).
  destruct (Update_Instaslice_ok _ _ _ HUpd) as (Htu & _ & Hfu).
  destruct (Update_Pod_ok _ _ _ HPod) as (Ht3 & Hi3 & _).
  pose proof (Get_Instaslice_found _ _ _ _ HGet) as Hkey.
  pose proof (Get_Instaslice_quiet (defaultKey (InstasliceName inst)) w2)
    as Hqg.
  rewrite HGet in Hqg. cbn [snd] in Hqg.
  assert (Hflag : snd (RemoveFinalizer pod finalizerName) = true).
  { unfold RemoveFinalizer. cbn [snd]. rewrite removed_flag. exact Hfin. }
  assert (Hskip : forall i x p v, UID p = UID pod -> fst x <> UID pod ->
            deletedGatedAllocation finalizerName instaSliceOperatorNamespace
              i x p v = (Next p, v)).
  { intros i x p v Hp Hx. apply deletedGated_idle. rewrite Hp.
    intros Heq. contradiction. }
  split.
  - rewrite (run_deleted_gated req items pod w2 Hothers Hgated Hfin Hdel).
    unfold reconcileDeletedGated, bind.
    rewrite (scan_passes_through
               (deletedGatedAllocation finalizerName
                  instaSliceOperatorNamespace)
               items pre post inst apre apost (UID pod, a) pod released w2 w3
               Hitems Hallocs).
    + reflexivity.
    + intros i x Hi Hx. apply Hskip; [reflexivity|].
      apply (Hrest i x); [apply in_or_app; now left | exact Hx].
    + intros x Hx. apply Hskip; [reflexivity|]. apply Harest.
      apply in_or_app. now left.
    + unfold deletedGatedAllocation. cbv zeta. cbn [fst snd].
      rewrite String.eqb_refl, Hst. cbn [AllocationStatus_eqb andb].
      unfold bind at 1. unfold ret at 1. rewrite Hst.
      cbn [AllocationStatus_eqb]. unfold bind at 1.
      unfold removeInstasliceAllocation. rewrite Hst.
      cbn [AllocationStatus_eqb]. unfold bind at 1.
      unfold deleteInstasliceAllocation. unfold bind at 1. rewrite HGet.
      unfold bind at 1. rewrite HUpd. unfold ret at 1. unfold ret at 1.
      rewrite Hflag. unfold bind at 1. fold released. rewrite HPod.
      reflexivity.
    + intros x Hx. apply Hskip; [reflexivity|]. apply Harest.
      apply in_or_app. now right.
    + intros i x Hi Hx. apply Hskip; [reflexivity|].
      apply (Hrest i x); [apply in_or_app; now right | exact Hx].
  - split.
    { rewrite Ht3, Htu. destruct Hqg as (_ & _ & _ & _ & ->).
      destruct Hq as (_ & _ & _ & _ & ->).
      rewrite <- app_assoc. reflexivity. }
    split.
    { unfold released, ContainsFinalizer, RemoveFinalizer.
      cbn [fst Finalizers setFinalizers]. apply removed_finalizer_absent. }
    eexists. split.
    { rewrite Hi3, <- Hkey. exact Hfu. }
    cbn [Allocations setAllocations].
    split; [apply map_get_delete|].
    intros k Hk. now apply map_get_delete_other.
Qed.

(** X26. A gated pod (finalizer present, one container, no deletion
    requested) that some listed allocation names, while no allocation
    naming it is [Created] or [Ungated], so while its allocation is still
    [Creating]: the pass asks no oracle, searches no placement, writes
    nothing and returns done; it asks for no retry. *)
Theorem gated_pod_waits_for_the_slice
    (req : NamespacedName) (w w1 w2 : World) (items : list Instaslice)
    (lerr : option error) (pod : Pod) (container : Container) :
  List_Instaslice w = (Next (items, lerr), w1) ->
  Get_Pod req w1 = (Next (pod, None), w2) ->
  isPodGatedByOthers gateName pod = false ->
  checkIfPodGatedByInstaSlice gateName pod = Returns true ->
  ContainsFinalizer pod finalizerName = true ->
  Time_IsZero (DeletionTimestamp pod) = true ->
  Containers pod = [container] ->
  (exists inst e, In inst items /\ In e (Allocations inst)
                  /\ PodUUID (snd e) = UID pod) ->
  (forall inst e, In inst items -> In e (Allocations inst) ->
     PodUUID (snd e) = UID pod ->
     Allocationstatus (snd e) <> AllocationStatusCreated
     /\ Allocationstatus (snd e) <> AllocationStatusUngated) ->
  run req w = (Ret done None, w2) /\ quiet w w2.
Proof.
  intros HL HG Hothers Hgated Hfin Hdel Hc (inst & e & Hinst & He & Huid)
         Hwait.
  destruct (run_found req w w1 w2 items lerr pod HL HG) as (-> & Hq).
  split; [|exact Hq].
  rewrite (run_gated req items pod w2 Hothers Hgated Hfin Hdel).
  unfold bind at 1. unfold reconcileGated. rewrite Hc.
  replace (existsb _ items) with true.
  2:{ symmetry. apply existsb_exists. exists inst. split; [exact Hinst|].
      apply existsb_exists. exists e. split; [exact He|].
      rewrite Huid. apply String.eqb_refl. }
  unfold bind at 1. rewrite forRange_skip; [reflexivity|].
  intros i Hi. apply forRange_skip. intros x Hx.
  destruct (String.eqb_spec (PodUUID (snd x)) (UID pod)) as [Heq|Hne].
  - destruct (Hwait i x Hi Hx Heq) as (Hcr & Hun).
    apply AllocationStatus_eqb_neq in Hcr, Hun.
    unfold progressAllocation, bind. cbv zeta.
    rewrite Hcr. cbn [andb]. unfold ret. rewrite Hun. reflexivity.
  - now apply progress_other.
Qed.

(** *** Deletion of a pod that runs *)

Lemma run_deleted_running (req : NamespacedName) (items : list Instaslice)
    (pod : Pod) (v : World) :
  isPodGatedByOthers gateName pod = false ->
  ~ In gateName (SchedulingGates pod) ->
  ContainsFinalizer pod finalizerName = true ->
  Phase pod <> PodFailed ->
  Phase pod <> PodSucceeded ->
  Time_IsZero (DeletionTimestamp pod) = false ->
  runFound req items pod v
  = bind (forRange items (fun instaslice =>
            forRange (Allocations instaslice)
              (deletedRunningAllocation finalizerName
                 instaSliceOperatorNamespace req pod instaslice)) tt)
      (fun _ => Return done None) v.
Proof.
  intros Hothers Hgate Hfin Hfailed Hsucc Hdel.
  rewrite (passFound_not_gated gateName finalizerName NodeLabel
             instaSliceOperatorNamespace findNodeAndDeviceForASlice);
    auto.
  2:{ apply checkGates_absent. exact Hgate. }
  unfold reconcileBranches.
  apply PodPhase_eqb_neq in Hfailed, Hsucc.
  rewrite Hfailed, Hsucc, Hdel. cbn [andb negb].
  unfold reconcileDeletedRunning. rewrite Hfin. reflexivity.
Qed.

(** X27. The delay of the grace period is [30s - elapsed] for every
    elapsed time up to 30 seconds, where elapsed is the clock less the
    deletion timestamp: for a running pod (finalizer present, no terminal
    phase) with a listed allocation filed under its UID and none of those
    [Deleted], the pass writes nothing and returns that delay. At exactly
    30 seconds the delay is zero, which is the done directive: the
    allocation is not marked and no retry is asked for. With a timestamp
    that lies ahead of the clock the delay is longer than 30 seconds. *)
Theorem grace_period_delay_is_thirty_seconds_less_elapsed
    (req : NamespacedName) (w w1 w2 : World) (items : list Instaslice)
    (lerr : option error) (pod : Pod) (deletionTimestamp : Time) :
  List_Instaslice w = (Next (items, lerr), w1) ->
  Get_Pod req w1 = (Next (pod, None), w2) ->
  isPodGatedByOthers gateName pod = false ->
  ~ In gateName (SchedulingGates pod) ->
  ContainsFinalizer pod finalizerName = true ->
  Phase pod <> PodFailed ->
  Phase pod <> PodSucceeded ->
  DeletionTimestamp pod = Some deletionTimestamp ->
  deletionTimestamp <> 0 ->
  30 * Second - maxInt64 <= Time_Sub (clock w) deletionTimestamp
    <= 30 * Second ->
  (exists inst e, In inst items /\ In e (Allocations inst)
                  /\ fst e = UID pod) ->
  (forall inst e, In inst items -> In e (Allocations inst) ->
                  fst e = UID pod ->
                  Allocationstatus (snd e) <> AllocationStatusDeleted) ->
  run req w
  = (Ret (retryAfter (30 * Second - Time_Sub (clock w) deletionTimestamp))
       None, w2)
  /\ quiet w w2
  /\ (Time_Sub (clock w) deletionTimestamp = 30 * Second ->
      run req w = (Ret done None, w2))
  /\ (Time_Sub (clock w) deletionTimestamp < 0 ->
      30 * Second
      < RequeueAfter
          (retryAfter (30 * Second - Time_Sub (clock w) deletionTimestamp))).
Proof.
  intros HL HG Hothers Hgate Hfin Hfailed Hsucc Hts Hnz Hel
         (inst & e & Hinst & He & Huid) Hall.
  destruct (run_found req w w1 w2 items lerr pod HL HG) as (-> & Hq).
  assert (Hclock : clock w2 = clock w) by apply Hq.
  assert (Hrun :
            runFound req items pod w2
            = (Ret (retryAfter
                      (30 * Second - Time_Sub (clock w) deletionTimestamp))
                 None, w2)).
  { rewrite (run_deleted_running req items pod w2 Hothers Hgate Hfin Hfailed
               Hsucc).
    2:{ rewrite Hts. cbn [Time_IsZero]. now apply Z.eqb_neq. }
    unfold bind.
    rewrite (scan_first_hit
               (fun x : string * AllocationDetails =>
                  String.eqb (fst x) (UID pod))
               (retryAfter
                  (30 * Second - Time_Sub (clock w) deletionTimestamp)));
      [reflexivity | |].
    - intros i x Hi Hx.
      destruct (String.eqb (fst x) (UID pod)) eqn:Hf.
      + unfold deletedRunningAllocation. cbv zeta. rewrite Hf.
        assert (Hst : AllocationStatus_eqb (Allocationstatus (snd x))
                        AllocationStatusDeleted = false).
        { apply AllocationStatus_eqb_neq. apply (Hall i x Hi Hx).
          apply String.eqb_eq. exact Hf. }
        rewrite Hst, Hts. unfold bind, ret, Since, Return. rewrite Hclock.
        replace (30 * Second <? Time_Sub (clock w) deletionTimestamp)
          with false by (symmetry; apply Z.ltb_ge; lia).
        rewrite wrap64_small; [reflexivity|].
        pose proof (Z.le_max_l minInt64
                      (Z.min maxInt64 (clock w - deletionTimestamp))) as Hlo.
        fold (Time_Sub (clock w) deletionTimestamp) in Hlo.
        unfold minInt64, maxInt64, Second in *. lia.
      + apply (deletedRunning_other finalizerName
                 instaSliceOperatorNamespace).
        apply String.eqb_neq. exact Hf.
    - exists inst, e. repeat split; auto.
      rewrite Huid. apply String.eqb_refl. }
  split; [exact Hrun|]. split; [exact Hq|]. split.
  - intros H30. rewrite Hrun, H30.
    replace (30 * Second - 30 * Second) with 0 by lia. reflexivity.
  - intros Hneg. cbn [RequeueAfter retryAfter]. lia.
Qed.

(** X28. A running pod whose deletion is requested (finalizer present, no
    terminal phase) and that no listed allocation is filed under: the pass
    writes nothing and returns done. It does not remove the finalizer and
    asks for no retry. *)
Theorem deleted_running_pod_without_allocation_keeps_the_finalizer
    (req : NamespacedName) (w w1 w2 : World) (items : list Instaslice)
    (lerr : option error) (pod : Pod) :
  List_Instaslice w = (Next (items, lerr), w1) ->
  Get_Pod req w1 = (Next (pod, None), w2) ->
  isPodGatedByOthers gateName pod = false ->
  ~ In gateName (SchedulingGates pod) ->
  ContainsFinalizer pod finalizerName = true ->
  Phase pod <> PodFailed ->
  Phase pod <> PodSucceeded ->
  Time_IsZero (DeletionTimestamp pod) = false ->
  (forall inst e, In inst items -> In e (Allocations inst) ->
                  fst e <> UID pod) ->
  run req w = (Ret done None, w2) /\ quiet w w2.
Proof.
  intros HL HG Hothers Hgate Hfin Hfailed Hsucc Hdel Hnone.
  destruct (run_found req w w1 w2 items lerr pod HL HG) as (-> & Hq).
  split; [|exact Hq].
  rewrite (run_deleted_running req items pod w2 Hothers Hgate Hfin Hfailed
             Hsucc Hdel).
  unfold bind. rewrite forRange_skip; [reflexivity|].
  intros i Hi. apply forRange_skip. intros x Hx.
  apply (deletedRunning_other finalizerName instaSliceOperatorNamespace).
  exact (Hnone i x Hi Hx).
Qed.

End Branches.

(* ===================================================================== *)
(** ** Further runs on the concrete cluster *)
(* ===================================================================== *)

Lemma unGatePod_without_the_gate_witness :
  unGatePod Scenario.gate (Scenario.runningPod None)
  = Returns (Scenario.runningPod None).
Proof.
  apply unGatePod_without_the_gate. cbn. tauto.
Defined.

Lemma unGatePod_removes_the_gate_witness :
  let pod := setSchedulingGates Scenario.gatedPod
               ["example.com/a"; Scenario.gate; "example.com/b"] in
  unGatePod Scenario.gate pod
  = Returns (setSchedulingGates pod (["example.com/a"] ++ ["example.com/b"])).
Proof.
  intros pod.
  apply (unGatePod_removes_the_gate Scenario.gate pod
           ["example.com/a"] ["example.com/b"]).
  - reflexivity.
  - intros [H|[]]. discriminate.
  - intros [H|[]]. discriminate.
Defined.

Lemma deleteInstasliceAllocation_witness :
  let stored := Scenario.node
                  [("u1", Scenario.allocation AllocationStatusDeleted);
                   ("u2", Scenario.neighbour)] in
  let left := Scenario.node [("u2", Scenario.neighbour)] in
  let w := Scenario.cluster [] [stored] 0 in
  deleteInstasliceAllocation "node-1"
    (Scenario.allocation AllocationStatusDeleted) w
  = (Next (done, None), snd (Update_Instaslice left w)).
Proof.
  intros stored left w.
  refine (proj1 (deleteInstasliceAllocation_removes_the_entry "node-1"
                   (Scenario.allocation AllocationStatusDeleted) stored
                   w w (snd (Update_Instaslice left w)) _ _));
    reflexivity.
Defined.

Lemma setInstasliceAllocationToDeleting_witness :
  let stored := Scenario.node
                  [("u1", Scenario.allocation AllocationStatusCreated);
                   ("u2", Scenario.neighbour)] in
  let marked := Scenario.node
                  [("u1", Scenario.allocation AllocationStatusDeleting);
                   ("u2", Scenario.neighbour)] in
  let w := Scenario.cluster [] [stored] 0 in
  setInstasliceAllocationToDeleting Scenario.operatorNamespace "node-1" "u1"
    (Scenario.allocation AllocationStatusCreated) w
  = (Next (done, None), snd (Update_Instaslice marked w)).
Proof.
  intros stored marked w.
  refine (proj1 (setInstasliceAllocationToDeleting_marks_the_entry
                   Scenario.operatorNamespace "node-1" "u1"
                   (Scenario.allocation AllocationStatusCreated) stored
                   w w (snd (Update_Instaslice marked w)) _ _ _));
    try reflexivity.
  discriminate.
Defined.

Lemma removeInstaSliceFinalizer_witness :
  let pod := Scenario.runningPod (Some Scenario.deletionRequested) in
  let w := Scenario.cluster [pod] []
             (Scenario.deletionRequested + 40 * Second) in
  removeInstaSliceFinalizer Scenario.finalizer Scenario.request w
  = (Next (done, None), snd (Update_Pod (setFinalizers pod []) w)).
Proof.
  intros pod w.
  refine (proj1 (removeInstaSliceFinalizer_releases_the_pod
                   Scenario.finalizer Scenario.request pod
                   w w (snd (Update_Pod (setFinalizers pod []) w)) _ _));
    reflexivity.
Defined.

Lemma pod_gated_by_others_witness :
  let w := Scenario.cluster [Scenario.heldBackPod] [Scenario.node []] 0 in
  Scenario.reconcile Scenario.firstSlice w = (Ret done None, w) /\ quiet w w.
Proof.
  intros w.
  refine (pod_gated_by_others_is_left_alone Scenario.gate Scenario.finalizer
            Scenario.nodeLabel Scenario.operatorNamespace Scenario.firstSlice
            Scenario.request w w w (instaslices w) None Scenario.heldBackPod
            "example.com/quota" _ _ _ _);
    try reflexivity.
  - right. now left.
  - discriminate.
Defined.

Lemma foreign_pod_witness :
  let w := Scenario.cluster [Scenario.strangerPod]
             [Scenario.node
                [("u1", Scenario.allocation AllocationStatusCreated)]] 0 in
  Scenario.reconcile Scenario.firstSlice w = (Ret done None, w) /\ quiet w w.
Proof.
  intros w.
  refine (foreign_pod_is_ignored Scenario.gate Scenario.finalizer
            Scenario.nodeLabel Scenario.operatorNamespace Scenario.firstSlice
            Scenario.request w w w (instaslices w) None Scenario.strangerPod
            _ _ _ _);
    reflexivity.
Defined.

Lemma pass_panics_witness :
  let w := Scenario.cluster [Scenario.unconditionedPod] [Scenario.node []] 0 in
  (exists msg, Scenario.reconcile Scenario.firstSlice w = (Panic msg, w))
  /\ quiet w w.
Proof.
  intros w.
  refine (pass_panics_on_pending_gated_pod_without_condition Scenario.gate
            Scenario.finalizer Scenario.nodeLabel Scenario.operatorNamespace
            Scenario.firstSlice Scenario.request w w w (instaslices w) None
            Scenario.unconditionedPod _ _ _ _ _ _);
    try reflexivity.
  - now left.
  - intros gate [<-|[]]. reflexivity.
Defined.

Lemma pod_read_failure_witness :
  let w := Scenario.flaky [Scenario.gatedPod] [Scenario.node []] in
  Scenario.reconcile Scenario.firstSlice w
  = (Ret done None, setFaults w []) /\ quiet w (setFaults w []).
Proof.
  intros w.
  refine (pod_read_failure_ends_the_pass Scenario.gate Scenario.finalizer
            Scenario.nodeLabel Scenario.operatorNamespace Scenario.firstSlice
            Scenario.request w (setFaults w [true]) (setFaults w [])
            (instaslices w) None zeroPod ErrApi _ _ _);
    try reflexivity.
  discriminate.
Defined.

Lemma terminal_pod_without_allocation_witness :
  let pod := Scenario.finishedPod PodSucceeded in
  let w := Scenario.cluster [pod] [Scenario.node [("u2", Scenario.neighbour)]]
             0 in
  exists err w3,
    Update_Pod (fst (RemoveFinalizer pod Scenario.finalizer)) w
    = (Next err, w3)
    /\ Scenario.reconcile Scenario.noCapacity w
       = (Ret (match err with None => done | Some _ => retryNow end) None, w3)
    /\ ContainsFinalizer (fst (RemoveFinalizer pod Scenario.finalizer))
         Scenario.finalizer = false
    /\ instaslices w3 = instaslices w
    /\ trace w3
       = (trace w
          ++ [UpdatePod (fst (RemoveFinalizer pod Scenario.finalizer))
                (match err with None => true | Some _ => false end)])%list.
Proof.
  intros pod w.
  refine (terminal_pod_without_allocation_releases_the_finalizer
            Scenario.gate Scenario.finalizer Scenario.nodeLabel
            Scenario.operatorNamespace Scenario.noCapacity Scenario.request
            w w w (instaslices w) None pod _ _ _ _ _ _);
    try reflexivity.
  - now right.
  - intros inst e [<-|[]] [<-|[]]. discriminate.
Defined.

Lemma terminal_pod_with_deleted_allocation_witness :
  let pod := Scenario.finishedPod PodFailed in
  let deleted := Scenario.node
                   [("u1", Scenario.allocation AllocationStatusDeleted)] in
  let w := Scenario.cluster [pod] [deleted] 0 in
  Scenario.reconcile Scenario.noCapacity w
  = (Ret (retryAfter (2 * Second)) None,
     snd (Update_Instaslice (Scenario.node []) w)).
Proof.
  intros pod deleted w.
  refine (proj1 (terminal_pod_with_deleted_allocation_removes_the_entry
                   Scenario.gate Scenario.finalizer Scenario.nodeLabel
                   Scenario.operatorNamespace Scenario.noCapacity
                   Scenario.request w w w w
                   (snd (Update_Instaslice (Scenario.node []) w))
                   [deleted] [] [] deleted deleted [] []
                   ("u1", Scenario.allocation AllocationStatusDeleted)
                   None pod _ _ _ _ _ _ _ _ _ _ _ _ _));
    try reflexivity.
  - now left.
  - intros i x [].
  - intros x [].
Defined.

Lemma terminal_pod_allocation_is_marked_deleting_witness :
  let pod := Scenario.finishedPod PodFailed in
  let ungated := Scenario.node
                   [("u1", Scenario.allocation AllocationStatusUngated)] in
  let deleting := Scenario.node
                    [("u1", Scenario.allocation AllocationStatusDeleting)] in
  let w := Scenario.cluster [pod] [ungated] 0 in
  Scenario.reconcile Scenario.noCapacity w
  = (Ret done None, snd (Update_Instaslice deleting w)).
Proof.
  intros pod ungated deleting w.
  refine (proj1 (terminal_pod_allocation_is_marked_deleting
                   Scenario.gate Scenario.finalizer Scenario.nodeLabel
                   Scenario.operatorNamespace Scenario.noCapacity
                   Scenario.request w w w w
                   (snd (Update_Instaslice deleting w))
                   [ungated] [] [] ungated ungated [] []
                   ("u1", Scenario.allocation AllocationStatusUngated)
                   None pod _ _ _ _ _ _ _ _ _ _ _ _ _));
    try reflexivity.
  - left. split; [reflexivity | now right].
  - intros i x [].
  - intros x [].
  - discriminate.
Defined.

Lemma no_capacity_witness :
  let w := Scenario.cluster [Scenario.gatedPod]
             [Scenario.node [("u2", Scenario.neighbour)]] 0 in
  Scenario.reconcile Scenario.noCapacity w
  = (Ret (retryAfter (4 * Second)) None,
     record w (FindNode "node-1" "1g.5gb")).
Proof.
  intros w.
  refine (proj1 (no_capacity_backs_off_one_to_ten_seconds
                   Scenario.gate Scenario.finalizer Scenario.nodeLabel
                   Scenario.operatorNamespace Scenario.noCapacity
                   Scenario.request w w w (instaslices w) None
                   Scenario.gatedPod Scenario.oneUnit _ _ _ _ _ _ _ _ _));
    try reflexivity.
  intros inst e [<-|[]] [<-|[]]. discriminate.
Defined.

Lemma first_fit_witness :
  let busy := {| InstasliceName := "node-0"; InstasliceNamespace := "default";
                 Allocations := [("u2", Scenario.neighbour)];
                 Prepared := [] |} in
  let find := fun (i : Instaslice) (profile : string) (p : Pod) =>
                if String.eqb (InstasliceName i) "node-1"
                then Scenario.firstSlice i profile p else None in
  let filed := Scenario.node
                 [("u1", Scenario.allocation AllocationStatusCreating)] in
  let w := Scenario.cluster [Scenario.gatedPod] [busy; Scenario.node []] 0 in
  let searchedBoth := searched "1g.5gb" [busy; Scenario.node []] w in
  Reconcile Scenario.gate Scenario.finalizer Scenario.nodeLabel
    Scenario.operatorNamespace find Scenario.request w
  = (Ret done None, snd (Update_Instaslice filed searchedBoth)).
Proof.
  intros busy find filed w searchedBoth.
  refine (proj1 (first_fit_files_the_allocation
                   Scenario.gate Scenario.finalizer Scenario.nodeLabel
                   Scenario.operatorNamespace find
                   Scenario.request w w w searchedBoth
                   (snd (Update_Instaslice filed searchedBoth))
                   [busy; Scenario.node []] [busy] [] (Scenario.node [])
                   (Scenario.node []) None
                   Scenario.gatedPod Scenario.oneUnit
                   (Scenario.allocation AllocationStatusCreating)
                   _ _ _ _ _ _ _ _ _ _ _ _ _ _));
    try reflexivity.
  - intros i e [<-|[<-|[]]] He; [|destruct He].
    destruct He as [<-|[]]. discriminate.
  - intros i [<-|[]]. reflexivity.
  - intros item [].
Defined.

Lemma prepared_slot_witness :
  let w := Scenario.cluster [Scenario.gatedPod] [Scenario.drainingNode] 0 in
  Scenario.reconcile Scenario.firstSlice w
  = (Ret (retryAfter (1 * Second)) None,
     record w (FindNode "node-1" "1g.5gb")).
Proof.
  intros w.
  refine (proj1 (prepared_slot_defers_the_placement
                   Scenario.gate Scenario.finalizer Scenario.nodeLabel
                   Scenario.operatorNamespace Scenario.firstSlice
                   Scenario.request w w w
                   [Scenario.drainingNode] [] [] Scenario.drainingNode None
                   Scenario.gatedPod Scenario.oneUnit
                   (Scenario.allocation AllocationStatusCreating)
                   ("mig-uuid-1",
                    {| Parent := "GPU-1"; PreparedStart := 0;
                       PreparedSize := 1; PreparedPodUUID := "u9" |})
                   _ _ _ _ _ _ _ _ _ _ _ _ _ _ _));
    try reflexivity.
  - intros i e [<-|[]] [].
  - intros i [].
  - now left.
Defined.

Lemma healthy_created_allocation_witness :
  let created := Scenario.node
                   [("u1", Scenario.allocation AllocationStatusCreated)] in
  let ungated := Scenario.node
                   [("u1", Scenario.allocation AllocationStatusUngated)] in
  let started := setSchedulingGates
                   (setNodeSelector Scenario.gatedPod
                      [(Scenario.nodeLabel, "node-1")]) [] in
  let w := Scenario.cluster
             [Scenario.gatedPod; Scenario.devicePlugin PodRunning]
             [created] 0 in
  let wh := record w (HealthQuery "nvidia-device-plugin-daemonset"
                        "gpu-operator") in
  let wu := snd (Update_Instaslice ungated wh) in
  let wp := snd (Update_Pod started wu) in
  Scenario.reconcile Scenario.noCapacity w
  = (Ret done None, snd (Update_Pod started wp)).
Proof.
  intros created ungated started w wh wu wp.
  refine (proj1 (healthy_created_allocation_ungates_the_pod
                   Scenario.gate Scenario.finalizer Scenario.nodeLabel
                   Scenario.operatorNamespace Scenario.noCapacity
                   Scenario.request w w w wh wh wu wp
                   (snd (Update_Pod started wp))
                   [created] [] [] created created [] []
                   ("u1", Scenario.allocation AllocationStatusCreated)
                   None Scenario.gatedPod Scenario.oneUnit
                   _ _ _ _ _ _ _ _ _ _ _ _ _ _ _ _ _ _));
    try reflexivity.
  - intros i x [].
  - intros x [].
Defined.

Lemma deleted_gated_pod_waits_witness :
  let w := Scenario.cluster [Scenario.gatedDeletedPod]
             [Scenario.node
                [("u1", Scenario.allocation AllocationStatusCreating)]]
             (Scenario.deletionRequested + 5 * Second) in
  Scenario.reconcile Scenario.noCapacity w = (Ret done None, w) /\ quiet w w.
Proof.
  intros w.
  refine (deleted_gated_pod_waits_for_the_allocation
            Scenario.gate Scenario.finalizer Scenario.nodeLabel
            Scenario.operatorNamespace Scenario.noCapacity Scenario.request
            w w w (instaslices w) None Scenario.gatedDeletedPod
            _ _ _ _ _ _ _);
    try reflexivity.
  intros inst e [<-|[]] [<-|[]] _. split; discriminate.
Defined.

Lemma deleted_gated_pod_marks_witness :
  let created := Scenario.node
                   [("u1", Scenario.allocation AllocationStatusCreated)] in
  let deleting := Scenario.node
                    [("u1", Scenario.allocation AllocationStatusDeleting)] in
  let w := Scenario.cluster [Scenario.gatedDeletedPod] [created]
             (Scenario.deletionRequested + 5 * Second) in
  Scenario.reconcile Scenario.noCapacity w
  = (Ret done None, snd (Update_Instaslice deleting w)).
Proof.
  intros created deleting w.
  refine (proj1 (deleted_gated_pod_marks_created_allocation_deleting
                   Scenario.gate Scenario.finalizer Scenario.nodeLabel
                   Scenario.operatorNamespace Scenario.noCapacity
                   Scenario.request w w w w
                   (snd (Update_Instaslice deleting w))
                   [created] [] [] created created [] []
                   (Scenario.allocation AllocationStatusCreated)
                   None Scenario.gatedDeletedPod
                   _ _ _ _ _ _ _ _ _ _ _ _ _ _));
    try reflexivity.
  - intros i x [].
  - intros x [].
  - discriminate.
Defined.

Lemma deleted_gated_pod_released_witness :
  let deleted := Scenario.node
                   [("u1", Scenario.allocation AllocationStatusDeleted)] in
  let released := setFinalizers Scenario.gatedDeletedPod [] in
  let w := Scenario.cluster [Scenario.gatedDeletedPod] [deleted]
             (Scenario.deletionRequested + 5 * Second) in
  let wu := snd (Update_Instaslice (Scenario.node []) w) in
  Scenario.reconcile Scenario.noCapacity w
  = (Ret done None, snd (Update_Pod released wu)).
Proof.
  intros deleted released w wu.
  refine (proj1 (deleted_gated_pod_with_deleted_allocation_is_released
                   Scenario.gate Scenario.finalizer Scenario.nodeLabel
                   Scenario.operatorNamespace Scenario.noCapacity
                   Scenario.request w w w w wu
                   (snd (Update_Pod released wu))
                   [deleted] [] [] deleted deleted [] []
                   (Scenario.allocation AllocationStatusDeleted)
                   None Scenario.gatedDeletedPod
                   _ _ _ _ _ _ _ _ _ _ _ _ _ _));
    try reflexivity.
  - intros i x [].
  - intros x [].
Defined.

Lemma gated_pod_waits_witness :
  let w := Scenario.cluster
             [Scenario.gatedPod; Scenario.devicePlugin PodRunning]
             [Scenario.node
                [("u1", Scenario.allocation AllocationStatusCreating)]] 0 in
  Scenario.reconcile Scenario.firstSlice w = (Ret done None, w) /\ quiet w w.
Proof.
  intros w.
  refine (gated_pod_waits_for_the_slice
            Scenario.gate Scenario.finalizer Scenario.nodeLabel
            Scenario.operatorNamespace Scenario.firstSlice Scenario.request
            w w w (instaslices w) None Scenario.gatedPod Scenario.oneUnit
            _ _ _ _ _ _ _ _ _);
    try reflexivity.
  - exists (Scenario.node
              [("u1", Scenario.allocation AllocationStatusCreating)]),
      ("u1", Scenario.allocation AllocationStatusCreating).
    cbn. auto.
  - intros inst e [<-|[]] [<-|[]] _. split; discriminate.
Defined.

Lemma grace_period_witness :
  let pod := Scenario.runningPod (Some Scenario.deletionRequested) in
  let created := Scenario.node
                   [("u1", Scenario.allocation AllocationStatusCreated)] in
  let w := Scenario.cluster [pod] [created]
             (Scenario.deletionRequested + 30 * Second) in
  Scenario.reconcile Scenario.noCapacity w = (Ret done None, w).
Proof.
  intros pod created w.
  refine (proj1 (proj2 (proj2
            (grace_period_delay_is_thirty_seconds_less_elapsed
               Scenario.gate Scenario.finalizer Scenario.nodeLabel
               Scenario.operatorNamespace Scenario.noCapacity
               Scenario.request w w w (instaslices w) None pod
               Scenario.deletionRequested
               _ _ _ _ _ _ _ _ _ _ _ _))) _);
    try reflexivity; try discriminate.
  - intros H. exact H.
  - vm_compute. split; discriminate.
  - exists created, ("u1", Scenario.allocation AllocationStatusCreated).
    cbn. auto.
  - intros inst e [<-|[]] [<-|[]] _. discriminate.
Defined.

Lemma deleted_running_pod_without_allocation_witness :
  let pod := Scenario.runningPod (Some Scenario.deletionRequested) in
  let w := Scenario.cluster [pod] [Scenario.node [("u2", Scenario.neighbour)]]
             (Scenario.deletionRequested + 60 * Second) in
  Scenario.reconcile Scenario.noCapacity w = (Ret done None, w) /\ quiet w w.
Proof.
  intros pod w.
  refine (deleted_running_pod_without_allocation_keeps_the_finalizer
            Scenario.gate Scenario.finalizer Scenario.nodeLabel
            Scenario.operatorNamespace Scenario.noCapacity Scenario.request
            w w w (instaslices w) None pod _ _ _ _ _ _ _ _ _);
    try reflexivity; try discriminate.
  - intros H. exact H.
  - intros inst e [<-|[]] [<-|[]]. discriminate.
Defined.
